(** * LLMify front end: a shallow embedding of the dashboard's client logic

    The development follows the TypeScript sources of the Next.js front end,
    one module per source unit:

    - [lib/api.ts]                         -> [Module Api]
    - the [GapsPage] component             -> [Module GapsPage]
    - the [CompetitorsPage] component      -> [Module CompetitorsPage]
    - the [AnalysisPage], [TrendsPage] and [DashboardPage] components
      (their loaders)                      -> modules of the same names
    - the run selector that the analysis, gaps and competitors pages share
                                           -> [Module RunSelector]
    - [app/dashboard/generator/page.tsx]   -> [Module GeneratorPage]
    - JavaScript built-ins the pages rely on (template literals, [parseInt],
      [trim], [split], [sort], the arithmetic of doubles) -> [Module JS]

    The server-side orchestrator is not part of the front end; [Module
    Orchestrator] states its progress contract as the specification gives it.

    Further source units, with the properties read off their code:

    - the wrappers of [lib/api.ts]         -> [Module ApiCalls]
    - the [AuthProvider], the home page, the OAuth callback and the login
      form                                 -> [Module Auth]
    - the generator page as it is driven   -> [Module GeneratorFlow]
    - row expansion on the gaps page       -> [Module GapsPageUI]
    - leaderboard rows and chart colours   -> [Module CompetitorsPageUI]
    - the settings page                    -> [Module SettingsPage]
    - the run dropdown and filter buttons  -> [Module RunSelectorUI]
    - the signup wizard                    -> [Module SignupPage]
    - [app/admin/costs/page.tsx]           -> [Module AdminCostsPage]
    - [components/DashboardLayout.tsx]     -> [Module DashboardLayout]
    - [app/admin/layout.tsx], [app/admin/page.tsx]
                                           -> [Module AdminLayout],
                                              [Module AdminDashboard]

    Part I holds the definitions, Part II the properties the specification
    states, Part III further properties of the sources. *)

From Stdlib Require Import List Bool Arith ZArith QArith Lia.
From Stdlib Require Import String Ascii DecimalString DecimalPos.
From Stdlib Require Import Sorting.Sorted Sorting.Permutation.
From Stdlib Require Import Qround Qabs Qpower Qreduction Lqa.
From Stdlib Require DecimalZ.
Import ListNotations.

Close Scope Q_scope.
Open Scope nat_scope.

Open Scope string_scope.

(* ================================================================== *)
(** * Part I: definitions                                              *)
(* ================================================================== *)

(** ** JavaScript values used throughout *)

Module JS.

(** An optional argument or nullable value: [T | null | undefined]. *)
Inductive Nullable (A : Type) : Type :=
| undefined : Nullable A
| null : Nullable A
| value : A -> Nullable A.

Arguments undefined {A}.
Arguments null {A}.
Arguments value {A} _.

(** Outcome of a call that may throw. *)
Inductive result (A : Type) : Type :=
| ok : A -> result A
| throw : string -> result A.

Arguments ok {A} _.
Arguments throw {A} _.

(** Truthiness of a string: only the empty string is falsy. *)
Definition truthy_string (s : string) : bool :=
  match s with
  | EmptyString => false
  | String _ _ => true
  end.

(** [`${b}`] for a boolean. *)
Definition show_bool (b : bool) : string :=
  if b then "true"%string else "false"%string.

(** [`${i}`] for an array index (below 2^32, where a number prints as its
    decimal digits); negative values get a leading minus sign. Run ids,
    limits and day counts are printed by [to_string] below. *)
Definition show_number (n : Z) : string :=
  NilZero.string_of_int (Z.to_int n).

(** The characters of a rendered number are digits or the minus sign. *)
Definition digit_or_minus (c : ascii) : bool :=
  let n := nat_of_ascii c in
  (((48 <=? n) && (n <=? 57)) || (n =? 45))%nat.

(** [has_char c s]: the character [c] occurs in [s]. *)
Fixpoint has_char (c : ascii) (s : string) : bool :=
  match s with
  | EmptyString => false
  | String a r => Ascii.eqb a c || has_char c r
  end.

(** Cut [s] at the first occurrence of [c]: the text before it, and the text
    after it when [c] occurs. *)
Fixpoint split_at (c : ascii) (s : string) : string * option string :=
  match s with
  | EmptyString => (EmptyString, None)
  | String a r =>
      if Ascii.eqb a c then (EmptyString, Some r)
      else let (h, t) := split_at c r in (String a h, t)
  end.

(** [s.split(c)] for a one-character separator. *)
Fixpoint split_on (c : ascii) (s : string) : list string :=
  match s with
  | EmptyString => [EmptyString]
  | String a r =>
      if Ascii.eqb a c then EmptyString :: split_on c r
      else match split_on c r with
           | h :: t => String a h :: t
           | [] => [String a EmptyString]
           end
  end.

(** The query parameters of a URL: the text after the first [?], cut at
    every [&], each piece cut at its first [=] (no percent-decoding). *)
Definition query_params (url : string) : list (string * string) :=
  match split_at "?" url with
  | (_, None) => []
  | (_, Some q) =>
      map (fun kv => match split_at "=" kv with
                     | (k, Some v) => (k, v)
                     | (k, None) => (k, EmptyString)
                     end)
          (split_on "&" q)
  end.

(** [searchParams.get(key)] *)
Definition query_param (key url : string) : option string :=
  match find (fun kv => String.eqb (fst kv) key) (query_params url) with
  | Some kv => Some (snd kv)
  | None => None
  end.

(** *** Numbers

    A JavaScript number, as far as the arithmetic of the pages needs it:
    [NaN], the two infinities, or a finite value, which is a rational that
    is a double. The result of an operation is the double nearest to the
    exact result ([Number_of]: round to nearest, halves to even, with
    subnormals, and overflow to infinity from 2^1024 - 2^970 on). The sign
    of zero is not modelled: a zero divisor is taken as [+0]. *)
Inductive number := nan | infinity (negative : bool) | finite (q : Q).

Definition Qnegative (q : Q) : bool := negb (Qle_bool 0 q).
Definition Qzero (q : Q) : bool := Qeq_bool q 0.

Definition pow2 (e : Z) : Q := (2 ^ e)%Q.

(** For a positive real [q], the [k] with 2^k <= q < 2^(k+1). *)
Definition floor_log2 (q : Q) : Z :=
  let k := (Z.log2 (Qnum q) - Z.log2 (Zpos (Qden q)))%Z in
  if Qle_bool (pow2 k) q then k else (k - 1)%Z.

(** The whole number nearest to [x], a half going to the even neighbour. *)
Definition round_half_even (x : Q) : Z :=
  let f := Qfloor x in
  match (x - inject_Z f ?= 1 # 2)%Q with
  | Lt => f
  | Gt => (f + 1)%Z
  | Eq => if Z.even f then f else (f + 1)%Z
  end.

(** A positive real rounded to 53 significant bits; below 2^-1022 the
    exponent stays at -1074 (subnormal values). *)
Definition round_positive (q : Q) : Q :=
  let e := Z.max (floor_log2 q - 52) (-1074) in
  (inject_Z (round_half_even (q / pow2 e)) * pow2 e)%Q.

Definition round_real (q : Q) : Q :=
  match (q ?= 0)%Q with
  | Eq => 0%Q
  | Gt => round_positive q
  | Lt => (- round_positive (- q))%Q
  end.

(** The Number value of a real. *)
Definition Number_of (q : Q) : number :=
  let r := round_real q in
  if Qle_bool (pow2 1024) (Qabs r) then infinity (Qnegative r)
  else finite (Qred r).

(** The Number value of a whole number, as JSON delivers it. *)
Definition number_of_Z (z : Z) : number := Number_of (inject_Z z).

(** A rational that is a double, in lowest terms. *)
Definition double (q : Q) : Prop := Number_of q = finite q.

(** [a / b] *)
Definition number_div (a b : number) : number :=
  match a, b with
  | nan, _ | _, nan => nan
  | finite x, finite y =>
      if Qzero y then
        if Qzero x then nan else infinity (Qnegative x)
      else Number_of (x / y)
  | finite _, infinity _ => finite 0
  | infinity s, finite y => infinity (xorb s (Qnegative y))
  | infinity _, infinity _ => nan
  end.

(** [a * b] *)
Definition number_mul (a b : number) : number :=
  match a, b with
  | nan, _ | _, nan => nan
  | finite x, finite y => Number_of (x * y)
  | finite x, infinity s =>
      if Qzero x then nan else infinity (xorb s (Qnegative x))
  | infinity s, finite y =>
      if Qzero y then nan else infinity (xorb s (Qnegative y))
  | infinity s, infinity t => infinity (xorb s t)
  end.

(** [a + b] *)
Definition number_add (a b : number) : number :=
  match a, b with
  | nan, _ | _, nan => nan
  | finite x, finite y => Number_of (x + y)
  | finite _, infinity s => infinity s
  | infinity s, finite _ => infinity s
  | infinity s, infinity t => if Bool.eqb s t then infinity s else nan
  end.

(** *** Whole numbers and their text

    A number that is a whole number, an infinity or [NaN]: the values
    [parseInt] returns and the values a run id, a limit or a day count can
    take. A whole number that is no double stands for the double nearest to
    it ([to_double]). *)
Inductive intnum := NaN | Int (z : Z) | Inf (negative : bool).

Bind Scope Z_scope with intnum.

Coercion Int : Z >-> intnum.

(** The Number value nearest to a whole number. *)
Definition to_double (z : Z) : intnum :=
  match Number_of (inject_Z z) with
  | finite q => Int (Qfloor q)
  | infinity negative => Inf negative
  | nan => NaN
  end.

(** The decimal digits of a whole number that is not negative. *)
Definition digits (n : Z) : string :=
  NilZero.string_of_uint (N.to_uint (Z.to_N n)).

Definition same_double (v x : Z) : bool :=
  match to_double v with
  | Int y => (y =? x)%Z
  | _ => false
  end.

(** The multiples of [scale] next to [x] that have [x] as their Number
    value; of two, the one closer to [x], and the even one when they are
    equally close. *)
Definition candidate (x scale : Z) : option Z :=
  let s := (x / scale)%Z in
  let v1 := (s * scale)%Z in
  let v2 := (v1 + scale)%Z in
  match same_double v1 x, same_double v2 x with
  | true, true =>
      Some (if (x - v1 <? v2 - x)%Z then v1
            else if (v2 - x <? x - v1)%Z then v2
            else if Z.even s then v1 else v2)
  | true, false => Some v1
  | false, true => Some v2
  | false, false => None
  end.

(** The whole number with the fewest significant digits whose Number value
    is [x]: first with all digits but one replaced by zeros, then with one
    digit fewer replaced, and so on. *)
Fixpoint shortest (zeros : nat) (x : Z) : Z :=
  match candidate x (10 ^ Z.of_nat zeros) with
  | Some v => v
  | None =>
      match zeros with
      | O => x
      | S z => shortest z x
      end
  end.

(** A digit string without its trailing zeros. *)
Fixpoint strip_zeros (s : string) : string :=
  match s with
  | EmptyString => EmptyString
  | String c r =>
      match strip_zeros r with
      | EmptyString =>
          if Ascii.eqb c "0" then EmptyString else String c EmptyString
      | r' => String c r'
      end
  end.

(** Number::toString for a positive whole Number value [x]: the digits of
    the shortest decimal that reads back as [x], padded with zeros; from
    10^21 on (22 digits or more) in exponent notation. *)
Definition to_string_positive (x : Z) : string :=
  let v := shortest (String.length (digits x) - 1) x in
  let d := digits v in
  let n := String.length d in
  if (v <? 10 ^ 21)%Z then d
  else
    let exponent := "e+" ++ digits (Z.of_nat (n - 1)) in
    match strip_zeros d with
    | EmptyString => d
    | String c EmptyString => String c exponent
    | String c rest => String c ("." ++ rest ++ exponent)
    end.

(** [`${n}`] for a run id, a limit or a day count. *)
Definition to_string (n : intnum) : string :=
  match n with
  | NaN => "NaN"
  | Inf negative => if negative then "-Infinity" else "Infinity"
  | Int z =>
      match to_double z with
      | NaN => "NaN"
      | Inf negative => if negative then "-Infinity" else "Infinity"
      | Int x =>
          if (x =? 0)%Z then "0"
          else if (x <? 0)%Z then "-" ++ to_string_positive (- x)
          else to_string_positive x
      end
  end.

(** The characters a printed number can hold. *)
Definition number_char (c : ascii) : bool :=
  let n := nat_of_ascii c in
  (((48 <=? n) && (n <=? 57)) || (n =? 45) || (n =? 43) || (n =? 46)
   || has_char c "eInfinityNaN")%nat.

(** White space as [parseInt] strips it, for characters below 256. *)
Definition is_space (a : ascii) : bool :=
  let n := nat_of_ascii a in
  (((9 <=? n) && (n <=? 13)) || (n =? 32) || (n =? 160))%nat.

Fixpoint skip_spaces (s : string) : string :=
  match s with
  | EmptyString => EmptyString
  | String a r => if is_space a then skip_spaces r else s
  end.

(** The value of a digit in the given radix, [None] for any other
    character. *)
Definition digit_value (radix : N) (a : ascii) : option N :=
  let n := N_of_ascii a in
  let v :=
    if ((48 <=? n) && (n <=? 57))%N then Some (n - 48)%N
    else if ((97 <=? n) && (n <=? 122))%N then Some (n - 87)%N
    else if ((65 <=? n) && (n <=? 90))%N then Some (n - 55)%N
    else None in
  match v with
  | Some d => if (d <? radix)%N then Some d else None
  | None => None
  end.

(** The longest prefix of digits, read left to right; [None] when there is
    no digit at all. *)
Fixpoint parse_digits (radix : N) (acc : option N) (s : string) : option N :=
  match s with
  | EmptyString => acc
  | String a r =>
      match digit_value radix a with
      | Some d =>
          parse_digits radix
            (Some (match acc with
                   | Some x => x * radix + d
                   | None => d
                   end)%N) r
      | None => acc
      end
  end.

(** [parseInt(s)] without a radix argument: leading white space, an optional
    sign, an optional [0x] prefix selecting radix 16, then digits; [NaN] when
    no digit follows. The result is the Number value of the digits read,
    correctly rounded. *)
Definition parseInt (s : string) : intnum :=
  let s1 := skip_spaces s in
  let '(negative, s2) :=
    match s1 with
    | String "-" r => (true, r)
    | String "+" r => (false, r)
    | _ => (false, s1)
    end in
  let '(radix, s3) :=
    match s2 with
    | String "0" (String "x" r) => (16%N, r)
    | String "0" (String "X" r) => (16%N, r)
    | _ => (10%N, s2)
    end in
  match parse_digits radix None s3 with
  | None => NaN
  | Some v => to_double (if negative then - Z.of_N v else Z.of_N v)
  end.

(** *** Free text

    The content of a text area is a sequence of UTF-16 code units. *)
Definition text := list N.

(** The code units [trim] removes: ECMAScript WhiteSpace and
    LineTerminator. *)
Definition is_white_space (c : N) : bool :=
  (((9 <=? c) && (c <=? 13)) || (c =? 32) || (c =? 160) || (c =? 5760)
   || ((8192 <=? c) && (c <=? 8202)) || (c =? 8232) || (c =? 8233)
   || (c =? 8239) || (c =? 8287) || (c =? 12288) || (c =? 65279))%N.

Fixpoint trimStart (s : text) : text :=
  match s with
  | [] => []
  | c :: r => if is_white_space c then trimStart r else s
  end.

Definition trimEnd (s : text) : text := rev (trimStart (rev s)).

(** [s.trim()] *)
Definition trim (s : text) : text := trimEnd (trimStart s).

(** A text of white space only, and a text that does not start with white
    space. *)
Definition blank (s : text) : bool := forallb is_white_space s.

Definition head_clean (s : text) : bool :=
  match s with
  | [] => true
  | c :: _ => negb (is_white_space c)
  end.

(** [s.split('\n')] *)
Fixpoint split_newline (s : text) : list text :=
  match s with
  | [] => [[]]
  | c :: r =>
      if (c =? 10)%N then [] :: split_newline r
      else match split_newline r with
           | h :: t => (c :: h) :: t
           | [] => [[c]]
           end
  end.

(** Truthiness of a text: only the empty one is falsy; also [s.length > 0]. *)
Definition nonempty (s : text) : bool :=
  match s with
  | [] => false
  | _ :: _ => true
  end.

(** *** Array.prototype.sort

    [array.sort(compareFn)]: [compareFn(a, b) > 0] puts [a] after [b], and
    elements that compare equal keep their order (the sort is stable). For a
    consistent comparator that fixes the result, whatever algorithm the
    engine runs; it is computed here by insertion, right to left. The
    comparator returns a finite number. *)
Definition Qpositive (q : Q) : bool := negb (Qle_bool q 0).

Fixpoint sort_insert {A} (compareFn : A -> A -> Q) (x : A) (l : list A) : list A :=
  match l with
  | [] => [x]
  | y :: r =>
      if Qpositive (compareFn x y) then y :: sort_insert compareFn x r
      else x :: l
  end.

Fixpoint sort {A} (compareFn : A -> A -> Q) (l : list A) : list A :=
  match l with
  | [] => []
  | x :: r => sort_insert compareFn x (sort compareFn r)
  end.

End JS.

(** ** lib/api.ts *)

Module Api.
Import JS.

(** A string-keyed object: entries in insertion order, keys unique. It models
    both [localStorage] and the [headers] object. *)
Definition Dict := list (string * string).

Fixpoint dict_get (k : string) (d : Dict) : option string :=
  match d with
  | [] => None
  | (k', v) :: r => if String.eqb k' k then Some v else dict_get k r
  end.

(** [d[k] = v]: overwrite the entry in place, or append a new one. *)
Fixpoint dict_set (k v : string) (d : Dict) : Dict :=
  match d with
  | [] => [(k, v)]
  | (k', v') :: r =>
      if String.eqb k' k then (k', v) :: r else (k', v') :: dict_set k v r
  end.

Fixpoint dict_remove (k : string) (d : Dict) : Dict :=
  match d with
  | [] => []
  | (k', v') :: r =>
      if String.eqb k' k then dict_remove k r else (k', v') :: dict_remove k r
  end.

(** [{ ...a, ...b }]: the entries of [b] assigned over [a], in order. *)
Definition dict_spread (a b : Dict) : Dict :=
  fold_left (fun acc kv => dict_set (fst kv) (snd kv) acc) b a.

(** The browser state the client touches: [localStorage] and
    [window.location.href]. *)
Record Browser := {
  localStorage : Dict;
  location_href : string
}.

(** [RequestInit], restricted to the fields the client sets. *)
Record RequestInit := {
  method : option string;
  body : option string;
  headers : Dict
}.

(** What [fetch] is called with. *)
Record Request := {
  req_url : string;
  req_init : RequestInit
}.

(** What [fetch] resolves to. *)
Record Response := {
  status : Z;
  payload : string
}.

(** [const API_BASE = process.env.NEXT_PUBLIC_API_URL || '/api'] *)
Definition API_BASE (NEXT_PUBLIC_API_URL : option string) : string :=
  match NEXT_PUBLIC_API_URL with
  | Some u => if truthy_string u then u else "/api"
  | None => "/api"
  end%string.

(** [getToken]: [null] when there is no [window] (server-side rendering),
    otherwise [localStorage.getItem('token')]. *)
Definition getToken (window : option Browser) : option string :=
  match window with
  | None => None
  | Some w => dict_get "token" (localStorage w)
  end.

(** The [headers] object [fetchWithAuth] builds before calling [fetch]. *)
Definition auth_headers (token : option string) (options : RequestInit) : Dict :=
  let headers :=
    dict_spread [("Content-Type", "application/json")]%string (headers options) in
  match token with
  | Some t =>
      if truthy_string t
      then dict_set "Authorization" ("Bearer " ++ t) headers
      else headers
  | None => headers
  end.

(** The outcome of one [fetchWithAuth] call: the request handed to [fetch],
    the value the promise settles with, and the browser state afterwards. *)
Record Fetched := {
  sent : Request;
  settled : result Response;
  window_after : option Browser
}.

(** [fetchWithAuth(endpoint, options)]. The network is the function [fetch].
    On a 401 the two storage entries are removed and the location is set to
    the login page; without a [window] the reference to [localStorage] in
    that branch throws. The response is returned in every other case. *)
Definition fetchWithAuth (base : string) (fetch : Request -> Response)
    (window : option Browser) (endpoint : string) (options : RequestInit)
  : Fetched :=
  let token := getToken window in
  let headers := auth_headers token options in
  let request :=
    {| req_url := base ++ endpoint;
       req_init := {| method := method options;
                      body := body options;
                      headers := headers |} |} in
  let response := fetch request in
  if (status response =? 401)%Z then
    match window with
    | Some w =>
        {| sent := request;
           settled := ok response;
           window_after :=
             Some {| localStorage :=
                       dict_remove "user" (dict_remove "token" (localStorage w));
                     location_href := "/login" |} |}
    | None =>
        {| sent := request;
           settled := throw "ReferenceError: localStorage is not defined";
           window_after := None |}
    end
  else
    {| sent := request; settled := ok response; window_after := window |}.

(** The [options] argument of the calls in this file: an optional [method]
    and [body], never [headers]. *)
Definition api_options (m b : option string) : RequestInit :=
  {| method := m; body := b; headers := [] |}.

(** The token the client finds in the browser: the ['token'] entry of
    [localStorage], an empty entry counting as none ([if (token)]). *)
Definition stored_token (w : Browser) : option string :=
  match dict_get "token" (localStorage w) with
  | Some t => if truthy_string t then Some t else None
  | None => None
  end.

(** The browser after the 401 branch: both entries removed, location set. *)
Definition logged_out (w : Browser) : Browser :=
  {| localStorage := dict_remove "user" (dict_remove "token" (localStorage w));
     location_href := "/login" |}.

(** *** Analysis endpoints

    Each function below is the endpoint its TypeScript namesake passes to
    [fetchWithAuth] (always with empty [options]). *)

(** The suffix appended under
    [if (branded !== undefined && branded !== null)]. *)
Definition branded_suffix (sep : string) (branded : Nullable bool) : string :=
  match branded with
  | undefined => ""
  | null => ""
  | value b => sep ++ "branded=" ++ show_bool b
  end.

Definition getRunAnalysisSummary (runId : intnum) (branded : Nullable bool) : string :=
  ("/analysis/runs/" ++ to_string runId ++ "/summary")
    ++ branded_suffix "?" branded.

Definition getGapAnalysis (runId : intnum) (branded : Nullable bool) : string :=
  ("/analysis/runs/" ++ to_string runId ++ "/gaps")
    ++ branded_suffix "?" branded.

Definition getCompetitorAnalysis (runId : intnum) (branded : Nullable bool) : string :=
  ("/analysis/runs/" ++ to_string runId ++ "/competitors")
    ++ branded_suffix "?" branded.

Definition getTimeSeriesData (days : intnum) (branded : Nullable bool) : string :=
  ("/analysis/time-series?days=" ++ to_string days)
    ++ branded_suffix "&" branded.

Definition getCitationAnalysis (runId : intnum) : string :=
  "/analysis/runs/" ++ to_string runId ++ "/citations".

Definition getDashboardStats : string := "/analysis/dashboard-stats".

Definition getMentionRatesBySource (branded : Nullable bool) : string :=
  "/analysis/mention-rates-by-source" ++ branded_suffix "?" branded.

Definition getDashboardStatsFiltered (branded : Nullable bool) : string :=
  "/analysis/dashboard-stats-filtered" ++ branded_suffix "?" branded.

(** *** Other endpoints used by the pages *)

Definition getCurrentClient : string := "/clients/current".

Definition getQueryRuns (limit offset : intnum) : string :=
  "/queries/runs?limit=" ++ to_string limit
    ++ "&offset=" ++ to_string offset.

Definition getQueryRunStatus (runId : intnum) : string :=
  "/queries/runs/" ++ to_string runId ++ "/status".

(** *** The branded filter of the pages *)

(** [type BrandedFilter = 'all' | 'branded' | 'non_branded'] *)
Inductive BrandedFilter := all | branded | non_branded.

(** [filter === 'all' ? null : filter === 'branded'], the line every page
    uses to turn its filter into the [branded] argument. *)
Definition branded_of_filter (filter : BrandedFilter) : Nullable bool :=
  match filter with
  | all => null
  | branded => value true
  | non_branded => value false
  end.

(** What the [branded] query parameter of a request must be for a filter. *)
Definition branded_param_of (f : BrandedFilter) : option string :=
  match f with
  | all => None
  | branded => Some "true"
  | non_branded => Some "false"
  end.

(** A URL carries the filter: [branded=true] exactly for 'branded',
    [branded=false] exactly for 'non_branded', no [branded] parameter exactly
    for 'all'. *)
Definition carries_filter (f : BrandedFilter) (url : string) : Prop :=
  (query_param "branded" url = Some "true" <-> f = branded) /\
  (query_param "branded" url = Some "false" <-> f = non_branded) /\
  (query_param "branded" url = None <-> f = all).

End Api.

(** ** Gaps page *)

Module GapsPage.

(** [interface GapResponse] *)
Record GapResponse := {
  source : string;
  resp_brand_mentioned : bool;
  brand_position : option string;
  context_type : option string;
  competitors_found : option string;
  response_preview : option string;
  full_response : option string
}.

(** [interface Gap] *)
Record Gap := {
  query : string;
  category : string;
  brand_mentioned : bool;
  has_competitors : bool;
  competitors : list string;
  mentioned_sources : list string;
  missing_sources : list string;
  responses : list GapResponse
}.

(** [interface GapAnalysis] *)
Record GapAnalysis := {
  query_run_id : Z;
  total_queries : Z;
  gaps : list Gap;
  branded_count : Z;
  non_branded_count : Z;
  filter_applied : string
}.

(** The return type of [getCategoryType]:
    ['win' | 'critical' | 'competitive' | 'blue_ocean']. *)
Inductive CategoryType := win | critical | competitive | blue_ocean.

Definition CategoryType_eqb (a b : CategoryType) : bool :=
  match a, b with
  | win, win | critical, critical
  | competitive, competitive | blue_ocean, blue_ocean => true
  | _, _ => false
  end.

(** [getCategoryType]: four guarded returns, tried in order. *)
Definition getCategoryType (gap : Gap) : CategoryType :=
  if brand_mentioned gap && negb (has_competitors gap) then win
  else if negb (brand_mentioned gap) && has_competitors gap then critical
  else if brand_mentioned gap && has_competitors gap then competitive
  else blue_ocean.

(** The page's category filter state:
    [useState<'all' | 'critical' | 'wins' | 'blue_ocean'>('all')]. *)
Inductive CategoryFilter := f_all | f_critical | f_wins | f_blue_ocean.

Record Stats := {
  wins : nat;
  st_critical : nat;
  st_competitive : nat;
  st_blue_ocean : nat
}.

(** [analysis?.gaps.filter(g => getCategoryType(g) === c).length || 0] *)
Definition count_category (analysis : option GapAnalysis) (c : CategoryType) : nat :=
  match analysis with
  | None => 0
  | Some a =>
      List.length
        (filter (fun g => CategoryType_eqb (getCategoryType g) c) (gaps a))
  end.

(** [const stats = { wins: ..., critical: ..., competitive: ..., blue_ocean: ... }] *)
Definition stats (analysis : option GapAnalysis) : Stats :=
  {| wins := count_category analysis win;
     st_critical := count_category analysis critical;
     st_competitive := count_category analysis competitive;
     st_blue_ocean := count_category analysis blue_ocean |}.

(** The predicate handed to [filter] when computing [filteredGaps]. *)
Definition keep_gap (flt : CategoryFilter) (gap : Gap) : bool :=
  match flt with
  | f_all => true
  | f_critical => CategoryType_eqb (getCategoryType gap) critical
  | f_wins => CategoryType_eqb (getCategoryType gap) win
  | f_blue_ocean => CategoryType_eqb (getCategoryType gap) blue_ocean
  end.

(** [const filteredGaps = analysis?.gaps.filter(...) || []] *)
Definition filteredGaps (analysis : option GapAnalysis) (flt : CategoryFilter) : list Gap :=
  match analysis with
  | None => []
  | Some a => filter (keep_gap flt) (gaps a)
  end.

(** [loadAnalysis(runId, filter)]: the endpoints requested. *)
Definition loadAnalysis (runId : JS.intnum) (filter : Api.BrandedFilter)
  : list string :=
  [Api.getGapAnalysis runId (Api.branded_of_filter filter)].

End GapsPage.


(** ** Analysis page, trends page and dashboard home: their loaders *)

Module AnalysisPage.

(** [loadAnalysis(runId, filter)]: the summary with the filter, then the
    citation analysis. *)
Definition loadAnalysis (runId : JS.intnum) (filter : Api.BrandedFilter)
  : list string :=
  [Api.getRunAnalysisSummary runId (Api.branded_of_filter filter);
   Api.getCitationAnalysis runId].

End AnalysisPage.

Module TrendsPage.

(** [loadData()] with the page's [days] and [brandedFilter] state. *)
Definition loadData (days : JS.intnum) (brandedFilter : Api.BrandedFilter)
  : list string :=
  [Api.getTimeSeriesData days (Api.branded_of_filter brandedFilter);
   Api.getCurrentClient].

End TrendsPage.

Module DashboardPage.

(** [loadFilteredData()] with the page's [brandedFilter] state. *)
Definition loadFilteredData (brandedFilter : Api.BrandedFilter) : list string :=
  let branded := Api.branded_of_filter brandedFilter in
  [Api.getMentionRatesBySource branded;
   Api.getDashboardStatsFiltered branded].

End DashboardPage.

(** ** Competitors page *)

Module CompetitorsPage.

(** [loadAnalysis(runId, filter)]: the endpoints requested. *)
Definition loadAnalysis (runId : JS.intnum) (filter : Api.BrandedFilter)
  : list string :=
  [Api.getCompetitorAnalysis runId (Api.branded_of_filter filter)].

(** [interface CompetitorData]; rates are percentages. *)
Record CompetitorData := {
  name : string;
  is_brand : bool;
  mention_count : Z;
  mention_rate : Q;
  first_third_rate : option Q;
  positive_rate : option Q;
  unique_queries : option Z
}.

Record WinLoss := {
  wl_wins : Z;
  ties : Z;
  losses : Z;
  neither : Z
}.

(** [interface CompetitorAnalysis] *)
Record CompetitorAnalysis := {
  query_run_id : Z;
  total_responses : Z;
  comparison : list CompetitorData;
  win_loss : WinLoss;
  branded_count : Z;
  non_branded_count : Z;
  filter_applied : string
}.

(** The comparator [(a, b) => b.mention_rate - a.mention_rate]. *)
Definition by_mention_rate (a b : CompetitorData) : Q :=
  (mention_rate b - mention_rate a)%Q.

(** [const sortedComparison =
       analysis?.comparison.sort((a, b) => b.mention_rate - a.mention_rate) || []] *)
Definition sortedComparison (analysis : option CompetitorAnalysis)
  : list CompetitorData :=
  match analysis with
  | None => []
  | Some a => JS.sort by_mention_rate (comparison a)
  end.

(** The order the leaderboard is specified to have: higher mention rate
    first; among equal rates, higher mention count first; among equal counts,
    names in alphabetical order. *)
Definition ranked_before (a b : CompetitorData) : bool :=
  negb (Qle_bool (mention_rate a) (mention_rate b))
  || (Qeq_bool (mention_rate a) (mention_rate b)
      && ((mention_count b <? mention_count a)%Z
          || ((mention_count a =? mention_count b)%Z
              && String.leb (name a) (name b)))).

Definition leaderboard_order (l : list CompetitorData) : Prop :=
  StronglySorted (fun a b => ranked_before a b = true) l.

(** Descending mention rate alone. *)
Definition descending_rate (l : list CompetitorData) : Prop :=
  StronglySorted (fun a b => (mention_rate b <= mention_rate a)%Q) l.

(** The entries of a list that have a given mention rate, in list order. *)
Definition with_rate (q : Q) (l : list CompetitorData) : list CompetitorData :=
  filter (fun c => Qeq_bool (mention_rate c) q) l.

End CompetitorsPage.

(** ** The run selector of the analysis, gaps and competitors pages

    The three pages share, line for line, the state [queryRuns] and
    [selectedRunId], the function [loadInitialData] and the two effects
    around them. *)

Module RunSelector.
Import JS.

(** [interface QueryRun] of these pages. *)
Record QueryRun := {
  id : Z;
  name : option string;
  status : string;
  created_at : string
}.

Record Client := {
  brand_name : string
}.

Inductive Page := analysis_page | gaps_page | competitors_page.

Definition loadAnalysis (p : Page)
  : intnum -> Api.BrandedFilter -> list string :=
  match p with
  | analysis_page => AnalysisPage.loadAnalysis
  | gaps_page => GapsPage.loadAnalysis
  | competitors_page => CompetitorsPage.loadAnalysis
  end.

(** The component state, and the endpoints requested so far. *)
Record State := {
  queryRuns : list QueryRun;
  selectedRunId : Nullable intnum;
  loading : bool;
  brandName : string;
  brandedFilter : Api.BrandedFilter;
  requests : list string
}.

Definition request (urls : list string) (s : State) : State :=
  {| queryRuns := queryRuns s;
     selectedRunId := selectedRunId s;
     loading := loading s;
     brandName := brandName s;
     brandedFilter := brandedFilter s;
     requests := (requests s ++ urls)%list |}.

(** [searchParams.get('run')] and
    [useState(runId ? parseInt(runId) : null)]. *)
Definition initial_selectedRunId (run : option string) : Nullable intnum :=
  match run with
  | Some r => if truthy_string r then value (parseInt r) else null
  | None => null
  end.

Definition initial (run : option string) : State :=
  {| queryRuns := [];
     selectedRunId := initial_selectedRunId run;
     loading := true;
     brandName := "";
     brandedFilter := Api.all;
     requests := [] |}.

(** [if (selectedRunId)]: [null], [NaN] and [0] are falsy; the result is
    the number the effect passes on. *)
Definition truthy_selection (sel : Nullable intnum) : option intnum :=
  match sel with
  | value (Int z) => if (z =? 0)%Z then None else Some (Int z)
  | value (Inf negative) => Some (Inf negative)
  | _ => None
  end.

(** The effect on [[selectedRunId, brandedFilter]]:
    [if (selectedRunId) loadAnalysis(selectedRunId, brandedFilter)]. *)
Definition analysis_effect (p : Page) (s : State) : State :=
  match truthy_selection (selectedRunId s) with
  | Some z => request (loadAnalysis p z (brandedFilter s)) s
  | None => s
  end.

(** Mounting the page: the first effect calls [loadInitialData], which
    requests the last 20 runs and the client; the second effect runs with the
    initial selection. *)
Definition mount (p : Page) (run : option string) : State :=
  analysis_effect p
    (request [Api.getQueryRuns 20 0; Api.getCurrentClient] (initial run)).

Definition is_completed (r : QueryRun) : bool :=
  String.eqb (status r) "completed".

(** Same comparison of two selections as React's dependency check. *)
Definition same_selection (a b : Nullable intnum) : bool :=
  match a, b with
  | undefined, undefined => true
  | null, null => true
  | value NaN, value NaN => true
  | value (Int x), value (Int y) => (x =? y)%Z
  | value (Inf x), value (Inf y) => Bool.eqb x y
  | _, _ => false
  end.

(** The rest of [loadInitialData], once both requests have settled. [run] is
    the URL parameter: the function was created by the first render, so the
    [selectedRunId] it reads is the initial one. A failed request is caught
    and only [loading] is reset. The second effect runs again when the
    selection has changed. *)
Definition loadInitialData (p : Page) (run : option string)
    (data : result (list QueryRun * Client)) (s : State) : State :=
  match data with
  | throw _ =>
      {| queryRuns := queryRuns s;
         selectedRunId := selectedRunId s;
         loading := false;
         brandName := brandName s;
         brandedFilter := brandedFilter s;
         requests := requests s |}
  | ok (runs, client) =>
      let completedRuns := filter is_completed runs in
      let selected :=
        match truthy_selection (initial_selectedRunId run), completedRuns with
        | None, first :: _ => value (Int (id first))
        | _, _ => selectedRunId s
        end in
      let s' :=
        {| queryRuns := completedRuns;
           selectedRunId := selected;
           loading := false;
           brandName := brand_name client;
           brandedFilter := brandedFilter s;
           requests := requests s |} in
      if same_selection (selectedRunId s) selected then s'
      else analysis_effect p s'
  end.

(** The page from its first render until [loadInitialData] has finished. *)
Definition load (p : Page) (run : option string)
    (data : result (list QueryRun * Client)) : State :=
  loadInitialData p run data (mount p run).

(** The runs as the server lists them, newest first: [created_at] is an ISO
    timestamp, so later runs have the greater string. *)
Definition newest_first (runs : list QueryRun) : Prop :=
  StronglySorted
    (fun a b => String.leb (created_at b) (created_at a) = true) runs.

End RunSelector.


(** ** Generator page *)

Module GeneratorPage.
Import JS.

(** [interface QueryRun] *)
Record QueryRun := {
  id : Z;
  name : option string;
  status : string;
  total_queries : Z;
  completed_queries : Z;
  created_at : string
}.

(** [interface Client] *)
Record Client := {
  client_id : Z;
  brand_name : string;
  default_openai_model : string;
  default_gemini_model : string;
  default_perplexity_model : string
}.

(** [interface QueryRunCreate] of lib/api.ts *)
Record QueryRunCreate := {
  run_name : option string;
  description : option string;
  queries : list text;
  run_type : option string;
  openai_model : option string;
  gemini_model : option string;
  perplexity_model : option string
}.

(** The API calls the page makes. *)
Inductive Call :=
| createQueryRun (data : QueryRunCreate)
| runPredefinedQueries
| getQueryRuns (limit : Z)
| getQueryRunStatus (runId : Z).

(** The component state, the timer installed by the polling effect (with the
    run id its callback captured), and the API calls made so far. *)
Record State := {
  client : option Client;
  customQueries : text;
  queryRuns : list QueryRun;
  running : bool;
  activeRunId : Nullable Z;
  progress : number;
  interval : option Z;
  calls : list Call
}.

Definition set_running (b : bool) (s : State) : State :=
  {| client := client s; customQueries := customQueries s;
     queryRuns := queryRuns s; running := b; activeRunId := activeRunId s;
     progress := progress s; interval := interval s; calls := calls s |}.

Definition set_progress (x : number) (s : State) : State :=
  {| client := client s; customQueries := customQueries s;
     queryRuns := queryRuns s; running := running s;
     activeRunId := activeRunId s; progress := x; interval := interval s;
     calls := calls s |}.

Definition set_customQueries (t : text) (s : State) : State :=
  {| client := client s; customQueries := t;
     queryRuns := queryRuns s; running := running s;
     activeRunId := activeRunId s; progress := progress s;
     interval := interval s; calls := calls s |}.

Definition set_queryRuns (l : list QueryRun) (s : State) : State :=
  {| client := client s; customQueries := customQueries s;
     queryRuns := l; running := running s; activeRunId := activeRunId s;
     progress := progress s; interval := interval s; calls := calls s |}.

Definition call (c : Call) (s : State) : State :=
  {| client := client s; customQueries := customQueries s;
     queryRuns := queryRuns s; running := running s;
     activeRunId := activeRunId s; progress := progress s;
     interval := interval s; calls := (calls s ++ [c])%list |}.

(** The body of the polling effect: [if (activeRunId) setInterval(...)].
    [null] and [0] are falsy. *)
Definition polling_effect (active : Nullable Z) : option Z :=
  match active with
  | value z => if (z =? 0)%Z then None else Some z
  | _ => None
  end.

Definition same_run (a b : Nullable Z) : bool :=
  match a, b with
  | undefined, undefined => true
  | null, null => true
  | value x, value y => (x =? y)%Z
  | _, _ => false
  end.

(** [setActiveRunId(a)] followed by the re-render: when the value changes,
    the effect's cleanup clears the running interval and the effect body runs
    for the new value. *)
Definition setActiveRunId (a : Nullable Z) (s : State) : State :=
  {| client := client s; customQueries := customQueries s;
     queryRuns := queryRuns s; running := running s;
     activeRunId := a; progress := progress s;
     interval := if same_run (activeRunId s) a then interval s
                 else polling_effect a;
     calls := calls s |}.

(** [(completed_queries / total_queries) * 100], as computed both by the
    polling callback and by the progress column of the runs table. *)
Definition progress_percent (completed total : Z) : number :=
  number_mul (number_div (number_of_Z completed) (number_of_Z total))
             (number_of_Z 100).

(** [status.status === 'completed' || status.status === 'failed'] *)
Definition is_terminal (status : string) : bool :=
  String.eqb status "completed" || String.eqb status "failed".

(** [loadQueryRuns]: request the last ten runs; a failure is only logged. *)
Definition loadQueryRuns (answer : result (list QueryRun)) (s : State) : State :=
  let s := call (getQueryRuns 10) s in
  match answer with
  | ok runs => set_queryRuns runs s
  | throw _ => s
  end.

(** One firing of the interval installed by the polling effect, run to the
    end of its callback. [answer] is what [getQueryRunStatus] settles with,
    [runs] what the reload of the runs table settles with. Without a live
    interval nothing fires. *)
Definition tick (answer : result QueryRun) (runs : result (list QueryRun))
    (s : State) : State :=
  match interval s with
  | None => s
  | Some runId =>
      let s := call (getQueryRunStatus runId) s in
      match answer with
      | throw _ => s
      | ok st =>
          let s :=
            set_progress
              (progress_percent (completed_queries st) (total_queries st)) s in
          if is_terminal (status st) then
            loadQueryRuns runs (set_running false (setActiveRunId null s))
          else s
      end
  end.

(** The lines submitted by [handleRunCustom]:
    [customQueries.split('\n').map(q => q.trim()).filter(q => q.length > 0)]. *)
Definition custom_queries (customQueries : text) : list text :=
  filter nonempty (map trim (split_newline customQueries)).

(** [handleRunCustom]. [now] is [new Date().toLocaleString()], [answer] what
    [createQueryRun] settles with. *)
Definition handleRunCustom (now : string) (answer : result QueryRun)
    (s : State) : State :=
  match client s with
  | None => s
  | Some c =>
      if negb (nonempty (trim (customQueries s))) then s
      else
        let queries := custom_queries (customQueries s) in
        if (List.length queries =? 0)%nat then s
        else
          let s := set_progress (number_of_Z 0) (set_running true s) in
          let s :=
            call (createQueryRun
                    {| run_name := Some ("Custom Run - " ++ now);
                       description := None;
                       queries := queries;
                       run_type := Some "custom";
                       openai_model := Some (default_openai_model c);
                       gemini_model := Some (default_gemini_model c);
                       perplexity_model := Some (default_perplexity_model c) |})
                 s in
          match answer with
          | ok run => set_customQueries [] (setActiveRunId (value (id run)) s)
          | throw _ => set_running false s
          end
  end.

(** [handleRunPredefined] *)
Definition handleRunPredefined (answer : result QueryRun) (s : State) : State :=
  match client s with
  | None => s
  | Some _ =>
      let s := set_progress (number_of_Z 0) (set_running true s) in
      let s := call runPredefinedQueries s in
      match answer with
      | ok run => setActiveRunId (value (id run)) s
      | throw _ => set_running false s
      end
  end.

(** A sequence of interval firings, each with the answers it receives. *)
Fixpoint ticks (answers : list (result QueryRun * result (list QueryRun)))
    (s : State) : State :=
  match answers with
  | [] => s
  | (a, r) :: rest => ticks rest (tick a r s)
  end.

(** How many status requests the page has made for a run. *)
Definition status_requests (runId : Z) (s : State) : nat :=
  List.length
    (filter (fun c => match c with
                      | getQueryRunStatus r => (r =? runId)%Z
                      | _ => false
                      end) (calls s)).

(** What one firing of the interval observes: a terminal status, or not (a
    non-terminal status, or a failed request). *)
Definition observed_terminal (answer : result QueryRun) : bool :=
  match answer with
  | ok st => is_terminal (status st)
  | throw _ => false
  end.

(** The trimmed non-empty lines of a text, in their original order: every
    line is trimmed, and kept unless nothing is left of it. *)
Fixpoint keep_trimmed (lines : list text) : list text :=
  match lines with
  | [] => []
  | l :: rest =>
      match trim l with
      | [] => keep_trimmed rest
      | q => q :: keep_trimmed rest
      end
  end.

Definition trimmed_nonempty_lines (t : text) : list text :=
  keep_trimmed (split_newline t).

(** The body of the run-creation request for a list of queries. *)
Definition custom_run (c : Client) (now : string) (qs : list text)
  : QueryRunCreate :=
  {| run_name := Some ("Custom Run - " ++ now);
     description := None;
     queries := qs;
     run_type := Some "custom";
     openai_model := Some (default_openai_model c);
     gemini_model := Some (default_gemini_model c);
     perplexity_model := Some (default_perplexity_model c) |}.

End GeneratorPage.


(** ** Query Run Orchestrator (server side) *)

Module Orchestrator.

(** Modelled from the spec: the status of a QueryRun (section 3),
    status in {pending, running, completed, failed}. The orchestrator is
    server code and is not among the front-end sources. *)
Inductive Status := pending | running | completed | failed.

(** Modelled from the spec: the name under which [get_run_status] reports a
    status, as the pages compare it (['completed'], ['failed'], ...). *)
Definition status_name (st : Status) : string :=
  match st with
  | pending => "pending"
  | running => "running"
  | completed => "completed"
  | failed => "failed"
  end.

(** Modelled from the spec: the providers a query is fanned out to, one per
    vendor; the run-creation request of the generator page names a model
    for each of the three. *)
Inductive Provider := openai | gemini | perplexity.

(** Modelled from the spec: the client as far as submission reads it
    (section 7): a run is rejected with a [ConfigError] when the brand name
    or the alias list is missing. *)
Record Client := {
  brand_name : option string;
  brand_aliases : option (list string)
}.

(** Modelled from the spec: the client has a brand name and an alias list
    (section 7, [ConfigError]). *)
Definition configured (c : Client) : bool :=
  match brand_name c, brand_aliases c with
  | Some _, Some _ => true
  | _, _ => false
  end.

(** Modelled from the spec: the QueryRun row (section 3) with its progress
    counters; [succeeded] counts the successful responses, which decides
    between [completed] and [failed] at the end (section 4.1). *)
Record QueryRun := {
  status : Status;
  total_queries : nat;
  completed_queries : nat;
  succeeded : nat
}.

(** Modelled from the spec:
    [submit(client, queries, providers_and_models) -> QueryRun]
    (section 4.1) rejects a client without brand configuration and an empty
    query list, and otherwise creates the row with [status = pending] and
    total_queries = |queries| x |providers|. A provider/model pair is a
    configured default or an explicit override, so every pair passes; the
    contract asks for no minimum number of providers. The transition to
    [running] is the event [start] below. *)
Definition submit (client : Client) (queries : list JS.text)
    (providers_and_models : list (Provider * string)) : JS.result QueryRun :=
  if configured client then
    match queries with
    | [] => JS.throw "queries must not be empty"
    | _ :: _ =>
        JS.ok {| status := pending;
                 total_queries :=
                   List.length queries * List.length providers_and_models;
                 completed_queries := 0;
                 succeeded := 0 |}
    end
  else JS.throw "ConfigError".

(** Modelled from the spec: what happens to a run (section 4.1): dispatch
    starts, or one provider call reaches its terminal outcome (success or
    recorded error). *)
Inductive Event := start | outcome (success : bool).

(** Modelled from the spec: the progress contract (section 4.1). [start]
    moves a pending run to [running]. After every terminal call outcome of a
    running run [completed_queries] is incremented and, once it equals
    [total_queries], the status becomes [completed] if at least one response
    succeeded, else [failed]. Status transitions are the only mutation path:
    nothing else changes a run, and a terminal run does not change. *)
Definition step (r : QueryRun) (e : Event) : QueryRun :=
  match e, status r with
  | start, pending =>
      {| status := running;
         total_queries := total_queries r;
         completed_queries := completed_queries r;
         succeeded := succeeded r |}
  | outcome success, running =>
      let completed' := S (completed_queries r) in
      let succeeded' := if success then S (succeeded r) else succeeded r in
      {| status :=
           if (completed' =? total_queries r)%nat
           then (if (0 <? succeeded')%nat then completed else failed)
           else running;
         total_queries := total_queries r;
         completed_queries := completed';
         succeeded := succeeded' |}
  | _, _ => r
  end.

(** Modelled from the spec: a run after a sequence of events. *)
Definition run_events (r : QueryRun) (events : list Event) : QueryRun :=
  fold_left step events r.

(** Modelled from the spec: terminal states are [completed] and [failed]. *)
Definition terminal (st : Status) : bool :=
  match st with
  | completed | failed => true
  | _ => false
  end.

(** Modelled from the spec: the transitions of the polling contract
    (section 6), pending -> running -> {completed | failed}. *)
Inductive transition : Status -> Status -> Prop :=
| t_start : transition pending running
| t_complete : transition running completed
| t_fail : transition running failed.

(** Modelled from the spec: the invariants of a run (sections 3 and 8), a
    completed count within the total and reached exactly by terminal runs,
    for a run whose total is positive. *)
Definition run_invariant (r : QueryRun) : Prop :=
  0 < total_queries r /\
  completed_queries r <= total_queries r /\
  (completed_queries r = total_queries r <-> terminal (status r) = true).


End Orchestrator.

(** ** lib/api.ts: the wrappers around [fetchWithAuth] *)

Module ApiCalls.
Import JS Api.

(** [response.ok]: the status is in the range 200-299. *)
Definition response_ok (r : Response) : bool :=
  ((200 <=? status r) && (status r <=? 299))%Z.

(** What a wrapper leaves behind: the request it sent, the value its promise
    settles with, and the browser state. *)
Record Called (J : Type) := {
  c_sent : Request;
  c_outcome : result J;
  c_window : option Browser
}.

Arguments c_sent {J} _.
Arguments c_outcome {J} _.
Arguments c_window {J} _.

Section Wrappers.

(** [response.json()]: the parsed body, or the rejection of a body that is
    not JSON. *)
Variable J : Type.
Variable json : Response -> result J.

(** [error.detail] of a parsed error body, when it is truthy. *)
Variable detail : J -> option string.

(** The wrappers of the form
    [const response = await fetchWithAuth(endpoint, options);
     if (!response.ok) throw new Error(message);
     return response.json();]. *)
Definition api_fixed (message : string) (base : string)
    (fetch : Request -> Response) (window : option Browser)
    (endpoint : string) (options : RequestInit) : Called J :=
  let f := fetchWithAuth base fetch window endpoint options in
  {| c_sent := sent f;
     c_outcome :=
       match settled f with
       | throw e => throw e
       | ok response =>
           if response_ok response then json response else throw message
       end;
     c_window := window_after f |}.

(** The wrappers whose failure branch is
    [const error = await response.json();
     throw new Error(error.detail || message);]. *)
Definition api_detail (message : string) (base : string)
    (fetch : Request -> Response) (window : option Browser)
    (endpoint : string) (options : RequestInit) : Called J :=
  let f := fetchWithAuth base fetch window endpoint options in
  {| c_sent := sent f;
     c_outcome :=
       match settled f with
       | throw e => throw e
       | ok response =>
           if response_ok response then json response
           else match json response with
                | ok error =>
                    throw (match detail error with
                           | Some d => d
                           | None => message
                           end)
                | throw e => throw e
                end
       end;
     c_window := window_after f |}.

(** [getCurrentUser()] *)
Definition getCurrentUser (base : string) (fetch : Request -> Response)
    (window : option Browser) : Called J :=
  api_fixed "Failed to get user" base fetch window "/auth/me"
            (api_options None None).

(** [login(username, password)]: a plain [fetch], without [fetchWithAuth].
    [credentials] is [JSON.stringify({ username, password })]. *)
Definition login (base : string) (fetch : Request -> Response)
    (credentials : string) : Request * result J :=
  let request :=
    {| req_url := base ++ "/auth/login/json";
       req_init := {| method := Some "POST";
                      body := Some credentials;
                      headers := [("Content-Type", "application/json")] |} |} in
  let response := fetch request in
  (request,
   if response_ok response then json response
   else match json response with
        | ok error =>
            throw (match detail error with
                   | Some d => d
                   | None => "Login failed"
                   end)
        | throw e => throw e
        end).

End Wrappers.

End ApiCalls.

(** ** Authentication: the [AuthProvider] context, the login page, the OAuth
    callback page and the home page *)

Module Auth.
Import JS Api.

(** [interface User] and its nested client. *)
Record UserClient := {
  uc_id : Z;
  uc_name : string;
  slug : string;
  uc_brand_name : string;
  primary_color : string
}.

Record User := {
  user_id : Z;
  email : string;
  username : string;
  full_name : option string;
  client_id : Z;
  is_admin : bool;
  is_superadmin : bool;
  user_client : UserClient
}.

(** The parsed bodies the authentication code reads: a user, or the login
    answer with its [access_token]; an error body may carry a [detail]. *)
Inductive Body :=
| user_body (u : User)
| token_body (access_token : string)
| error_body (detail : option string).

Definition body_detail (b : Body) : option string :=
  match b with
  | error_body (Some d) => if truthy_string d then Some d else None
  | _ => None
  end.

(** [user.is_superadmin] read off a parsed body (falsy when absent). *)
Definition body_is_superadmin (b : Body) : bool :=
  match b with
  | user_body u => is_superadmin u
  | _ => false
  end.

(** What the authentication code acts on: the browser, the routes pushed with
    [router.push], the requests handed to [fetch], and the state of the
    [AuthProvider] ([user] holds whatever body [getCurrentUser] resolved
    with). *)
Record World := {
  browser : Browser;
  pushed : list string;
  fetched : list Request;
  user : option Body;
  loading : bool
}.

Definition with_browser (b : Browser) (w : World) : World :=
  {| browser := b; pushed := pushed w; fetched := fetched w;
     user := user w; loading := loading w |}.

Definition push (route : string) (w : World) : World :=
  {| browser := browser w; pushed := (pushed w ++ [route])%list;
     fetched := fetched w; user := user w; loading := loading w |}.

Definition log_request (r : Request) (w : World) : World :=
  {| browser := browser w; pushed := pushed w;
     fetched := (fetched w ++ [r])%list; user := user w;
     loading := loading w |}.

Definition set_user (u : option Body) (w : World) : World :=
  {| browser := browser w; pushed := pushed w; fetched := fetched w;
     user := u; loading := loading w |}.

Definition set_loading (l : bool) (w : World) : World :=
  {| browser := browser w; pushed := pushed w; fetched := fetched w;
     user := user w; loading := l |}.

(** [localStorage.setItem(k, v)] and [localStorage.removeItem(k)]. *)
Definition setItem (k v : string) (b : Browser) : Browser :=
  {| localStorage := dict_set k v (localStorage b);
     location_href := location_href b |}.

Definition removeItem (k : string) (b : Browser) : Browser :=
  {| localStorage := dict_remove k (localStorage b);
     location_href := location_href b |}.

Section Flows.

(** The environment: the API base, the network, and [response.json()]. *)
Variable base : string.
Variable fetch : Request -> Response.
Variable json : Response -> result Body.

(** [getCurrentUser()] run in the browser of [w]: the request is logged and
    the browser is the one [fetchWithAuth] leaves. *)
Definition call_getCurrentUser (w : World) : World * result Body :=
  let c := ApiCalls.getCurrentUser Body json base fetch (Some (browser w)) in
  let b := match ApiCalls.c_window c with
           | Some b => b
           | None => browser w
           end in
  (with_browser b (log_request (ApiCalls.c_sent c) w), ApiCalls.c_outcome c).

(** [loadUser] of the [AuthProvider]: on any failure both storage entries are
    removed; [loading] ends false. *)
Definition loadUser (w : World) : World :=
  let (w1, outcome) := call_getCurrentUser w in
  let w2 :=
    match outcome with
    | ok userData => set_user (Some userData) w1
    | throw _ =>
        with_browser (removeItem "user" (removeItem "token" (browser w1))) w1
    end in
  set_loading false w2.

(** The effect of the [AuthProvider] on mount. *)
Definition mount (w : World) : World :=
  match dict_get "token" (localStorage (browser w)) with
  | Some t => if truthy_string t then loadUser w else set_loading false w
  | None => set_loading false w
  end.

(** [login(username, password)] of the [AuthProvider]; a failed API login
    rejects before anything else happens. *)
Definition login (credentials : string) (w : World) : World * result unit :=
  let (request, outcome) :=
    ApiCalls.login Body json body_detail base fetch credentials in
  let w1 := log_request request w in
  match outcome with
  | throw e => (w1, throw e)
  | ok response =>
      let access_token :=
        match response with
        | token_body t => t
        | _ => "undefined"
        end in
      let w2 := with_browser (setItem "token" access_token (browser w1)) w1 in
      (push "/dashboard" (loadUser w2), ok tt)
  end.

(** [logout()] of the [AuthProvider]. *)
Definition logout (w : World) : World :=
  push "/login"
    (set_user None
       (with_browser (removeItem "user" (removeItem "token" (browser w))) w)).

(** The effect of the home page: to the dashboard with a token, to the login
    page without. *)
Definition Home (w : World) : World :=
  match dict_get "token" (localStorage (browser w)) with
  | Some t => if truthy_string t then push "/dashboard" w else push "/login" w
  | None => push "/login" w
  end.

(** *** OAuth callback page *)

Inductive CallbackStatus := cb_loading | cb_success | cb_error.

Record Callback := {
  cb_status : CallbackStatus;
  cb_message : string
}.

(** [handleCallback] with the URL parameters [token], [provider] and
    [error]; the redirect scheduled on success is recorded as a push. *)
Definition handleCallback (token provider error : option string) (w : World)
  : World * Callback :=
  let truthy := fun o => match o with
                         | Some s => truthy_string s
                         | None => false
                         end in
  if truthy error then
    (w, {| cb_status := cb_error;
           cb_message :=
             if match error with
                | Some e => String.eqb e "no_account"
                | None => false
                end
             then "No account found with this email. Please sign up first."
             else "Authentication failed. Please try again." |})
  else
    match token with
    | Some t =>
        if truthy_string t then
          let w1 := with_browser (setItem "token" t (browser w)) w in
          let (w2, outcome) := call_getCurrentUser w1 in
          match outcome with
          | ok body =>
              (push (if body_is_superadmin body then "/admin"
                     else "/dashboard") w2,
               {| cb_status := cb_success;
                  cb_message :=
                    "Welcome back! Signed in with "
                    ++ (if match provider with
                           | Some p => String.eqb p "google"
                           | None => false
                           end then "Google" else "Microsoft")
                    ++ "." |})
          | throw _ =>
              (with_browser (removeItem "token" (browser w2)) w2,
               {| cb_status := cb_error;
                  cb_message :=
                    "Failed to verify authentication. Please try again." |})
          end
        else
          (w, {| cb_status := cb_error;
                 cb_message := "No authentication token received." |})
    | None =>
        (w, {| cb_status := cb_error;
               cb_message := "No authentication token received." |})
    end.

(** *** Login page *)

Record LoginForm := {
  lf_error : string;
  lf_loading : bool
}.

(** [handleSubmit] of the login page: API login, store the token, fetch the
    user, route by [is_superadmin]; any failure ends in [setError]. *)
Definition handleSubmit (credentials : string) (w : World)
  : World * LoginForm :=
  let (request, outcome) :=
    ApiCalls.login Body json body_detail base fetch credentials in
  let w1 := log_request request w in
  match outcome with
  | throw e => (w1, {| lf_error := e; lf_loading := false |})
  | ok response =>
      let access_token :=
        match response with
        | token_body t => t
        | _ => "undefined"
        end in
      let w2 := with_browser (setItem "token" access_token (browser w1)) w1 in
      let (w3, checked) := call_getCurrentUser w2 in
      match checked with
      | ok body =>
          (push (if body_is_superadmin body then "/admin" else "/dashboard") w3,
           {| lf_error := ""; lf_loading := false |})
      | throw e => (w3, {| lf_error := e; lf_loading := false |})
      end
  end.

End Flows.

End Auth.

(** The requests of the authentication flows, as they go out. *)

Module AuthRequests.
Import JS Api.

(** The request [getCurrentUser()] hands to [fetch] when the browser holds
    the stored token [token] (none for [None]). *)
Definition me_request (base : string) (token : option string) : Request :=
  {| req_url := base ++ "/auth/me";
     req_init :=
       {| method := None; body := None;
          headers :=
            match token with
            | Some t => [("Content-Type", "application/json");
                         ("Authorization", "Bearer " ++ t)]
            | None => [("Content-Type", "application/json")]
            end |} |}.

(** The request [login(username, password)] hands to [fetch]. *)
Definition login_request (base credentials : string) : Request :=
  {| req_url := base ++ "/auth/login/json";
     req_init := {| method := Some "POST";
                    body := Some credentials;
                    headers := [("Content-Type", "application/json")] |} |}.

(** The last route pushed. *)
Definition last_pushed (w : Auth.World) : option string :=
  List.last (map Some (Auth.pushed w)) None.

End AuthRequests.

(** Truthiness of an optional URL parameter ([null] and [''] are falsy). *)

Module Params.

Definition truthy_param (o : option string) : bool :=
  match o with
  | Some s => JS.truthy_string s
  | None => false
  end.

End Params.

(** ** Generator page: the page as the user drives it

    Every handler of the page awaits one request. Between a request and its
    answer anything else can happen: the interval fires every two seconds
    whether or not an earlier status request is still in flight, and the
    user can click. A handler is therefore taken in two halves, up to its
    [await] and after it. *)

Module GeneratorFlow.
Import JS GeneratorPage.

(** The page together with the requests whose answers it still awaits. After
    its [await] no callback reads a variable of its own, so the requests of
    one kind need not be told apart: a count suffices. *)
Record Page := {
  page : State;
  awaiting_status : nat;
  awaiting_predefined : nat;
  awaiting_custom : nat;
  awaiting_runs : nat
}.

(** The state after the first render: [useState] defaults, with the client
    that [loadData] loaded (or [null] when loading failed). *)
Definition initial (c : option Client) (runs : list QueryRun) : Page :=
  {| page :=
       {| client := c; customQueries := []; queryRuns := runs;
          running := false; activeRunId := null; progress := number_of_Z 0;
          interval := None; calls := [] |};
     awaiting_status := 0; awaiting_predefined := 0; awaiting_custom := 0;
     awaiting_runs := 0 |}.

(** [disabled={running || predefinedQueries.length === 0}] *)
Definition predefined_disabled (predefinedQueries : nat) (s : State) : bool :=
  running s || (predefinedQueries =? 0)%nat.

(** [disabled={running || !customQueries.trim()}] *)
Definition custom_disabled (s : State) : bool :=
  running s || negb (nonempty (trim (customQueries s))).

(** [handleRunPredefined] up to [await runPredefinedQueries()]; [None] when
    it returns before. *)
Definition beginRunPredefined (s : State) : option State :=
  match client s with
  | None => None
  | Some _ =>
      Some (call runPredefinedQueries
              (set_progress (number_of_Z 0) (set_running true s)))
  end.

(** [handleRunPredefined] after the [await]. *)
Definition finishRunPredefined (answer : result QueryRun) (s : State)
  : State :=
  match answer with
  | ok run => setActiveRunId (value (id run)) s
  | throw _ => set_running false s
  end.

(** [handleRunCustom] up to [await createQueryRun(...)]. *)
Definition beginRunCustom (now : string) (s : State) : option State :=
  match client s with
  | None => None
  | Some c =>
      if negb (nonempty (trim (customQueries s))) then None
      else
        let queries := custom_queries (customQueries s) in
        if (List.length queries =? 0)%nat then None
        else
          Some (call (createQueryRun (custom_run c now queries))
                  (set_progress (number_of_Z 0) (set_running true s)))
  end.

(** [handleRunCustom] after the [await]. *)
Definition finishRunCustom (answer : result QueryRun) (s : State) : State :=
  match answer with
  | ok run => set_customQueries [] (setActiveRunId (value (id run)) s)
  | throw _ => set_running false s
  end.

(** The interval callback up to [await getQueryRunStatus(activeRunId)];
    without a live interval nothing fires. *)
Definition beginTick (s : State) : option State :=
  match interval s with
  | None => None
  | Some runId => Some (call (getQueryRunStatus runId) s)
  end.

(** The interval callback after the [await]; the flag tells whether
    [loadQueryRuns] was called, which sends its request at once. *)
Definition finishTick (answer : result QueryRun) (s : State)
  : State * bool :=
  match answer with
  | throw _ => (s, false)
  | ok st =>
      let s :=
        set_progress
          (progress_percent (completed_queries st) (total_queries st)) s in
      if is_terminal (status st) then
        (call (getQueryRuns 10) (set_running false (setActiveRunId null s)),
         true)
      else (s, false)
  end.

(** [loadQueryRuns] after [await getQueryRuns(10)]. *)
Definition finishLoadQueryRuns (answer : result (list QueryRun)) (s : State)
  : State :=
  match answer with
  | ok runs => set_queryRuns runs s
  | throw _ => s
  end.

(** What can happen on the page: typing into the text area (which is
    [disabled={running}]), a click on one of the two run buttons (a disabled
    button does not fire) or on Refresh, a firing of the polling interval,
    and the arrival of the answer to a request in flight. *)
Inductive Event :=
| type_text (t : text)
| click_predefined (predefinedQueries : nat)
| predefined_settles (answer : result QueryRun)
| click_custom (now : string)
| custom_settles (answer : result QueryRun)
| interval_fires
| status_settles (answer : result QueryRun)
| click_refresh
| runs_settle (answer : result (list QueryRun)).

Definition handle (s : Page) (e : Event) : Page :=
  match e with
  | type_text t =>
      if running (page s) then s
      else
        {| page := set_customQueries t (page s);
           awaiting_status := awaiting_status s;
           awaiting_predefined := awaiting_predefined s;
           awaiting_custom := awaiting_custom s;
           awaiting_runs := awaiting_runs s |}
  | click_predefined n =>
      if predefined_disabled n (page s) then s
      else
        match beginRunPredefined (page s) with
        | None => s
        | Some p =>
            {| page := p;
               awaiting_status := awaiting_status s;
               awaiting_predefined := S (awaiting_predefined s);
               awaiting_custom := awaiting_custom s;
               awaiting_runs := awaiting_runs s |}
        end
  | predefined_settles answer =>
      match awaiting_predefined s with
      | O => s
      | S n =>
          {| page := finishRunPredefined answer (page s);
             awaiting_status := awaiting_status s;
             awaiting_predefined := n;
             awaiting_custom := awaiting_custom s;
             awaiting_runs := awaiting_runs s |}
      end
  | click_custom now =>
      if custom_disabled (page s) then s
      else
        match beginRunCustom now (page s) with
        | None => s
        | Some p =>
            {| page := p;
               awaiting_status := awaiting_status s;
               awaiting_predefined := awaiting_predefined s;
               awaiting_custom := S (awaiting_custom s);
               awaiting_runs := awaiting_runs s |}
        end
  | custom_settles answer =>
      match awaiting_custom s with
      | O => s
      | S n =>
          {| page := finishRunCustom answer (page s);
             awaiting_status := awaiting_status s;
             awaiting_predefined := awaiting_predefined s;
             awaiting_custom := n;
             awaiting_runs := awaiting_runs s |}
      end
  | interval_fires =>
      match beginTick (page s) with
      | None => s
      | Some p =>
          {| page := p;
             awaiting_status := S (awaiting_status s);
             awaiting_predefined := awaiting_predefined s;
             awaiting_custom := awaiting_custom s;
             awaiting_runs := awaiting_runs s |}
      end
  | status_settles answer =>
      match awaiting_status s with
      | O => s
      | S n =>
          {| page := fst (finishTick answer (page s));
             awaiting_status := n;
             awaiting_predefined := awaiting_predefined s;
             awaiting_custom := awaiting_custom s;
             awaiting_runs :=
               if snd (finishTick answer (page s))
               then S (awaiting_runs s) else awaiting_runs s |}
      end
  | click_refresh =>
      {| page := call (getQueryRuns 10) (page s);
         awaiting_status := awaiting_status s;
         awaiting_predefined := awaiting_predefined s;
         awaiting_custom := awaiting_custom s;
         awaiting_runs := S (awaiting_runs s) |}
  | runs_settle answer =>
      match awaiting_runs s with
      | O => s
      | S n =>
          {| page := finishLoadQueryRuns answer (page s);
             awaiting_status := awaiting_status s;
             awaiting_predefined := awaiting_predefined s;
             awaiting_custom := awaiting_custom s;
             awaiting_runs := n |}
      end
  end.

Definition run (s : Page) (events : list Event) : Page :=
  fold_left handle events s.

(** The events of polling: a firing of the interval and the arrival of an
    answer to a status request or to a reload of the runs table. *)
Definition poll_event (e : Event) : bool :=
  match e with
  | interval_fires | status_settles _ | runs_settle _ => true
  | _ => false
  end.

(** The number of firings among the events. *)
Definition fired (events : list Event) : nat :=
  List.length (filter (fun e => match e with
                                | interval_fires => true
                                | _ => false
                                end) events).

(** A status answer that reports a terminal status. *)
Definition settles_terminal (e : Event) : bool :=
  match e with
  | status_settles answer => observed_terminal answer
  | _ => false
  end.

(** The ids of the runs the server reported as created. *)
Definition created_id (e : Event) : list Z :=
  match e with
  | predefined_settles (ok run) => [id run]
  | custom_settles (ok run) => [id run]
  | _ => []
  end.

Definition created_ids (events : list Event) : list Z :=
  flat_map created_id events.

(** The timer is the one of the active run. *)
Definition timer_consistent (s : State) : Prop :=
  interval s = polling_effect (activeRunId s).

(** The runs the page asks about, and the one its timer is for, are among
    the given ids. *)
Definition polls_only (ids : list Z) (s : State) : Prop :=
  (forall r, In (getQueryRunStatus r) (calls s) -> In r ids) /\
  (forall r, interval s = Some r -> In r ids).

(** The page polls [runId]. *)
Definition polling (runId : Z) (s : State) : Prop :=
  interval s = Some runId /\ activeRunId s = value runId.

(** The page is idle. *)
Definition idle (s : State) : Prop :=
  interval s = None /\ activeRunId s = null /\ running s = false.

End GeneratorFlow.

(** ** Gaps page: expanding rows *)

Module GapsPageUI.
Import JS.

(** A JavaScript [Set]: its members in insertion order, each once. *)
Section JSSet.
Variable A : Type.
Variable eqb : A -> A -> bool.

(** [s.has(x)] *)
Definition set_has (x : A) (s : list A) : bool := existsb (eqb x) s.

(** [s.add(x)] *)
Definition set_add (x : A) (s : list A) : list A :=
  if set_has x s then s else (s ++ [x])%list.

(** [s.delete(x)] *)
Definition set_delete (x : A) (s : list A) : list A :=
  filter (fun y => negb (eqb x y)) s.

(** The toggle both handlers perform on a copy of the set:
    [if (newExpanded.has(k)) newExpanded.delete(k) else newExpanded.add(k)]. *)
Definition set_toggle (x : A) (s : list A) : list A :=
  if set_has x s then set_delete x s else set_add x s.

End JSSet.

(** [toggleGap(index)] on [expandedGaps : Set<number>]. *)
Definition toggleGap (index : Z) (expandedGaps : list Z) : list Z :=
  set_toggle Z Z.eqb index expandedGaps.

(** The key [`${gapIndex}-${responseIndex}`]. *)
Definition response_key (gapIndex responseIndex : Z) : string :=
  show_number gapIndex ++ "-" ++ show_number responseIndex.

(** [toggleResponse(gapIndex, responseIndex)] on
    [expandedResponses : Set<string>]. *)
Definition toggleResponse (gapIndex responseIndex : Z)
    (expandedResponses : list string) : list string :=
  set_toggle string String.eqb (response_key gapIndex responseIndex)
             expandedResponses.

(** [isResponseExpanded(gapIndex, responseIndex)] *)
Definition isResponseExpanded (gapIndex responseIndex : Z)
    (expandedResponses : list string) : bool :=
  set_has string String.eqb (response_key gapIndex responseIndex)
          expandedResponses.

End GapsPageUI.

(** ** Competitors page: what is derived from the leaderboard *)

Module CompetitorsPageUI.
Import JS CompetitorsPage.

(** [const brandData = sortedComparison.find(c => c.is_brand)] *)
Definition brandData (analysis : option CompetitorAnalysis)
  : option CompetitorData :=
  find is_brand (sortedComparison analysis).

(** [const competitorData = sortedComparison.filter(c => !c.is_brand)] *)
Definition competitorData (analysis : option CompetitorAnalysis)
  : list CompetitorData :=
  filter (fun c => negb (is_brand c)) (sortedComparison analysis).

(** The rank shown in the table row with the given index: [#{index + 1}]. *)
Definition rank (index : nat) : nat := index + 1.

(** [const BAR_COLORS = [...]] *)
Definition BAR_COLORS : list string :=
  ["#EB593B"; "#10b981"; "#1F7AFC"; "#f59e0b"; "#8b5cf6"; "#ec4899"].

(** [BAR_COLORS[index % BAR_COLORS.length]], [undefined] out of range. *)
Definition bar_color (index : nat) : option string :=
  nth_error BAR_COLORS (index mod List.length BAR_COLORS).

(** The chart defines one gradient [barGrad<index>] per leaderboard row. *)
Definition defined_gradients (rows : list CompetitorData) : list nat :=
  seq 0 (List.length rows).

(** The gradient a bar is filled with:
    [entry.is_brand ? 'url(#barGrad0)'
                    : `url(#barGrad${(index % BAR_COLORS.length) || 1})`]. *)
Definition cell_gradient (entry : CompetitorData) (index : nat) : nat :=
  if is_brand entry then 0
  else match index mod List.length BAR_COLORS with
       | 0 => 1
       | k => k
       end.

End CompetitorsPageUI.

(** ** Operations on texts *)

Module TextOps.
Import JS.

(** A string literal of the source as a text: its code units. *)
Fixpoint of_string (s : string) : text :=
  match s with
  | EmptyString => []
  | String a r => N_of_ascii a :: of_string r
  end.

(** [a === b] on texts. *)
Definition text_eqb (a b : text) : bool :=
  (List.length a =? List.length b)%nat
  && forallb (fun p => (fst p =? snd p)%N) (combine a b).

(** [s.startsWith(pattern)] *)
Fixpoint starts_with (pattern s : text) : bool :=
  match pattern, s with
  | [], _ => true
  | _ :: _, [] => false
  | a :: pattern', c :: s' => (a =? c)%N && starts_with pattern' s'
  end.

(** The first occurrence of [pattern] in [s]: what precedes it and what
    follows it. *)
Fixpoint find_first (pattern s : text) : option (text * text) :=
  if starts_with pattern s then Some ([], skipn (List.length pattern) s)
  else match s with
       | [] => None
       | c :: r =>
           match find_first pattern r with
           | Some (before, after) => Some (c :: before, after)
           | None => None
           end
       end.

(** The replacement text of [replace] for a string pattern (GetSubstitution
    without captures): [$$] is a dollar sign, [$&] the matched text, [$`]
    what precedes the match and [$'] what follows it; any other dollar sign
    stands for itself. *)
Fixpoint substitution (matched before after template : text) : text :=
  match template with
  | [] => []
  | c :: r =>
      if (c =? 36)%N then
        match r with
        | [] => [c]
        | d :: r' =>
            if (d =? 36)%N then
              36%N :: substitution matched before after r'
            else if (d =? 38)%N then
              (matched ++ substitution matched before after r')%list
            else if (d =? 96)%N then
              (before ++ substitution matched before after r')%list
            else if (d =? 39)%N then
              (after ++ substitution matched before after r')%list
            else c :: substitution matched before after r
        end
      else c :: substitution matched before after r
  end.

(** [s.replace(pattern, replacement)] with a string pattern: the first
    occurrence only. *)
Definition replace (pattern replacement s : text) : text :=
  match find_first pattern s with
  | Some (before, after) =>
      (before ++ substitution pattern before after replacement ++ after)%list
  | None => s
  end.

(** [a || b] on texts. *)
Definition or_else (a b : text) : text := if nonempty a then a else b.

(** [l.map((x, i) => f(x, i))] and [l.filter((x, i) => f(x, i))]: the
    callbacks that also take the index. *)
Definition map_indexed {A B : Type} (f : A -> nat -> B) (l : list A)
  : list B :=
  map (fun p => f (snd p) (fst p)) (combine (seq 0 (List.length l)) l).

Definition filter_indexed {A : Type} (f : A -> nat -> bool) (l : list A)
  : list A :=
  map snd
    (filter (fun p => f (snd p) (fst p)) (combine (seq 0 (List.length l)) l)).

End TextOps.


(** ** Settings page: competitors and account deletion *)

Module SettingsPage.
Import JS TextOps.

(** [interface Competitor] *)
Record Competitor := {
  id : Z;
  name : text;
  aliases : option text;
  website : option text
}.

(** The competitor form state, [{ name, aliases, website }]. *)
Record CompetitorForm := {
  form_name : text;
  form_aliases : text;
  form_website : text
}.

Definition empty_form : CompetitorForm :=
  {| form_name := []; form_aliases := []; form_website := [] |}.

(** The [data] argument of [addCompetitor] and [updateCompetitor]:
    [{ name: string; aliases?: string; website?: string }]. *)
Record CompetitorData := {
  data_name : text;
  data_aliases : option text;
  data_website : option text
}.

(** The API calls of these handlers. *)
Inductive Call :=
| addCompetitor (clientId : Z) (data : CompetitorData)
| updateCompetitor (clientId competitorId : Z) (data : CompetitorData)
| deleteCompetitor (clientId competitorId : Z)
| deleteAccount (password confirmText : text).

(** The part of the component state these handlers use, the browser, the
    routes pushed and the API calls made. *)
Record State := {
  client : option Z;
  competitors : list Competitor;
  newCompetitor : CompetitorForm;
  addingCompetitor : bool;
  editingCompetitorId : option Z;
  editingCompetitor : CompetitorForm;
  deletePassword : text;
  deleteConfirmText : text;
  deleteLoading : bool;
  deleteError : string;
  browser : Api.Browser;
  pushed : list string;
  calls : list Call
}.

(** [x.trim() || undefined] *)
Definition trimmed_or_undefined (x : text) : option text :=
  if nonempty (trim x) then Some (trim x) else None.

(** The object the add and update handlers build from a form. *)
Definition data_of_form (f : CompetitorForm) : CompetitorData :=
  {| data_name := trim (form_name f);
     data_aliases := trimmed_or_undefined (form_aliases f);
     data_website := trimmed_or_undefined (form_website f) |}.

Definition with_competitors (l : list Competitor) (s : State) : State :=
  {| client := client s; competitors := l;
     newCompetitor := newCompetitor s; addingCompetitor := addingCompetitor s;
     editingCompetitorId := editingCompetitorId s;
     editingCompetitor := editingCompetitor s;
     deletePassword := deletePassword s;
     deleteConfirmText := deleteConfirmText s;
     deleteLoading := deleteLoading s; deleteError := deleteError s;
     browser := browser s; pushed := pushed s; calls := calls s |}.

Definition with_newCompetitor (f : CompetitorForm) (s : State) : State :=
  {| client := client s; competitors := competitors s;
     newCompetitor := f; addingCompetitor := addingCompetitor s;
     editingCompetitorId := editingCompetitorId s;
     editingCompetitor := editingCompetitor s;
     deletePassword := deletePassword s;
     deleteConfirmText := deleteConfirmText s;
     deleteLoading := deleteLoading s; deleteError := deleteError s;
     browser := browser s; pushed := pushed s; calls := calls s |}.

Definition with_adding (b : bool) (s : State) : State :=
  {| client := client s; competitors := competitors s;
     newCompetitor := newCompetitor s; addingCompetitor := b;
     editingCompetitorId := editingCompetitorId s;
     editingCompetitor := editingCompetitor s;
     deletePassword := deletePassword s;
     deleteConfirmText := deleteConfirmText s;
     deleteLoading := deleteLoading s; deleteError := deleteError s;
     browser := browser s; pushed := pushed s; calls := calls s |}.

Definition with_editing (i : option Z) (f : CompetitorForm) (s : State)
  : State :=
  {| client := client s; competitors := competitors s;
     newCompetitor := newCompetitor s; addingCompetitor := addingCompetitor s;
     editingCompetitorId := i; editingCompetitor := f;
     deletePassword := deletePassword s;
     deleteConfirmText := deleteConfirmText s;
     deleteLoading := deleteLoading s; deleteError := deleteError s;
     browser := browser s; pushed := pushed s; calls := calls s |}.

Definition with_delete (loading : bool) (error : string) (s : State) : State :=
  {| client := client s; competitors := competitors s;
     newCompetitor := newCompetitor s; addingCompetitor := addingCompetitor s;
     editingCompetitorId := editingCompetitorId s;
     editingCompetitor := editingCompetitor s;
     deletePassword := deletePassword s;
     deleteConfirmText := deleteConfirmText s;
     deleteLoading := loading; deleteError := error;
     browser := browser s; pushed := pushed s; calls := calls s |}.

Definition with_browser (b : Api.Browser) (route : string) (s : State)
  : State :=
  {| client := client s; competitors := competitors s;
     newCompetitor := newCompetitor s; addingCompetitor := addingCompetitor s;
     editingCompetitorId := editingCompetitorId s;
     editingCompetitor := editingCompetitor s;
     deletePassword := deletePassword s;
     deleteConfirmText := deleteConfirmText s;
     deleteLoading := deleteLoading s; deleteError := deleteError s;
     browser := b; pushed := (pushed s ++ [route])%list; calls := calls s |}.

Definition call (c : Call) (s : State) : State :=
  {| client := client s; competitors := competitors s;
     newCompetitor := newCompetitor s; addingCompetitor := addingCompetitor s;
     editingCompetitorId := editingCompetitorId s;
     editingCompetitor := editingCompetitor s;
     deletePassword := deletePassword s;
     deleteConfirmText := deleteConfirmText s;
     deleteLoading := deleteLoading s; deleteError := deleteError s;
     browser := browser s; pushed := pushed s;
     calls := (calls s ++ [c])%list |}.

(** [handleAddCompetitor]; [answer] is what [addCompetitor] settles with. *)
Definition handleAddCompetitor (answer : result Competitor) (s : State)
  : State :=
  match client s with
  | None => s
  | Some clientId =>
      if negb (nonempty (trim (form_name (newCompetitor s)))) then s
      else
        let s1 :=
          call (addCompetitor clientId (data_of_form (newCompetitor s)))
               (with_adding true s) in
        let s2 :=
          match answer with
          | ok added =>
              with_newCompetitor empty_form
                (with_competitors (competitors s ++ [added])%list s1)
          | throw _ => s1
          end in
        with_adding false s2
  end.

(** [startEditingCompetitor(competitor)] *)
Definition startEditingCompetitor (c : Competitor) (s : State) : State :=
  with_editing (Some (id c))
    {| form_name := name c;
       form_aliases := match aliases c with
                       | Some a => a
                       | None => []
                       end;
       form_website := match website c with
                       | Some w => w
                       | None => []
                       end |} s.

(** [handleUpdateCompetitor(competitorId)] *)
Definition handleUpdateCompetitor (competitorId : Z)
    (answer : result Competitor) (s : State) : State :=
  match client s with
  | None => s
  | Some clientId =>
      if negb (nonempty (trim (form_name (editingCompetitor s)))) then s
      else
        let s1 :=
          call (updateCompetitor clientId competitorId
                  (data_of_form (editingCompetitor s))) s in
        match answer with
        | ok updated =>
            with_editing None empty_form
              (with_competitors
                 (map (fun c => if (id c =? competitorId)%Z then updated else c)
                      (competitors s)) s1)
        | throw _ => s1
        end
  end.

(** [handleDeleteCompetitor(competitorId)]; [confirmed] is the answer to the
    [confirm] dialog. *)
Definition handleDeleteCompetitor (competitorId : Z) (confirmed : bool)
    (answer : result unit) (s : State) : State :=
  match client s with
  | None => s
  | Some clientId =>
      if negb confirmed then s
      else
        let s1 := call (deleteCompetitor clientId competitorId) s in
        match answer with
        | ok _ =>
            with_competitors
              (filter (fun c => negb (id c =? competitorId)%Z) (competitors s))
              s1
        | throw _ => s1
        end
  end.

(** The text ['DELETE']. *)
Definition DELETE : text := [68; 69; 76; 69; 84; 69]%N.

Definition set_browser (b : Api.Browser) (s : State) : State :=
  {| client := client s; competitors := competitors s;
     newCompetitor := newCompetitor s; addingCompetitor := addingCompetitor s;
     editingCompetitorId := editingCompetitorId s;
     editingCompetitor := editingCompetitor s;
     deletePassword := deletePassword s;
     deleteConfirmText := deleteConfirmText s;
     deleteLoading := deleteLoading s; deleteError := deleteError s;
     browser := b; pushed := pushed s; calls := calls s |}.

Section DeleteAccount.

(** [response.json()] and [error.detail], as for the wrappers of
    [lib/api.ts]; [stringify password confirmText] is
    [JSON.stringify({ password, confirm_text: confirmText })]. *)
Variable J : Type.
Variable json : Api.Response -> result J.
Variable detail : J -> option string.
Variable stringify : text -> text -> string.

(** [deleteAccount(password, confirmText)] of [lib/api.ts]: it goes through
    [fetchWithAuth], so a 401 answer logs the browser out before the
    wrapper throws. *)
Definition call_deleteAccount (base : string)
    (fetch : Api.Request -> Api.Response) (window : option Api.Browser)
    (password confirmText : text) : ApiCalls.Called J :=
  ApiCalls.api_detail J json detail "Failed to delete account" base fetch
    window "/account/delete"
    (Api.api_options (Some "POST") (Some (stringify password confirmText))).

(** [handleDeleteAccount]; a rejection carries [error.message]. *)
Definition handleDeleteAccount (base : string)
    (fetch : Api.Request -> Api.Response) (s : State) : State :=
  if negb (text_eqb (deleteConfirmText s) DELETE) then
    with_delete (deleteLoading s) "Please type DELETE to confirm" s
  else if negb (nonempty (deletePassword s)) then
    with_delete (deleteLoading s) "Please enter your password" s
  else
    let s1 :=
      call (deleteAccount (deletePassword s) (deleteConfirmText s))
           (with_delete true "" s) in
    let c := call_deleteAccount base fetch (Some (browser s1))
               (deletePassword s) (deleteConfirmText s) in
    let s2 :=
      match ApiCalls.c_window c with
      | Some w => set_browser w s1
      | None => s1
      end in
    match ApiCalls.c_outcome c with
    | ok _ =>
        with_browser
          (Auth.removeItem "user" (Auth.removeItem "token" (browser s2)))
          "/login?deleted=true" s2
    | throw message =>
        with_delete false
          (if truthy_string message then message
           else "Failed to delete account") s2
    end.

End DeleteAccount.

End SettingsPage.

(** ** Settings page: what the handlers send *)

Module SettingsRequests.
Import JS SettingsPage.

(** A competitor payload with a non-empty name and no surrounding white
    space in any field it carries. *)
Definition clean_data (d : CompetitorData) : Prop :=
  data_name d <> [] /\ trim (data_name d) = data_name d /\
  (forall a, data_aliases d = Some a -> a <> [] /\ trim a = a) /\
  (forall w, data_website d = Some w -> w <> [] /\ trim w = w).

Definition clean_call (c : Call) : Prop :=
  match c with
  | addCompetitor _ d => clean_data d
  | updateCompetitor _ _ d => clean_data d
  | deleteCompetitor _ _ => True
  | deleteAccount password confirmText =>
      password <> [] /\ confirmText = DELETE
  end.

(** The ids of a competitor list. *)
Definition ids (l : list Competitor) : list Z := map id l.

End SettingsRequests.

(** ** The run selector in use: the dropdown and the filter buttons *)

Module RunSelectorUI.
Import JS RunSelector.

(** [<option value={run.id}>]: the value attribute is the id as a string. *)
Definition option_value (r : QueryRun) : string := to_string (id r).

Definition with_selection (sel : Nullable intnum) (s : State) : State :=
  {| queryRuns := queryRuns s;
     selectedRunId := sel;
     loading := loading s;
     brandName := brandName s;
     brandedFilter := brandedFilter s;
     requests := requests s |}.

Definition with_filter (f : Api.BrandedFilter) (s : State) : State :=
  {| queryRuns := queryRuns s;
     selectedRunId := selectedRunId s;
     loading := loading s;
     brandName := brandName s;
     brandedFilter := f;
     requests := requests s |}.

Definition same_filter (a b : Api.BrandedFilter) : bool :=
  match a, b with
  | Api.all, Api.all => true
  | Api.branded, Api.branded => true
  | Api.non_branded, Api.non_branded => true
  | _, _ => false
  end.

(** [onChange={(e) => setSelectedRunId(parseInt(e.target.value))}], and the
    effect on [[selectedRunId, brandedFilter]] when the selection changed. *)
Definition onChange (p : Page) (target_value : string) (s : State) : State :=
  let selected := value (parseInt target_value) in
  let s' := with_selection selected s in
  if same_selection (selectedRunId s) selected then s'
  else analysis_effect p s'.

(** [onClick={() => setBrandedFilter(f)}], and the same effect. *)
Definition setBrandedFilter (p : Page) (f : Api.BrandedFilter) (s : State)
  : State :=
  let s' := with_filter f s in
  if same_filter (brandedFilter s) f then s' else analysis_effect p s'.

(** What a user can do with the selector: choose the [n]-th option of the
    dropdown, or click one of the three filter buttons. *)
Inductive Event :=
| choose (n : nat)
| click_filter (f : Api.BrandedFilter).

Definition handle (p : Page) (s : State) (e : Event) : State :=
  match e with
  | choose n =>
      match nth_error (queryRuns s) n with
      | Some r => onChange p (option_value r) s
      | None => s
      end
  | click_filter f => setBrandedFilter p f s
  end.

Definition run (p : Page) (es : list Event) (s : State) : State :=
  fold_left (handle p) es s.

(** [url] is one of the requests [loadAnalysis] makes for a run whose id
    satisfies [allowed]. *)
Definition targets (p : Page) (allowed : intnum -> Prop) (url : string)
  : Prop :=
  exists z f, allowed z /\ In url (loadAnalysis p z f).

(** The runs a page may ask about: the one named in the URL, and the
    completed runs among those the server listed. *)
Definition allowed_run (run : option string) (runs : list QueryRun)
    (z : intnum) : Prop :=
  truthy_selection (initial_selectedRunId run) = Some z \/
  exists r, In r runs /\ is_completed r = true /\ Int (id r) = z.

(** The selector's invariant. *)
Definition selector_invariant (p : Page) (run : option string)
    (runs : list QueryRun) (s : State) : Prop :=
  (forall r, In r (queryRuns s) -> In r runs /\ is_completed r = true) /\
  (forall z, truthy_selection (selectedRunId s) = Some z ->
             allowed_run run runs z) /\
  exists more,
    requests s = ([Api.getQueryRuns 20 0; Api.getCurrentClient] ++ more)%list /\
    Forall (targets p (allowed_run run runs)) more.

End RunSelectorUI.

(** ** Signup page: the four-step wizard *)

Module SignupPage.
Import JS TextOps.

(** [interface Competitor] of this page. *)
Record Competitor := {
  name : text;
  website : text
}.

(** [interface FormData] *)
Record FormData := {
  email : text;
  password : text;
  confirmPassword : text;
  fullName : text;
  companyName : text;
  brandName : text;
  brandAliases : text;
  form_website : text;
  industry : text;
  competitors : list Competitor;
  queries : list text
}.

(** The text fields [updateField] is called with. *)
Inductive Field :=
| email_field | password_field | confirmPassword_field | fullName_field
| companyName_field | brandName_field | brandAliases_field | website_field
| industry_field.

(** ['name' | 'website'] *)
Inductive CompetitorField := name_field | competitor_website_field.

(** The body of the signup request. *)
Record SignupRequest := {
  r_email : text;
  r_password : text;
  r_full_name : text;
  r_company_name : text;
  r_brand_name : text;
  r_brand_aliases : text;
  r_website : text;
  r_industry : text;
  r_competitors : list Competitor;
  r_queries : list text
}.

(** The component state, the requests sent and the routes pushed. *)
Record State := {
  currentStep : Z;
  loading : bool;
  error : string;
  createdUsername : string;
  formData : FormData;
  sent : list SignupRequest;
  pushed : list string
}.

Definition initial : State :=
  {| currentStep := 1;
     loading := false;
     error := "";
     createdUsername := "";
     formData :=
       {| email := []; password := []; confirmPassword := []; fullName := [];
          companyName := []; brandName := []; brandAliases := [];
          form_website := []; industry := [];
          competitors := [{| name := []; website := [] |}];
          queries := [[]] |};
     sent := [];
     pushed := [] |}.

Definition setFormData (f : FormData -> FormData) (s : State) : State :=
  {| currentStep := currentStep s; loading := loading s; error := error s;
     createdUsername := createdUsername s; formData := f (formData s);
     sent := sent s; pushed := pushed s |}.

Definition setError (e : string) (s : State) : State :=
  {| currentStep := currentStep s; loading := loading s; error := e;
     createdUsername := createdUsername s; formData := formData s;
     sent := sent s; pushed := pushed s |}.

Definition setCurrentStep (f : Z -> Z) (s : State) : State :=
  {| currentStep := f (currentStep s); loading := loading s; error := error s;
     createdUsername := createdUsername s; formData := formData s;
     sent := sent s; pushed := pushed s |}.

Definition setLoading (b : bool) (s : State) : State :=
  {| currentStep := currentStep s; loading := b; error := error s;
     createdUsername := createdUsername s; formData := formData s;
     sent := sent s; pushed := pushed s |}.

Definition setCreatedUsername (u : string) (s : State) : State :=
  {| currentStep := currentStep s; loading := loading s; error := error s;
     createdUsername := u; formData := formData s;
     sent := sent s; pushed := pushed s |}.

Definition send (r : SignupRequest) (s : State) : State :=
  {| currentStep := currentStep s; loading := loading s; error := error s;
     createdUsername := createdUsername s; formData := formData s;
     sent := (sent s ++ [r])%list; pushed := pushed s |}.

Definition push (route : string) (s : State) : State :=
  {| currentStep := currentStep s; loading := loading s; error := error s;
     createdUsername := createdUsername s; formData := formData s;
     sent := sent s; pushed := (pushed s ++ [route])%list |}.

(** [{ ...prev, [field]: value }] *)
Definition set_field (field : Field) (v : text) (f : FormData) : FormData :=
  {| email := match field with email_field => v | _ => email f end;
     password := match field with password_field => v | _ => password f end;
     confirmPassword :=
       match field with confirmPassword_field => v
                   | _ => confirmPassword f end;
     fullName := match field with fullName_field => v | _ => fullName f end;
     companyName :=
       match field with companyName_field => v | _ => companyName f end;
     brandName := match field with brandName_field => v | _ => brandName f end;
     brandAliases :=
       match field with brandAliases_field => v | _ => brandAliases f end;
     form_website :=
       match field with website_field => v | _ => form_website f end;
     industry := match field with industry_field => v | _ => industry f end;
     competitors := competitors f;
     queries := queries f |}.

Definition set_competitors (l : list Competitor) (f : FormData) : FormData :=
  {| email := email f; password := password f;
     confirmPassword := confirmPassword f; fullName := fullName f;
     companyName := companyName f; brandName := brandName f;
     brandAliases := brandAliases f; form_website := form_website f;
     industry := industry f; competitors := l; queries := queries f |}.

Definition set_queries (l : list text) (f : FormData) : FormData :=
  {| email := email f; password := password f;
     confirmPassword := confirmPassword f; fullName := fullName f;
     companyName := companyName f; brandName := brandName f;
     brandAliases := brandAliases f; form_website := form_website f;
     industry := industry f; competitors := competitors f; queries := l |}.

(** [updateField(field, value)] *)
Definition updateField (field : Field) (v : text) (s : State) : State :=
  setError "" (setFormData (set_field field v) s).

Definition addCompetitor (s : State) : State :=
  setFormData
    (fun prev =>
       set_competitors
         (competitors prev ++ [{| name := []; website := [] |}])%list prev) s.

Definition removeCompetitor (index : nat) (s : State) : State :=
  setFormData
    (fun prev =>
       set_competitors
         (filter_indexed (fun _ i => negb (i =? index)%nat) (competitors prev))
         prev) s.

(** [{ ...comp, [field]: value }] *)
Definition set_competitor_field (field : CompetitorField) (v : text)
    (comp : Competitor) : Competitor :=
  match field with
  | name_field => {| name := v; website := website comp |}
  | competitor_website_field => {| name := name comp; website := v |}
  end.

Definition updateCompetitor (index : nat) (field : CompetitorField) (v : text)
    (s : State) : State :=
  setFormData
    (fun prev =>
       set_competitors
         (map_indexed
            (fun comp i =>
               if (i =? index)%nat then set_competitor_field field v comp
               else comp)
            (competitors prev))
         prev) s.

Definition addQuery (s : State) : State :=
  setFormData (fun prev => set_queries (queries prev ++ [[]])%list prev) s.

Definition removeQuery (index : nat) (s : State) : State :=
  setFormData
    (fun prev =>
       set_queries
         (filter_indexed (fun _ i => negb (i =? index)%nat) (queries prev))
         prev) s.

Definition updateQuery (index : nat) (v : text) (s : State) : State :=
  setFormData
    (fun prev =>
       set_queries
         (map_indexed (fun q i => if (i =? index)%nat then v else q)
                      (queries prev))
         prev) s.

Definition SAMPLE_QUERIES : list text :=
  map of_string
    ["Who is [BRAND] and what do they specialize in?";
     "Best [INDUSTRY] companies in the US";
     "[BRAND] vs [COMPETITOR] comparison";
     "Top [INDUSTRY] service providers";
     "What makes [BRAND] different from competitors?"].

(** [generateSampleQueries] *)
Definition generateSampleQueries (s : State) : State :=
  let f := formData s in
  let brand :=
    or_else (brandName f)
      (or_else (companyName f) (of_string "[Your Brand]")) in
  let industry := or_else (industry f) (of_string "[Your Industry]") in
  let competitor :=
    or_else match competitors f with
            | first :: _ => name first
            | [] => []
            end
            (of_string "[Competitor]") in
  let generated :=
    map (fun q =>
           replace (of_string "[COMPETITOR]") competitor
             (replace (of_string "[INDUSTRY]") industry
                (replace (of_string "[BRAND]") brand q)))
        SAMPLE_QUERIES in
  setFormData (fun prev => set_queries generated prev) s.

(** [validateStep(step)]: [None] when the step is valid ([return true]),
    else the error message it sets. *)
Definition validateStep (step : Z) (f : FormData) : option string :=
  if (step =? 1)%Z then
    if negb (nonempty (email f)) || negb (nonempty (password f))
       || negb (nonempty (fullName f))
    then Some "Please fill in all required fields"
    else if negb (text_eqb (password f) (confirmPassword f))
    then Some "Passwords do not match"
    else if (List.length (password f) <? 6)%nat
    then Some "Password must be at least 6 characters"
    else None
  else if (step =? 2)%Z then
    if negb (nonempty (companyName f)) || negb (nonempty (brandName f))
    then Some "Please fill in company name and brand name"
    else None
  else None.

Definition nextStep (s : State) : State :=
  match validateStep (currentStep s) (formData s) with
  | None => setCurrentStep (fun prev => Z.min (prev + 1) 4) s
  | Some e => setError e s
  end.

Definition prevStep (s : State) : State :=
  setError "" (setCurrentStep (fun prev => Z.max (prev - 1) 1) s).

(** The body [handleSubmit] sends. *)
Definition signup_body (f : FormData) : SignupRequest :=
  {| r_email := email f;
     r_password := password f;
     r_full_name := fullName f;
     r_company_name := companyName f;
     r_brand_name := brandName f;
     r_brand_aliases := brandAliases f;
     r_website := form_website f;
     r_industry := industry f;
     r_competitors :=
       filter (fun c => nonempty (trim (name c))) (competitors f);
     r_queries := filter (fun q => nonempty (trim q)) (queries f) |}.

(** [handleSubmit]; [answer] is the username of a successful signup, or the
    message of the error thrown and caught. *)
Definition handleSubmit (answer : result string) (s : State) : State :=
  let s1 := send (signup_body (formData s)) (setError "" (setLoading true s)) in
  let s2 :=
    match answer with
    | ok username => setCurrentStep (fun _ => 5%Z) (setCreatedUsername username s1)
    | throw message => setError message s1
    end in
  setLoading false s2.

(** What the page offers at each step. *)
Inductive Event :=
| type_field (field : Field) (v : text)
| type_competitor (index : nat) (field : CompetitorField) (v : text)
| click_remove_competitor (index : nat)
| click_add_competitor
| type_query (index : nat) (v : text)
| click_remove_query (index : nat)
| click_add_query
| click_generate
| click_back
| click_continue
| click_create_account (answer : result string)
| click_go_to_login.

(** The step whose form shows a field. *)
Definition step_of_field (field : Field) : Z :=
  match field with
  | email_field | password_field | confirmPassword_field | fullName_field => 1
  | _ => 2
  end.

(** Whether the element of an event is rendered and enabled. *)
Definition offered (s : State) (e : Event) : bool :=
  match e with
  | type_field field _ => (currentStep s =? step_of_field field)%Z
  | type_competitor index _ _ =>
      (currentStep s =? 3)%Z
      && (index <? List.length (competitors (formData s)))%nat
  | click_remove_competitor index =>
      (currentStep s =? 3)%Z
      && (index <? List.length (competitors (formData s)))%nat
      && (1 <? List.length (competitors (formData s)))%nat
  | click_add_competitor => (currentStep s =? 3)%Z
  | type_query index _ =>
      (currentStep s =? 4)%Z
      && (index <? List.length (queries (formData s)))%nat
  | click_remove_query index =>
      (currentStep s =? 4)%Z
      && (index <? List.length (queries (formData s)))%nat
      && (1 <? List.length (queries (formData s)))%nat
  | click_add_query => (currentStep s =? 4)%Z
  | click_generate => (currentStep s =? 4)%Z
  | click_back => (currentStep s <=? 4)%Z && (1 <? currentStep s)%Z
  | click_continue => (currentStep s <=? 4)%Z && (currentStep s <? 4)%Z
  | click_create_account _ =>
      (currentStep s <=? 4)%Z && negb (currentStep s <? 4)%Z
      && negb (loading s)
  | click_go_to_login => (currentStep s =? 5)%Z
  end.

Definition handle (s : State) (e : Event) : State :=
  if offered s e then
    match e with
    | type_field field v => updateField field v s
    | type_competitor index field v => updateCompetitor index field v s
    | click_remove_competitor index => removeCompetitor index s
    | click_add_competitor => addCompetitor s
    | type_query index v => updateQuery index v s
    | click_remove_query index => removeQuery index s
    | click_add_query => addQuery s
    | click_generate => generateSampleQueries s
    | click_back => prevStep s
    | click_continue => nextStep s
    | click_create_account answer => handleSubmit answer s
    | click_go_to_login => push "/login" s
    end
  else s.

Definition run (es : list Event) (s : State) : State := fold_left handle es s.

(** A signup request the wizard's validation accepts. *)
Definition validated (r : SignupRequest) : Prop :=
  r_email r <> [] /\ r_full_name r <> [] /\
  (6 <= List.length (r_password r))%nat /\
  r_company_name r <> [] /\ r_brand_name r <> [] /\
  Forall (fun c => blank (name c) = false) (r_competitors r) /\
  Forall (fun q => blank q = false) (r_queries r).

(** The wizard's invariant. *)
Definition wizard_invariant (s : State) : Prop :=
  (1 <= currentStep s <= 5)%Z /\
  (2 <= currentStep s <= 4 -> validateStep 1 (formData s) = None)%Z /\
  (3 <= currentStep s <= 4 -> validateStep 2 (formData s) = None)%Z /\
  competitors (formData s) <> [] /\ queries (formData s) <> [] /\
  Forall validated (sent s) /\
  (currentStep s = 5%Z -> sent s <> []).

End SignupPage.

(** ** Admin costs page: the cost bars *)

Module AdminCostsPage.
Import JS.

(** The entries of [APIUsageData.by_provider] and [daily_usage]. A number of
    a JSON text arrives as the double nearest to it: a cost is a finite
    double or, when the text has a large exponent, an infinity. *)
Record ProviderUsage := {
  provider : string;
  calls : Z;
  total_tokens : Z;
  total_cost : number
}.

Record DailyUsage := {
  date : string;
  day_calls : Z;
  cost : number
}.

(** A cost that is a double and not negative. *)
Definition cost_value (a : number) : Prop :=
  exists q, a = finite q /\ (0 <= q)%Q /\ double q.

(** A cost that is finite. *)
Definition finite_value (a : number) : Prop := exists q, a = finite q.

(** [a > 0] *)
Definition positive (a : number) : bool :=
  match a with
  | nan => false
  | infinity negative => negb negative
  | finite q => negb (Qle_bool q 0)
  end.

(** [Math.max(a, b)] and [Math.max(...l)], which is [-Infinity] for no
    argument. *)
Definition number_max (a b : number) : number :=
  match a, b with
  | nan, _ | _, nan => nan
  | infinity false, _ | _, infinity false => infinity false
  | infinity true, x => x
  | x, infinity true => x
  | finite x, finite y => finite (if Qle_bool x y then y else x)
  end.

Definition Math_max (l : list number) : number :=
  fold_left number_max l (infinity true).

(** [data.by_provider.reduce((sum, p) => sum + p.total_cost, 0)] *)
Definition totalCost (by_provider : list ProviderUsage) : number :=
  fold_left (fun sum p => number_add sum (total_cost p)) by_provider
            (finite 0).

(** [totalCost > 0 ? (provider.total_cost / totalCost) * 100 : 0], the width
    of a provider's bar. *)
Definition percentage (by_provider : list ProviderUsage) (p : ProviderUsage)
  : number :=
  let totalCost := totalCost by_provider in
  if positive totalCost then
    number_mul (number_div (total_cost p) totalCost) (finite 100)
  else finite 0.

(** [Math.max(...data.daily_usage.map(d => d.cost))] *)
Definition maxCost (daily_usage : list DailyUsage) : number :=
  Math_max (map cost daily_usage).

(** [maxCost > 0 ? (day.cost / maxCost) * 100 : 0] and the height of the
    day's bar, [Math.max(height, 2)]. *)
Definition height (daily_usage : list DailyUsage) (day : DailyUsage)
  : number :=
  if positive (maxCost daily_usage) then
    number_mul (number_div (cost day) (maxCost daily_usage)) (finite 100)
  else finite 0.

Definition bar_height (daily_usage : list DailyUsage) (day : DailyUsage)
  : number :=
  number_max (height daily_usage day) (finite 2).

End AdminCostsPage.

(** ** Dashboard layout: the darker shade of the client colour *)

Module DashboardLayout.
Import JS.

(** The bitwise operators work on 32-bit integers: ToInt32 of a number, and
    [>>], [<<], [&] and [|] on the converted operands. [NaN] converts
    to 0. *)
Definition to_int32 (z : Z) : Z := ((z + 2 ^ 31) mod 2 ^ 32 - 2 ^ 31)%Z.

Definition int32_of (n : intnum) : Z :=
  match n with
  | NaN => 0%Z
  | Int z => to_int32 z
  | Inf _ => 0%Z
  end.

Definition shr (a k : Z) : Z := Z.shiftr (to_int32 a) k.
Definition shl (a k : Z) : Z := to_int32 (Z.shiftl (to_int32 a) k).
Definition band (a b : Z) : Z := Z.land (to_int32 a) (to_int32 b).
Definition bor (a b : Z) : Z := Z.lor (to_int32 a) (to_int32 b).

(** The number [adjustColor(hex, amount)] formats: [num] is what [parseInt]
    made of the colour, the result is the operand of [toString(16)]. *)
Definition adjustColor_number (num : intnum) (amount : Z) : Z :=
  let n := int32_of num in
  let r := Z.min 255 (Z.max 0 (shr n 16 + amount)) in
  let g := Z.min 255 (Z.max 0 (band (shr n 8) 255 + amount)) in
  let b := Z.min 255 (Z.max 0 (band n 255 + amount)) in
  bor (bor (shl r 16) (shl g 8)) b.

End DashboardLayout.

(** ** Admin layout: the super-admin check *)

Module AdminLayout.
Import JS Api Auth.

(** The layout's own state: [user] and [loading]. *)
Record State := {
  al_user : option Body;
  al_loading : bool
}.

(** What the layout renders: the spinner, nothing ([return null]), or the
    admin portal around its children. *)
Inductive View := spinner | nothing | portal (user : Body).

Definition initial : State := {| al_user := None; al_loading := true |}.

Section Flow.

Variable base : string.
Variable fetch : Request -> Response.
Variable json : Response -> result Body.

(** [loadUser] of the effect: a user that is no super-admin is sent to the
    dashboard, a failed check to the login page; [loading] ends false. *)
Definition loadUser (w : World) (s : State) : World * State :=
  let (w1, outcome) := call_getCurrentUser base fetch json w in
  let (w2, s2) :=
    match outcome with
    | ok userData =>
        if negb (body_is_superadmin userData)
        then (push "/dashboard" w1, s)
        else (w1, {| al_user := Some userData; al_loading := al_loading s |})
    | throw _ => (push "/login" w1, s)
    end in
  (w2, {| al_user := al_user s2; al_loading := false |}).

End Flow.

(** [if (loading) return <spinner/>; if (!user) return null; return ...] *)
Definition render (s : State) : View :=
  if al_loading s then spinner
  else match al_user s with
       | None => nothing
       | Some u => portal u
       end.

(** [handleLogout] *)
Definition handleLogout (w : World) : World :=
  push "/login" (with_browser (removeItem "token" (browser w)) w).

End AdminLayout.


(** ** Admin dashboard: the share of active clients *)

Module AdminDashboard.
Import JS.

(** [Math.round(x)]: the nearest integer, halves rounded up. *)
Definition Math_round (x : number) : number :=
  match x with
  | finite q => finite (inject_Z (Qfloor (q + (1 # 2))))
  | _ => x
  end.

(** [x || 0] on numbers: [NaN] and 0 are falsy. *)
Definition or_zero (x : number) : number :=
  match x with
  | nan => finite 0
  | finite q => if Qzero q then finite 0 else x
  | infinity _ => x
  end.

(** [Math.round((data.active_clients / data.total_clients) * 100) || 0] *)
Definition active_share (active_clients total_clients : Z) : number :=
  or_zero
    (Math_round
       (number_mul
          (number_div (number_of_Z active_clients) (number_of_Z total_clients))
          (number_of_Z 100))).

End AdminDashboard.

(* ================================================================== *)
(** * Part II: properties                                              *)
(* ================================================================== *)

(** ** Gap categories *)

Section GapCategories.
Import GapsPage.

Lemma CategoryType_eqb_eq (a b : CategoryType) :
  CategoryType_eqb a b = true <-> a = b.
Proof.
  destruct a, b; simpl; split; intro H; try reflexivity; discriminate H.
Qed.

(** C1. The categorisation of a gap record is a total function of the two
    booleans [brand_mentioned] and [has_competitors]; the value is one of the
    four categories, and each category is hit by exactly one combination:
    win (exclusive win) iff brand and no competitor, critical (critical gap)
    iff competitor and no brand, competitive iff both, blue ocean iff
    neither. *)
Theorem getCategoryType_spec (gap : Gap) :
  (getCategoryType gap = win <->
     brand_mentioned gap = true /\ has_competitors gap = false) /\
  (getCategoryType gap = critical <->
     brand_mentioned gap = false /\ has_competitors gap = true) /\
  (getCategoryType gap = competitive <->
     brand_mentioned gap = true /\ has_competitors gap = true) /\
  (getCategoryType gap = blue_ocean <->
     brand_mentioned gap = false /\ has_competitors gap = false) /\
  (exists! c, getCategoryType gap = c).
Proof.
  unfold getCategoryType.
  destruct (brand_mentioned gap), (has_competitors gap); simpl;
    repeat split; intros; try tauto; try discriminate;
    try (destruct H; discriminate);
    try (eexists; split; [reflexivity | intros ? <-; reflexivity]).
Qed.

Lemma count_partition (l : list Gap) :
  List.length (filter (fun g => CategoryType_eqb (getCategoryType g) win) l) +
  List.length (filter (fun g => CategoryType_eqb (getCategoryType g) critical) l) +
  List.length (filter (fun g => CategoryType_eqb (getCategoryType g) competitive) l) +
  List.length (filter (fun g => CategoryType_eqb (getCategoryType g) blue_ocean) l)
  = List.length l.
Proof.
  induction l as [|g l IH]; simpl; [reflexivity|].
  destruct (getCategoryType g); simpl; lia.
Qed.

Lemma filter_all_true {A} (l : list A) : filter (fun _ => true) l = l.
Proof. induction l; simpl; congruence. Qed.

(** C10. The four counters of the gaps page count the gaps of each category,
    so they add up to the number of gaps of the analysis; and the category
    filter 'all' leaves the gap list as it is. *)
Theorem stats_sum_and_filter_all (a : GapAnalysis) :
  wins (stats (Some a)) =
    List.length (filter (fun g => CategoryType_eqb (getCategoryType g) win) (gaps a)) /\
  st_critical (stats (Some a)) =
    List.length (filter (fun g => CategoryType_eqb (getCategoryType g) critical) (gaps a)) /\
  st_competitive (stats (Some a)) =
    List.length (filter (fun g => CategoryType_eqb (getCategoryType g) competitive) (gaps a)) /\
  st_blue_ocean (stats (Some a)) =
    List.length (filter (fun g => CategoryType_eqb (getCategoryType g) blue_ocean) (gaps a)) /\
  wins (stats (Some a)) + st_critical (stats (Some a)) +
    st_competitive (stats (Some a)) + st_blue_ocean (stats (Some a))
    = List.length (gaps a) /\
  filteredGaps (Some a) f_all = gaps a.
Proof.
  repeat split; simpl.
  - apply count_partition.
  - apply filter_all_true.
Qed.

End GapCategories.

(** ** Strings: occurrences and splitting *)

Section StringFacts.
Import JS.

Lemma has_char_app (c : ascii) (a b : string) :
  has_char c (a ++ b) = has_char c a || has_char c b.
Proof.
  induction a as [|x a IH]; simpl; [reflexivity|].
  rewrite IH. apply orb_assoc.
Qed.

Lemma string_app_assoc (a b c : string) : (a ++ b) ++ c = a ++ (b ++ c).
Proof. induction a as [|x a IH]; simpl; congruence. Qed.

Lemma string_app_empty (a : string) : a ++ "" = a.
Proof. induction a as [|x a IH]; simpl; congruence. Qed.

Lemma split_at_absent (c : ascii) (s : string) :
  has_char c s = false -> split_at c s = (s, None).
Proof.
  induction s as [|x s IH]; simpl; [reflexivity|].
  intros H. apply orb_false_iff in H as [Hx Hs].
  rewrite Hx, (IH Hs). reflexivity.
Qed.

Lemma split_at_first (c : ascii) (a b : string) :
  has_char c a = false -> split_at c (a ++ String c b) = (a, Some b).
Proof.
  induction a as [|x a IH]; simpl.
  - intros _. rewrite Ascii.eqb_refl. reflexivity.
  - intros H. apply orb_false_iff in H as [Hx Ha].
    rewrite Hx, (IH Ha). reflexivity.
Qed.

Lemma split_on_absent (c : ascii) (s : string) :
  has_char c s = false -> split_on c s = [s].
Proof.
  induction s as [|x s IH]; simpl; [reflexivity|].
  intros H. apply orb_false_iff in H as [Hx Hs].
  rewrite Hx, (IH Hs). reflexivity.
Qed.

Lemma split_on_first (c : ascii) (a b : string) :
  has_char c a = false -> split_on c (a ++ String c b) = a :: split_on c b.
Proof.
  induction a as [|x a IH]; simpl.
  - intros _. rewrite Ascii.eqb_refl. reflexivity.
  - intros H. apply orb_false_iff in H as [Hx Ha].
    rewrite Hx, (IH Ha). reflexivity.
Qed.

Lemma has_char_cons (c a : ascii) (r : string) :
  has_char c (String a r) = Ascii.eqb a c || has_char c r.
Proof. reflexivity. Qed.

Lemma not_digit_or_minus (c a : ascii) :
  digit_or_minus c = false -> digit_or_minus a = true -> Ascii.eqb a c = false.
Proof.
  intros Hc Ha. apply Ascii.eqb_neq. intros ->. congruence.
Qed.

Lemma string_of_uint_chars (c : ascii) (u : Decimal.uint) :
  digit_or_minus c = false ->
  has_char c (NilEmpty.string_of_uint u) = false.
Proof.
  intros Hc.
  induction u; cbn [NilEmpty.string_of_uint]; try reflexivity;
    rewrite has_char_cons, IHu, orb_false_r;
    apply (not_digit_or_minus c _ Hc); reflexivity.
Qed.

Lemma show_number_chars (c : ascii) (n : Z) :
  digit_or_minus c = false -> has_char c (show_number n) = false.
Proof.
  intros Hc. unfold show_number.
  assert (Hu : forall u, has_char c (NilZero.string_of_uint u) = false).
  { intros u. unfold NilZero.string_of_uint.
    destruct u; try apply (string_of_uint_chars c _ Hc).
    rewrite has_char_cons, orb_false_r.
    apply (not_digit_or_minus c _ Hc); reflexivity. }
  destruct (Z.to_int n) as [u|u]; cbn [NilZero.string_of_int]; [apply Hu|].
  rewrite has_char_cons, Hu, orb_false_r.
  apply (not_digit_or_minus c _ Hc); reflexivity.
Qed.

Lemma query_params_none (path : string) :
  has_char "?" path = false -> query_params path = [].
Proof.
  intros H. unfold query_params. rewrite (split_at_absent _ _ H). reflexivity.
Qed.

Lemma query_params_some (path q : string) :
  has_char "?" path = false ->
  query_params (path ++ String "?" q) =
    map (fun kv => match split_at "=" kv with
                   | (k, Some v) => (k, v)
                   | (k, None) => (k, EmptyString)
                   end) (split_on "&" q).
Proof.
  intros H. unfold query_params. rewrite (split_at_first _ _ _ H). reflexivity.
Qed.

End StringFacts.

(** ** Rounding to the nearest double *)

Section RoundingFacts.
Import JS.
Local Open Scope Q_scope.

Lemma pow2_pos (e : Z) : 0 < pow2 e.
Proof. apply Qpower_0_lt. reflexivity. Qed.

Lemma pow2_add (a b : Z) : pow2 (a + b) == pow2 a * pow2 b.
Proof. apply Qpower_plus. discriminate. Qed.

Lemma pow2_le (a b : Z) : (a <= b)%Z -> pow2 a <= pow2 b.
Proof. intros H. apply Qpower_le_compat_l; [exact H|discriminate]. Qed.

Lemma pow2_lt (a b : Z) : (a < b)%Z -> pow2 a < pow2 b.
Proof. intros H. apply Qpower_lt_compat_l; [exact H|reflexivity]. Qed.

Lemma pow2_lt_inv (a b : Z) : pow2 a < pow2 b -> (a < b)%Z.
Proof. intros H. apply (Qpower_lt_compat_l_inv 2); [exact H|reflexivity]. Qed.

Lemma pow2_inject (n : Z) : (0 <= n)%Z -> pow2 n == inject_Z (2 ^ n).
Proof. intros H. symmetry. apply (Zpower_Qpower 2 n H). Qed.

Lemma pow2_div (q : Q) (e : Z) : q / pow2 e == q * pow2 (- e).
Proof.
  unfold Qdiv. apply Qmult_comp; [reflexivity|].
  unfold pow2. rewrite Qpower_opp. reflexivity.
Qed.

Lemma pow2_cancel (q : Q) (e : Z) : q / pow2 e * pow2 e == q.
Proof.
  unfold Qdiv. rewrite <- Qmult_assoc, (Qmult_comm (/ pow2 e)).
  rewrite Qmult_inv_r, Qmult_1_r; [reflexivity|].
  intros H. pose proof (pow2_pos e) as P. rewrite H in P.
  apply (Qlt_irrefl _ P).
Qed.

Lemma scaled_le (x y : Q) (e : Z) : x <= y -> x / pow2 e <= y / pow2 e.
Proof.
  intros H. unfold Qdiv. apply Qmult_le_compat_r; [exact H|].
  apply Qlt_le_weak, Qinv_lt_0_compat, pow2_pos.
Qed.

Lemma scaled_lt_pow2 (x : Q) (a e : Z) : x < pow2 a -> x / pow2 e < pow2 (a - e).
Proof.
  intros H. apply Qlt_shift_div_r; [apply pow2_pos|].
  rewrite <- pow2_add. replace (a - e + e)%Z with a by lia. exact H.
Qed.

Lemma scaled_ge_pow2 (x : Q) (a e : Z) : pow2 a <= x -> pow2 (a - e) <= x / pow2 e.
Proof.
  intros H. apply Qle_shift_div_l; [apply pow2_pos|].
  rewrite <- pow2_add. replace (a - e + e)%Z with a by lia. exact H.
Qed.

(** *** The exponent *)

Lemma floor_log2_spec (q : Q) :
  0 < q -> pow2 (floor_log2 q) <= q /\ q < pow2 (floor_log2 q + 1).
Proof.
  intros Hq. destruct q as [n d].
  assert (Hn : (0 < n)%Z).
  { unfold Qlt in Hq. simpl in Hq. lia. }
  unfold floor_log2. cbn [Qnum Qden].
  set (ln := Z.log2 n). set (ld := Z.log2 (Z.pos d)).
  destruct (Z.log2_spec n Hn) as [Ln Un]. fold ln in Ln, Un.
  destruct (Z.log2_spec (Z.pos d) eq_refl) as [Ld Ud]. fold ld in Ld, Ud.
  assert (Pn : (0 <= ln)%Z) by apply Z.log2_nonneg.
  assert (Pd : (0 <= ld)%Z) by apply Z.log2_nonneg.
  assert (Eq : n # d == inject_Z n / inject_Z (Z.pos d)) by apply Qmake_Qdiv.
  assert (Dpos : 0 < inject_Z (Z.pos d)) by reflexivity.
  assert (Upper : n # d < pow2 (ln - ld + 1)).
  { rewrite Eq. apply Qlt_shift_div_r; [exact Dpos|].
    apply Qlt_le_trans with (pow2 (ln - ld + 1) * pow2 ld).
    - rewrite <- pow2_add. replace (ln - ld + 1 + ld)%Z with (ln + 1)%Z by lia.
      rewrite pow2_inject by lia. rewrite <- Zlt_Qlt. exact Un.
    - apply Qmult_le_l; [apply pow2_pos|].
      rewrite pow2_inject by lia. rewrite <- Zle_Qle. exact Ld. }
  assert (Lower : pow2 (ln - ld - 1) < n # d).
  { rewrite Eq. apply Qlt_shift_div_l; [exact Dpos|].
    apply Qlt_le_trans with (pow2 (ln - ld - 1) * pow2 (ld + 1)).
    - apply Qmult_lt_l; [apply pow2_pos|].
      rewrite pow2_inject by lia. rewrite <- Zlt_Qlt. exact Ud.
    - rewrite <- pow2_add. replace (ln - ld - 1 + (ld + 1))%Z with ln by lia.
      rewrite pow2_inject by lia. rewrite <- Zle_Qle. exact Ln. }
  destruct (Qle_bool (pow2 (ln - ld)) (n # d)) eqn:B.
  - apply Qle_bool_iff in B. split; assumption.
  - split; [apply Qlt_le_weak; exact Lower|].
    replace (ln - ld - 1 + 1)%Z with (ln - ld)%Z by lia.
    apply Qnot_le_lt. intros C. apply Qle_bool_iff in C. congruence.
Qed.

Lemma floor_log2_unique (q : Q) (a : Z) :
  pow2 a <= q -> q < pow2 (a + 1) -> floor_log2 q = a.
Proof.
  intros L U.
  assert (Hq : 0 < q) by (apply Qlt_le_trans with (pow2 a); [apply pow2_pos|exact L]).
  destruct (floor_log2_spec q Hq) as [L' U'].
  assert (floor_log2 q < a + 1)%Z
    by (apply pow2_lt_inv; apply Qle_lt_trans with q; assumption).
  assert (a < floor_log2 q + 1)%Z
    by (apply pow2_lt_inv; apply Qle_lt_trans with q; assumption).
  lia.
Qed.

Lemma floor_log2_comp (p q : Q) : 0 < p -> p == q -> floor_log2 p = floor_log2 q.
Proof.
  intros Hp E. destruct (floor_log2_spec p Hp) as [L U].
  symmetry. apply floor_log2_unique; rewrite <- E; assumption.
Qed.

Lemma floor_log2_mono (p q : Q) :
  0 < p -> p <= q -> (floor_log2 p <= floor_log2 q)%Z.
Proof.
  intros Hp H.
  assert (Hq : 0 < q) by (apply Qlt_le_trans with p; assumption).
  destruct (floor_log2_spec p Hp) as [L _].
  destruct (floor_log2_spec q Hq) as [_ U].
  assert (floor_log2 p < floor_log2 q + 1)%Z; [|lia].
  apply pow2_lt_inv. apply Qle_lt_trans with p; [exact L|].
  apply Qle_lt_trans with q; assumption.
Qed.


(** *** Rounding to an integer, halves to even *)

Lemma round_half_even_cases (x : Q) :
  round_half_even x = Qfloor x \/ round_half_even x = (Qfloor x + 1)%Z.
Proof.
  unfold round_half_even.
  destruct (x - inject_Z (Qfloor x) ?= 1 # 2); auto.
  destruct (Z.even (Qfloor x)); auto.
Qed.

Lemma round_half_even_comp (x y : Q) :
  x == y -> round_half_even x = round_half_even y.
Proof.
  intros E. unfold round_half_even.
  rewrite (Qfloor_comp _ _ E).
  assert (C : (x - inject_Z (Qfloor y) ?= 1 # 2)
              = (y - inject_Z (Qfloor y) ?= 1 # 2)).
  { apply Qcompare_comp; [|reflexivity]. rewrite E. reflexivity. }
  rewrite C. reflexivity.
Qed.

Lemma round_half_even_int (k : Z) : round_half_even (inject_Z k) = k.
Proof.
  unfold round_half_even. rewrite Qfloor_Z.
  assert (C : (inject_Z k - inject_Z k ?= 1 # 2) = Lt).
  { apply Qlt_alt. setoid_replace (inject_Z k - inject_Z k) with 0 by ring.
    reflexivity. }
  rewrite C. reflexivity.
Qed.

Lemma round_half_even_mono (x y : Q) :
  x <= y -> (round_half_even x <= round_half_even y)%Z.
Proof.
  intros H.
  pose proof (Qfloor_resp_le _ _ H) as F.
  destruct (Z.eq_dec (Qfloor x) (Qfloor y)) as [E|N].
  - unfold round_half_even. rewrite E.
    assert (D : x - inject_Z (Qfloor y) <= y - inject_Z (Qfloor y)).
    { apply Qplus_le_l with (z := inject_Z (Qfloor y)). ring_simplify. exact H. }
    destruct (x - inject_Z (Qfloor y) ?= 1 # 2) eqn:Cx;
      destruct (y - inject_Z (Qfloor y) ?= 1 # 2) eqn:Cy;
      try destruct (Z.even (Qfloor y)); try lia; exfalso;
      first [apply <- Qeq_alt in Cx | apply <- Qlt_alt in Cx
            | apply <- Qgt_alt in Cx];
      first [apply <- Qeq_alt in Cy | apply <- Qlt_alt in Cy
            | apply <- Qgt_alt in Cy];
      lra.
  - destruct (round_half_even_cases x) as [-> | ->].
    + destruct (round_half_even_cases y) as [-> | ->]; lia.
    + destruct (round_half_even_cases y) as [-> | ->]; lia.
Qed.

Lemma round_half_even_le (x : Q) (b : Z) :
  x <= inject_Z b -> (round_half_even x <= b)%Z.
Proof.
  intros H. rewrite <- (round_half_even_int b).
  apply round_half_even_mono, H.
Qed.

Lemma round_half_even_ge (x : Q) (a : Z) :
  inject_Z a <= x -> (a <= round_half_even x)%Z.
Proof.
  intros H. rewrite <- (round_half_even_int a).
  apply round_half_even_mono, H.
Qed.


(** *** Rounding a positive real *)

Lemma round_positive_comp (p q : Q) :
  0 < p -> p == q -> round_positive p == round_positive q.
Proof.
  intros Hp E. unfold round_positive.
  rewrite (floor_log2_comp p q Hp E).
  set (e := Z.max (floor_log2 q - 52) (-1074)).
  assert (R : round_half_even (p / pow2 e) = round_half_even (q / pow2 e)).
  { apply round_half_even_comp. rewrite E. reflexivity. }
  rewrite R. reflexivity.
Qed.

Lemma round_positive_mantissa_le (q : Q) :
  0 < q ->
  (round_half_even (q / pow2 (Z.max (floor_log2 q - 52) (-1074))) <= 2 ^ 53)%Z.
Proof.
  intros Hq. destruct (floor_log2_spec q Hq) as [_ U].
  set (e := Z.max (floor_log2 q - 52) (-1074)).
  apply round_half_even_le. rewrite <- pow2_inject by lia.
  apply Qlt_le_weak.
  apply Qlt_le_trans with (pow2 (floor_log2 q + 1 - e)).
  - apply scaled_lt_pow2, U.
  - apply pow2_le. lia.
Qed.

Lemma round_positive_mantissa_ge (q : Q) :
  0 < q -> (-1074 < floor_log2 q - 52)%Z ->
  (2 ^ 52 <= round_half_even (q / pow2 (Z.max (floor_log2 q - 52) (-1074))))%Z.
Proof.
  intros Hq He. destruct (floor_log2_spec q Hq) as [L _].
  rewrite Z.max_l by lia.
  apply round_half_even_ge. rewrite <- pow2_inject by lia.
  replace 52%Z with (floor_log2 q - (floor_log2 q - 52))%Z at 1 by lia.
  apply scaled_ge_pow2, L.
Qed.

Lemma round_positive_nonneg (q : Q) : 0 < q -> 0 <= round_positive q.
Proof.
  intros Hq. unfold round_positive.
  apply Qmult_le_0_compat; [|apply Qlt_le_weak, pow2_pos].
  change 0 with (inject_Z 0). rewrite <- Zle_Qle.
  apply round_half_even_ge. apply Qle_shift_div_l; [apply pow2_pos|].
  rewrite Qmult_0_l. apply Qlt_le_weak, Hq.
Qed.

Lemma round_positive_mono (p q : Q) :
  0 < p -> p <= q -> round_positive p <= round_positive q.
Proof.
  intros Hp H.
  assert (Hq : 0 < q) by (apply Qlt_le_trans with p; assumption).
  pose proof (floor_log2_mono p q Hp H) as F.
  pose proof (round_positive_mantissa_le p Hp) as Mp.
  unfold round_positive.
  set (ep := Z.max (floor_log2 p - 52) (-1074)) in *.
  set (eq := Z.max (floor_log2 q - 52) (-1074)).
  destruct (Z.eq_dec ep eq) as [E|N].
  - rewrite E. apply Qmult_le_compat_r; [|apply Qlt_le_weak, pow2_pos].
    rewrite <- Zle_Qle. apply round_half_even_mono, scaled_le, H.
  - assert (Lt : (ep < eq)%Z) by (subst ep eq; lia).
    assert (He : (-1074 < floor_log2 q - 52)%Z) by (subst ep eq; lia).
    pose proof (round_positive_mantissa_ge q Hq He) as Mq. fold eq in Mq.
    apply Qle_trans with (pow2 (53 + ep)).
    + rewrite pow2_add.
      apply Qmult_le_compat_r; [|apply Qlt_le_weak, pow2_pos].
      rewrite (pow2_inject 53) by lia. rewrite <- Zle_Qle. exact Mp.
    + apply Qle_trans with (pow2 (52 + eq)); [apply pow2_le; lia|].
      rewrite pow2_add.
      apply Qmult_le_compat_r; [|apply Qlt_le_weak, pow2_pos].
      rewrite (pow2_inject 52) by lia. rewrite <- Zle_Qle. exact Mq.
Qed.

(** A positive real whose mantissa at its exponent is a whole number is
    its own rounding. *)
Lemma round_positive_exact (q : Q) (m : Z) :
  q / pow2 (Z.max (floor_log2 q - 52) (-1074)) == inject_Z m ->
  round_positive q == q.
Proof.
  intros E. unfold round_positive.
  rewrite (round_half_even_comp _ _ E), round_half_even_int, <- E.
  apply pow2_cancel.
Qed.

(** *** Rounding a real *)

Lemma round_real_zero (q : Q) : q == 0 -> round_real q = 0.
Proof.
  intros E. unfold round_real.
  destruct (q ?= 0) eqn:C; [reflexivity| |]; exfalso;
    [apply <- Qlt_alt in C | apply <- Qgt_alt in C]; lra.
Qed.

Lemma round_real_pos (q : Q) : 0 < q -> round_real q = round_positive q.
Proof.
  intros H. unfold round_real.
  destruct (q ?= 0) eqn:C; [| |reflexivity]; exfalso;
    [apply <- Qeq_alt in C | apply <- Qlt_alt in C]; lra.
Qed.

Lemma round_real_neg (q : Q) :
  q < 0 -> round_real q = - round_positive (- q).
Proof.
  intros H. unfold round_real.
  destruct (q ?= 0) eqn:C; [|reflexivity|]; exfalso;
    [apply <- Qeq_alt in C | apply <- Qgt_alt in C]; lra.
Qed.

Lemma round_real_nonneg (q : Q) : 0 <= q -> 0 <= round_real q.
Proof.
  intros H. destruct (Qlt_le_dec 0 q) as [P|N].
  - rewrite round_real_pos by exact P. apply round_positive_nonneg, P.
  - rewrite round_real_zero; [apply Qle_refl|]. apply Qle_antisym; assumption.
Qed.

Lemma round_real_nonpos (q : Q) : q <= 0 -> round_real q <= 0.
Proof.
  intros H. destruct (Qlt_le_dec q 0) as [P|N].
  - rewrite round_real_neg by exact P.
    assert (0 <= round_positive (- q)) by (apply round_positive_nonneg; lra).
    lra.
  - rewrite round_real_zero; [apply Qle_refl|]. apply Qle_antisym; assumption.
Qed.

Lemma round_real_mono (p q : Q) : p <= q -> round_real p <= round_real q.
Proof.
  intros H. destruct (Qlt_le_dec 0 p) as [Pp|Np].
  - rewrite (round_real_pos p Pp), (round_real_pos q) by lra.
    apply round_positive_mono; assumption.
  - destruct (Qlt_le_dec 0 q) as [Pq|Nq].
    + apply Qle_trans with 0;
        [apply round_real_nonpos, Np|apply round_real_nonneg; lra].
    + destruct (Qlt_le_dec q 0) as [Lq|Zq].
      * rewrite (round_real_neg q Lq), (round_real_neg p) by lra.
        assert (round_positive (- q) <= round_positive (- p))
          by (apply round_positive_mono; lra).
        lra.
      * rewrite (round_real_zero q) by lra. apply round_real_nonpos, Np.
Qed.

Lemma round_real_comp (p q : Q) : p == q -> round_real p == round_real q.
Proof.
  intros E. apply Qle_antisym; apply round_real_mono; rewrite E; apply Qle_refl.
Qed.


(** *** Whole numbers up to 2^53 are Number values *)

Lemma floor_log2_inject (z : Z) :
  (0 < z)%Z -> floor_log2 (inject_Z z) = Z.log2 z.
Proof.
  intros H. destruct (Z.log2_spec z H) as [L U].
  pose proof (Z.log2_nonneg z) as P.
  apply floor_log2_unique.
  - rewrite pow2_inject by lia. rewrite <- Zle_Qle. exact L.
  - rewrite pow2_inject by lia. rewrite <- Zlt_Qlt.
    rewrite <- Z.add_1_r in U. exact U.
Qed.

Lemma round_positive_safe (z : Z) :
  (0 < z <= 2 ^ 53)%Z -> round_positive (inject_Z z) == inject_Z z.
Proof.
  intros [P U].
  assert (Hl : (0 <= Z.log2 z <= 53)%Z).
  { split; [apply Z.log2_nonneg|].
    change 53%Z with (Z.log2 (2 ^ 53)). apply Z.log2_le_mono, U. }
  destruct (Z_le_gt_dec (Z.log2 z) 52) as [S|B].
  - apply (round_positive_exact _ (z * 2 ^ (52 - Z.log2 z))).
    rewrite floor_log2_inject by exact P.
    rewrite Z.max_l by lia. rewrite pow2_div.
    replace (- (Z.log2 z - 52))%Z with (52 - Z.log2 z)%Z by lia.
    rewrite pow2_inject by lia. rewrite inject_Z_mult. reflexivity.
  - assert (E53 : Z.log2 z = 53%Z) by lia.
    assert (Ez : z = (2 ^ 53)%Z).
    { destruct (Z.log2_spec z P) as [L _]. rewrite E53 in L. lia. }
    subst z. apply (round_positive_exact _ (2 ^ 52)). reflexivity.
Qed.

Lemma round_real_safe (z : Z) :
  (- 2 ^ 53 <= z <= 2 ^ 53)%Z -> round_real (inject_Z z) == inject_Z z.
Proof.
  intros [L U]. destruct (Z.lt_trichotomy z 0) as [N|[->|P]].
  - rewrite round_real_neg
      by (change 0 with (inject_Z 0); rewrite <- Zlt_Qlt; exact N).
    rewrite <- inject_Z_opp, round_positive_safe by lia.
    rewrite inject_Z_opp. ring.
  - reflexivity.
  - rewrite round_real_pos
      by (change 0 with (inject_Z 0); rewrite <- Zlt_Qlt; exact P).
    apply round_positive_safe. lia.
Qed.

(** *** The Number value of a real *)

Lemma Number_of_finite (q : Q) :
  Qabs (round_real q) < pow2 1024 ->
  Number_of q = finite (Qred (round_real q)).
Proof.
  intros H. unfold Number_of.
  destruct (Qle_bool (pow2 1024) (Qabs (round_real q))) eqn:B; [|reflexivity].
  apply Qle_bool_iff in B. exfalso. apply (Qlt_not_le _ _ H B).
Qed.

Lemma Number_of_cases (q : Q) :
  (exists s, Number_of q = infinity s) \/
  (exists r, Number_of q = finite r /\ r == round_real q /\
             Qabs r < pow2 1024).
Proof.
  unfold Number_of.
  destruct (Qle_bool (pow2 1024) (Qabs (round_real q))) eqn:B.
  - left. eauto.
  - right. exists (Qred (round_real q)). split; [reflexivity|].
    split; [apply Qred_correct|].
    rewrite Qred_correct. apply Qnot_le_lt. intros C.
    apply Qle_bool_iff in C. congruence.
Qed.

Lemma Qle_bool_comp (a a' b b' : Q) :
  a == a' -> b == b' -> Qle_bool a b = Qle_bool a' b'.
Proof.
  intros Ea Eb. destruct (Qle_bool a' b') eqn:C.
  - apply Qle_bool_iff. rewrite Ea, Eb. apply Qle_bool_iff, C.
  - destruct (Qle_bool a b) eqn:D; [|reflexivity].
    apply Qle_bool_iff in D. rewrite Ea, Eb in D. apply Qle_bool_iff in D.
    congruence.
Qed.

Lemma Number_of_comp (p q : Q) : p == q -> Number_of p = Number_of q.
Proof.
  intros E. pose proof (round_real_comp p q E) as R. unfold Number_of.
  assert (A : Qabs (round_real p) == Qabs (round_real q))
    by (rewrite R; reflexivity).
  rewrite (Qle_bool_comp _ (pow2 1024) _ _ (Qeq_refl _) A).
  unfold Qnegative.
  rewrite (Qle_bool_comp _ 0 _ _ (Qeq_refl _) R).
  rewrite (Qred_complete _ _ R). reflexivity.
Qed.

Lemma Qred_inject_Z (z : Z) : Qred (inject_Z z) = inject_Z z.
Proof.
  unfold Qred, inject_Z.
  pose proof (Z.ggcd_gcd z 1) as G.
  pose proof (Z.ggcd_correct_divisors z 1) as D.
  destruct (Z.ggcd z 1) as [g [aa bb]]. cbn [fst] in G.
  rewrite Z.gcd_1_r in G. subst g. destruct D as [Da Db].
  rewrite Z.mul_1_l in Da, Db. subst aa bb. reflexivity.
Qed.

Lemma Number_of_safe (z : Z) :
  (- 2 ^ 53 <= z <= 2 ^ 53)%Z -> Number_of (inject_Z z) = finite (inject_Z z).
Proof.
  intros H. pose proof (round_real_safe z H) as R.
  rewrite Number_of_finite.
  - f_equal. rewrite (Qred_complete _ _ R). apply Qred_inject_Z.
  - rewrite R. apply Qle_lt_trans with (inject_Z (2 ^ 53)); [|reflexivity].
    apply Qabs_Qle_condition. split.
    + rewrite <- inject_Z_opp, <- Zle_Qle. lia.
    + rewrite <- Zle_Qle. lia.
Qed.

(** Rounding keeps a real between two whole numbers that are Number values. *)
Lemma Number_of_between (q : Q) (a b : Z) :
  (- 2 ^ 53 <= a)%Z -> (b <= 2 ^ 53)%Z ->
  inject_Z a <= q -> q <= inject_Z b ->
  exists r, Number_of q = finite r /\ inject_Z a <= r /\ r <= inject_Z b.
Proof.
  intros La Ub Ha Hb.
  assert (Hab : (a <= b)%Z) by (rewrite Zle_Qle; lra).
  pose proof (round_real_mono _ _ Ha) as Ra.
  pose proof (round_real_mono _ _ Hb) as Rb.
  rewrite round_real_safe in Ra by lia.
  rewrite round_real_safe in Rb by lia.
  exists (Qred (round_real q)). split.
  - apply Number_of_finite.
    apply Qle_lt_trans with (inject_Z (2 ^ 53)); [|reflexivity].
    apply Qabs_Qle_condition. split.
    + apply Qle_trans with (inject_Z a); [|exact Ra].
      rewrite <- inject_Z_opp, <- Zle_Qle. lia.
    + apply Qle_trans with (inject_Z b); [exact Rb|].
      rewrite <- Zle_Qle. lia.
  - rewrite Qred_correct. split; assumption.
Qed.

Lemma Number_of_mono (p q r1 r2 : Q) :
  p <= q -> Number_of p = finite r1 -> Number_of q = finite r2 -> r1 <= r2.
Proof.
  intros H E1 E2.
  destruct (Number_of_cases p) as [[s F]|(x & F & X & _)];
    rewrite F in E1; [discriminate|injection E1 as ->].
  destruct (Number_of_cases q) as [[s G]|(y & G & Y & _)];
    rewrite G in E2; [discriminate|injection E2 as ->].
  rewrite X, Y. apply round_real_mono, H.
Qed.

Lemma round_positive_idem (q : Q) :
  0 < q -> round_real (round_positive q) == round_positive q.
Proof.
  intros Hq.
  pose proof (round_positive_mantissa_le q Hq) as Um.
  pose proof (round_positive_nonneg q Hq) as Hr.
  unfold round_positive in *.
  set (e := Z.max (floor_log2 q - 52) (-1074)) in *.
  assert (He : (-1074 <= e)%Z) by (unfold e; lia).
  clearbody e.
  set (m := round_half_even (q / pow2 e)) in *. clearbody m.
  pose proof (pow2_pos e) as Pe.
  destruct (Z_le_gt_dec m 0) as [Z0|Pm].
  - assert (E : inject_Z m * pow2 e == 0).
    { apply Qle_antisym; [|exact Hr].
      assert (M : inject_Z m <= 0).
      { change 0 with (inject_Z 0). rewrite <- Zle_Qle. exact Z0. }
      setoid_replace (inject_Z m * pow2 e)
        with (- ((- inject_Z m) * pow2 e)) by ring.
      assert (0 <= (- inject_Z m) * pow2 e)
        by (apply Qmult_le_0_compat; lra).
      lra. }
    rewrite (round_real_zero _ E). symmetry. exact E.
  - assert (Mp : 0 < inject_Z m).
    { change 0 with (inject_Z 0). rewrite <- Zlt_Qlt. lia. }
    assert (Pr : 0 < inject_Z m * pow2 e)
      by (apply Qmult_lt_0_compat; assumption).
    rewrite round_real_pos by exact Pr.
    destruct (Z.log2_spec m ltac:(lia)) as [L1 L2].
    pose proof (Z.log2_nonneg m) as L0.
    assert (F : floor_log2 (inject_Z m * pow2 e) = (Z.log2 m + e)%Z).
    { apply floor_log2_unique.
      - rewrite pow2_add. apply Qmult_le_compat_r; [|lra].
        rewrite pow2_inject by exact L0. rewrite <- Zle_Qle. exact L1.
      - replace (Z.log2 m + e + 1)%Z with ((Z.log2 m + 1) + e)%Z by lia.
        rewrite pow2_add. apply Qmult_lt_compat_r; [exact Pe|].
        rewrite pow2_inject by lia. rewrite <- Zlt_Qlt.
        replace (Z.log2 m + 1)%Z with (Z.succ (Z.log2 m)) by lia. exact L2. }
    assert (Hl : (Z.log2 m <= 53)%Z).
    { change 53%Z with (Z.log2 (2 ^ 53)). apply Z.log2_le_mono, Um. }
    destruct (Z_le_gt_dec (Z.log2 m) 52) as [S|B].
    + set (e' := Z.max (Z.log2 m + e - 52) (-1074)).
      assert (Le : (e' <= e)%Z) by (unfold e'; lia).
      apply (round_positive_exact _ (m * 2 ^ (e - e'))).
      rewrite F. fold e'.
      rewrite inject_Z_mult, <- pow2_inject by lia.
      rewrite pow2_div.
      replace (e - e')%Z with (e + - e')%Z by lia.
      rewrite pow2_add. ring.
    + assert (E53 : Z.log2 m = 53%Z) by lia.
      assert (Em : m = (2 ^ 53)%Z).
      { rewrite E53 in L1. lia. }
      apply (round_positive_exact _ (2 ^ 52)).
      rewrite F, E53.
      replace (Z.max (53 + e - 52) (-1074)) with (e + 1)%Z by lia.
      rewrite Em, pow2_div.
      rewrite <- (pow2_inject 53), <- (pow2_inject 52) by lia.
      rewrite <- !pow2_add.
      replace (53 + e + - (e + 1))%Z with 52%Z by lia. reflexivity.
Qed.

Lemma round_real_opp (x : Q) : round_real (- x) == - round_real x.
Proof.
  destruct (Qlt_le_dec 0 x) as [P|N].
  - rewrite (round_real_neg (- x)) by lra.
    rewrite (round_real_pos x P).
    rewrite (round_positive_comp (- - x) x); [reflexivity|lra|ring].
  - destruct (Qlt_le_dec x 0) as [P|Z0].
    + rewrite (round_real_pos (- x)) by lra.
      rewrite (round_real_neg x P). ring.
    + assert (E : x == 0) by lra.
      assert (E' : - x == 0) by lra.
      rewrite (round_real_zero _ E), (round_real_zero _ E'). reflexivity.
Qed.

(** A value of [round_real] is a double: rounding it again changes nothing. *)
Lemma round_real_idem (q : Q) : round_real (round_real q) == round_real q.
Proof.
  destruct (Qlt_le_dec 0 q) as [P|N].
  - rewrite (round_real_pos q P). apply round_positive_idem, P.
  - destruct (Qlt_le_dec q 0) as [P|Z0].
    + rewrite (round_real_neg q P). rewrite round_real_opp.
      rewrite round_positive_idem by lra. reflexivity.
    + assert (E : q == 0) by lra.
      rewrite (round_real_zero _ E). reflexivity.
Qed.

(** A finite Number value is a double. *)
Lemma Number_of_idem (q r : Q) :
  Number_of q = finite r -> Number_of r = finite r.
Proof.
  unfold Number_of at 1.
  destruct (Qle_bool (pow2 1024) (Qabs (round_real q))) eqn:B; [discriminate|].
  intros [= <-].
  assert (R : round_real (Qred (round_real q)) == round_real q).
  { rewrite (round_real_comp _ _ (Qred_correct _)). apply round_real_idem. }
  rewrite Number_of_finite.
  - f_equal. apply Qred_complete. exact R.
  - rewrite R. apply Qnot_le_lt. intros C.
    apply Qle_bool_iff in C. congruence.
Qed.

Lemma Number_of_value (q r : Q) :
  Number_of q = finite r -> r == round_real q.
Proof.
  unfold Number_of.
  destruct (Qle_bool (pow2 1024) (Qabs (round_real q))); [discriminate|].
  intros [= <-]. apply Qred_correct.
Qed.

(** The Number value of a real that is not negative is not negative. *)
Lemma Number_of_nonneg (q : Q) :
  0 <= q ->
  Number_of q = infinity false \/
  exists r, Number_of q = finite r /\ 0 <= r.
Proof.
  intros H. pose proof (round_real_nonneg q H) as R. unfold Number_of.
  destruct (Qle_bool (pow2 1024) (Qabs (round_real q))).
  - left. unfold Qnegative.
    replace (Qle_bool 0 (round_real q)) with true; [reflexivity|].
    symmetry. apply Qle_bool_iff, R.
  - right. eexists. split; [reflexivity|]. rewrite Qred_correct. exact R.
Qed.

(** The Number value of a real below a whole number [b] that is a double
    stays below [b], or is [-Infinity]. *)
Lemma Number_of_le (q : Q) (b : Z) :
  (- 2 ^ 53 <= b <= 2 ^ 53)%Z -> q <= inject_Z b ->
  Number_of q = infinity true \/
  exists r, Number_of q = finite r /\ r <= inject_Z b.
Proof.
  intros Hb H. pose proof (round_real_mono _ _ H) as R.
  rewrite round_real_safe in R by exact Hb. unfold Number_of.
  destruct (Qle_bool (pow2 1024) (Qabs (round_real q))) eqn:B.
  - left. apply Qle_bool_iff in B. unfold Qnegative.
    destruct (Qle_bool 0 (round_real q)) eqn:N; [|reflexivity].
    apply Qle_bool_iff in N. rewrite Qabs_pos in B by exact N.
    exfalso.
    assert (U : inject_Z b <= inject_Z (2 ^ 53)) by (rewrite <- Zle_Qle; lia).
    assert (V : inject_Z (2 ^ 53) < pow2 1024) by reflexivity.
    lra.
  - right. eexists. split; [reflexivity|]. rewrite Qred_correct. exact R.
Qed.

End RoundingFacts.

(** ** Whole numbers and their text *)

Section NumberTextFacts.
Import JS.

Lemma to_double_safe (z : Z) :
  (- 2 ^ 53 <= z <= 2 ^ 53)%Z -> to_double z = Int z.
Proof.
  intros H. unfold to_double. rewrite Number_of_safe by exact H.
  rewrite Qfloor_Z. reflexivity.
Qed.

Lemma to_double_large (v y : Z) :
  (2 ^ 53 <= v)%Z -> to_double v = Int y -> (2 ^ 53 <= y)%Z.
Proof.
  intros H. unfold to_double.
  destruct (Number_of (inject_Z v)) as [|b|q] eqn:E; try discriminate.
  intros [= <-].
  assert (L : (inject_Z (2 ^ 53) <= q)%Q).
  { apply (Number_of_mono (inject_Z (2 ^ 53)) (inject_Z v)).
    - rewrite <- Zle_Qle. exact H.
    - apply Number_of_safe. lia.
    - exact E. }
  apply Qfloor_resp_le in L. rewrite Qfloor_Z in L. exact L.
Qed.

Lemma same_double_safe (x v : Z) :
  (0 < x < 2 ^ 53)%Z -> (0 <= v)%Z -> same_double v x = true -> v = x.
Proof.
  intros Hx Hv. unfold same_double.
  destruct (Z_le_gt_dec v (2 ^ 53)) as [S|B].
  - rewrite to_double_safe by lia. apply Z.eqb_eq.
  - destruct (to_double v) as [|y|b] eqn:E; try discriminate.
    pose proof (to_double_large v y ltac:(lia) E) as L.
    intros H. apply Z.eqb_eq in H. lia.
Qed.

Lemma candidate_safe (x scale v : Z) :
  (0 < x < 2 ^ 53)%Z -> (0 < scale)%Z -> candidate x scale = Some v -> v = x.
Proof.
  intros Hx Hs. unfold candidate.
  assert (H1 : (0 <= x / scale * scale)%Z).
  { apply Z.mul_nonneg_nonneg; [apply Z.div_pos|]; lia. }
  cbv zeta.
  destruct (same_double (x / scale * scale) x) eqn:A;
    destruct (same_double (x / scale * scale + scale) x) eqn:B;
    try discriminate.
  - apply same_double_safe in A; [|exact Hx|exact H1].
    apply same_double_safe in B; [|exact Hx|lia]. lia.
  - intros [= <-]. apply same_double_safe in A; assumption.
  - intros [= <-]. apply same_double_safe in B; [exact B|exact Hx|lia].
Qed.

Lemma shortest_safe (zeros : nat) (x : Z) :
  (0 < x < 2 ^ 53)%Z -> shortest zeros x = x.
Proof.
  intros Hx. induction zeros as [|n IH]; cbn [shortest].
  - destruct (candidate x (10 ^ Z.of_nat 0)) as [v|] eqn:C; [|reflexivity].
    apply (candidate_safe x (10 ^ Z.of_nat 0) v Hx); [reflexivity|exact C].
  - destruct (candidate x (10 ^ Z.of_nat (S n))) as [v|] eqn:C; [|exact IH].
    apply (candidate_safe x (10 ^ Z.of_nat (S n)) v Hx); [|exact C].
    apply Z.pow_pos_nonneg; lia.
Qed.

Lemma to_string_positive_safe (x : Z) :
  (0 < x < 2 ^ 53)%Z -> to_string_positive x = digits x.
Proof.
  intros Hx. unfold to_string_positive. rewrite shortest_safe by exact Hx.
  cbv zeta. destruct (Z.ltb_spec x (10 ^ 21)) as [_|B]; [reflexivity|].
  exfalso. assert ((2 ^ 53 < 10 ^ 21)%Z) by reflexivity. lia.
Qed.

(** Below 2^53 a whole number prints as its decimal digits. *)
Lemma to_string_safe (z : Z) :
  (- 2 ^ 53 < z < 2 ^ 53)%Z -> to_string (Int z) = show_number z.
Proof.
  intros H. cbn [to_string]. rewrite to_double_safe by lia.
  destruct z as [|p|p].
  - reflexivity.
  - change (Z.pos p =? 0)%Z with false. change (Z.pos p <? 0)%Z with false.
    cbv iota. rewrite to_string_positive_safe by lia. reflexivity.
  - change (Z.neg p =? 0)%Z with false. change (Z.neg p <? 0)%Z with true.
    cbv iota. change (- Z.neg p)%Z with (Z.pos p).
    rewrite to_string_positive_safe by lia. reflexivity.
Qed.

Lemma not_number_char (c a : ascii) :
  number_char c = false -> number_char a = true -> Ascii.eqb a c = false.
Proof.
  intros Hc Ha. apply Ascii.eqb_neq. intros ->. congruence.
Qed.

Lemma number_char_digit (c : ascii) :
  number_char c = false -> digit_or_minus c = false.
Proof.
  unfold number_char, digit_or_minus. cbv zeta. intros H.
  repeat (apply orb_false_iff in H; destruct H as [H ?]).
  apply orb_false_iff. split; assumption.
Qed.

Lemma digits_chars (c : ascii) (n : Z) :
  number_char c = false -> has_char c (digits n) = false.
Proof.
  intros Hc. apply number_char_digit in Hc. unfold digits.
  unfold NilZero.string_of_uint.
  destruct (N.to_uint (Z.to_N n)); try apply (string_of_uint_chars c _ Hc).
  rewrite has_char_cons, orb_false_r.
  apply (not_digit_or_minus c _ Hc); reflexivity.
Qed.

Lemma strip_zeros_chars (c : ascii) (s : string) :
  has_char c s = false -> has_char c (strip_zeros s) = false.
Proof.
  induction s as [|a s IH]; [reflexivity|].
  rewrite has_char_cons. intros H. apply orb_false_iff in H as [Ha Hs].
  specialize (IH Hs). cbn [strip_zeros].
  destruct (strip_zeros s) as [|b r].
  - destruct (Ascii.eqb a "0"); [reflexivity|].
    rewrite has_char_cons, Ha. reflexivity.
  - rewrite has_char_cons, Ha. exact IH.
Qed.

Lemma to_string_positive_chars (c : ascii) (x : Z) :
  number_char c = false -> has_char c (to_string_positive x) = false.
Proof.
  intros Hc. unfold to_string_positive. cbv zeta.
  set (v := shortest _ x).
  destruct (v <? 10 ^ 21)%Z; [apply digits_chars, Hc|].
  pose proof (strip_zeros_chars c _ (digits_chars c v Hc)) as S.
  assert (E : has_char c ("e+" ++ digits (Z.of_nat (String.length (digits v) - 1)))
              = false).
  { rewrite has_char_app, digits_chars by exact Hc.
    rewrite !has_char_cons, !(not_number_char c _ Hc) by reflexivity.
    reflexivity. }
  destruct (strip_zeros (digits v)) as [|a [|b r]].
  - apply digits_chars, Hc.
  - rewrite has_char_cons in S. apply orb_false_iff in S as [Sa _].
    rewrite has_char_cons, Sa. exact E.
  - rewrite has_char_cons in S. apply orb_false_iff in S as [Sa Sr].
    rewrite has_char_cons, Sa. cbn [orb].
    change ("." ++ String b r ++ _) with
      (String "." (String b r ++ "e+" ++ digits (Z.of_nat (String.length (digits v) - 1)))).
    rewrite has_char_cons, (not_number_char c _ Hc) by reflexivity.
    rewrite has_char_app, Sr, E. reflexivity.
Qed.

(** A printed number holds no character that separates parts of a URL. *)
Lemma to_string_chars (c : ascii) (n : intnum) :
  number_char c = false -> has_char c (to_string n) = false.
Proof.
  intros Hc.
  assert (Hnan : has_char c "NaN" = false).
  { rewrite !has_char_cons, !(not_number_char c _ Hc) by reflexivity.
    reflexivity. }
  assert (Hinf : forall b : bool,
            has_char c (if b then "-Infinity" else "Infinity") = false).
  { intros []; rewrite !has_char_cons, !(not_number_char c _ Hc)
      by reflexivity; reflexivity. }
  destruct n as [|z|b]; cbn [to_string]; [exact Hnan| |apply Hinf].
  destruct (to_double z) as [|x|b]; [exact Hnan| |apply Hinf].
  destruct (x =? 0)%Z.
  { rewrite has_char_cons, (not_number_char c _ Hc) by reflexivity.
    reflexivity. }
  destruct (x <? 0)%Z; [|apply to_string_positive_chars, Hc].
  change ("-" ++ to_string_positive (- x))
    with (String "-" (to_string_positive (- x))).
  rewrite has_char_cons, (not_number_char c _ Hc) by reflexivity.
  apply to_string_positive_chars, Hc.
Qed.

End NumberTextFacts.

(** ** The branded filter on the wire *)

Section BrandedFilterFacts.
Import JS Api.

Lemma carries_filter_intro (f : BrandedFilter) (url : string) :
  query_param "branded" url = branded_param_of f -> carries_filter f url.
Proof.
  intros E. unfold carries_filter. rewrite E.
  destruct f; simpl; repeat split; intros H;
    try reflexivity; try discriminate H.
Qed.

Lemma run_path_no_query (runId : intnum) (tail : string) :
  has_char "?" tail = false ->
  has_char "?" ("/analysis/runs/" ++ to_string runId ++ tail) = false.
Proof.
  intros Ht.
  rewrite !has_char_app, Ht, to_string_chars by reflexivity.
  reflexivity.
Qed.

(** An endpoint without a query string of its own, extended by the suffix. *)
Lemma query_param_suffix (path : string) (f : BrandedFilter) :
  has_char "?" path = false ->
  query_param "branded" (path ++ branded_suffix "?" (branded_of_filter f))
    = branded_param_of f.
Proof.
  intros Hp. unfold query_param.
  destruct f; cbn [branded_of_filter branded_suffix branded_param_of].
  - rewrite string_app_empty, (query_params_none _ Hp). reflexivity.
  - change ("?" ++ "branded=" ++ show_bool true) with (String "?" "branded=true").
    rewrite (query_params_some _ _ Hp). reflexivity.
  - change ("?" ++ "branded=" ++ show_bool false) with (String "?" "branded=false").
    rewrite (query_params_some _ _ Hp). reflexivity.
Qed.

Lemma query_param_time_series (days : intnum) (f : BrandedFilter) :
  query_param "branded" (getTimeSeriesData days (branded_of_filter f))
    = branded_param_of f.
Proof.
  assert (Hamp : has_char "&" ("days=" ++ to_string days) = false).
  { rewrite has_char_app, to_string_chars by reflexivity. reflexivity. }
  assert (Hq : forall sfx,
    ("/analysis/time-series?days=" ++ to_string days) ++ sfx =
    "/analysis/time-series" ++ String "?" (("days=" ++ to_string days) ++ sfx)).
  { intros sfx. reflexivity. }
  unfold getTimeSeriesData, query_param. rewrite Hq.
  rewrite query_params_some by reflexivity.
  destruct f; cbn [branded_of_filter branded_suffix branded_param_of].
  - rewrite string_app_empty, (split_on_absent _ _ Hamp). reflexivity.
  - change ("&" ++ "branded=" ++ show_bool true) with (String "&" "branded=true").
    rewrite (split_on_first _ _ _ Hamp). reflexivity.
  - change ("&" ++ "branded=" ++ show_bool false) with (String "&" "branded=false").
    rewrite (split_on_first _ _ _ Hamp). reflexivity.
Qed.

Lemma query_param_citations (runId : intnum) :
  query_param "branded" (getCitationAnalysis runId) = None.
Proof.
  unfold getCitationAnalysis, query_param.
  rewrite query_params_none; [reflexivity|].
  apply run_path_no_query. reflexivity.
Qed.

(** C6. Whatever the branded filter, every request a page issues for the
    summary, gaps, competitors, time-series, mention-rates-by-source (and
    filtered dashboard stats) endpoints carries [branded=true] exactly for
    'branded', [branded=false] exactly for 'non_branded' and no [branded]
    parameter exactly for 'all'; the citation-analysis request never has
    the parameter. *)
Theorem branded_filter_uniform (f : BrandedFilter) (runId days : Z) :
  Forall (carries_filter f)
    [ getRunAnalysisSummary runId (branded_of_filter f);
      getGapAnalysis runId (branded_of_filter f);
      getCompetitorAnalysis runId (branded_of_filter f);
      getTimeSeriesData days (branded_of_filter f);
      getMentionRatesBySource (branded_of_filter f);
      getDashboardStatsFiltered (branded_of_filter f) ] /\
  query_param "branded" (getCitationAnalysis runId) = None /\
  map (query_param "branded") (AnalysisPage.loadAnalysis runId f)
    = [branded_param_of f; None] /\
  map (query_param "branded") (GapsPage.loadAnalysis runId f)
    = [branded_param_of f] /\
  map (query_param "branded") (CompetitorsPage.loadAnalysis runId f)
    = [branded_param_of f] /\
  map (query_param "branded") (TrendsPage.loadData days f)
    = [branded_param_of f; None] /\
  map (query_param "branded") (DashboardPage.loadFilteredData f)
    = [branded_param_of f; branded_param_of f].
Proof.
  assert (Hs : query_param "branded"
                 (getRunAnalysisSummary runId (branded_of_filter f))
               = branded_param_of f).
  { apply query_param_suffix, run_path_no_query. reflexivity. }
  assert (Hg : query_param "branded"
                 (getGapAnalysis runId (branded_of_filter f))
               = branded_param_of f).
  { apply query_param_suffix, run_path_no_query. reflexivity. }
  assert (Hc : query_param "branded"
                 (getCompetitorAnalysis runId (branded_of_filter f))
               = branded_param_of f).
  { apply query_param_suffix, run_path_no_query. reflexivity. }
  assert (Hm : query_param "branded"
                 (getMentionRatesBySource (branded_of_filter f))
               = branded_param_of f).
  { apply query_param_suffix. reflexivity. }
  assert (Hd : query_param "branded"
                 (getDashboardStatsFiltered (branded_of_filter f))
               = branded_param_of f).
  { apply query_param_suffix. reflexivity. }
  pose proof (query_param_time_series days f) as Ht.
  pose proof (query_param_citations runId) as Hcit.
  split; [|split; [exact Hcit|]].
  - repeat constructor; apply carries_filter_intro; assumption.
  - unfold AnalysisPage.loadAnalysis, GapsPage.loadAnalysis,
      CompetitorsPage.loadAnalysis, TrendsPage.loadData,
      DashboardPage.loadFilteredData.
    cbn [map]. rewrite Hs, Hg, Hc, Ht, Hm, Hd, Hcit.
    repeat split; reflexivity.
Qed.

End BrandedFilterFacts.

(** ** fetchWithAuth *)

Section FetchWithAuthFacts.
Import JS Api.

Lemma dict_get_remove_same (k : string) (d : Dict) :
  dict_get k (dict_remove k d) = None.
Proof.
  induction d as [|[k' v] d IH]; simpl; [reflexivity|].
  destruct (String.eqb k' k) eqn:E; simpl; [exact IH|].
  rewrite E. exact IH.
Qed.

Lemma dict_get_remove_other (k k' : string) (d : Dict) :
  k <> k' -> dict_get k (dict_remove k' d) = dict_get k d.
Proof.
  intros Hk.
  induction d as [|[k0 v] d IH]; simpl; [reflexivity|].
  destruct (String.eqb k0 k') eqn:E; simpl.
  - apply String.eqb_eq in E. subst k0.
    destruct (String.eqb k' k) eqn:E'; [|exact IH].
    apply String.eqb_eq in E'. congruence.
  - rewrite IH. reflexivity.
Qed.

Lemma logged_out_storage (w : Browser) :
  dict_get "token" (localStorage (logged_out w)) = None /\
  dict_get "user" (localStorage (logged_out w)) = None /\
  forall k, k <> "token" -> k <> "user" ->
    dict_get k (localStorage (logged_out w)) = dict_get k (localStorage w).
Proof.
  unfold logged_out; cbn [localStorage].
  split; [|split].
  - rewrite dict_get_remove_other by discriminate.
    apply dict_get_remove_same.
  - apply dict_get_remove_same.
  - intros k Ht Hu. rewrite !dict_get_remove_other by assumption.
    reflexivity.
Qed.

(** C8. A call through [fetchWithAuth] in the browser, with the options the
    API functions pass: the request goes to the endpoint under the API base
    and carries [Authorization: Bearer <token>] exactly when a (non-empty)
    token is stored; the response is handed back as [fetch] returned it; on
    status 401 the ['token'] and ['user'] entries are gone from
    [localStorage] (the other entries are kept) and the location is
    [/login]; on any other status the browser state is untouched. *)
Theorem fetchWithAuth_spec (base : string) (fetch : Request -> Response)
    (w : Browser) (endpoint : string) (m b : option string) :
  let r := fetchWithAuth base fetch (Some w) endpoint (api_options m b) in
  req_url (sent r) = base ++ endpoint /\
  dict_get "Authorization" (headers (req_init (sent r))) =
    option_map (fun t => "Bearer " ++ t) (stored_token w) /\
  (dict_get "Authorization" (headers (req_init (sent r))) <> None <->
     stored_token w <> None) /\
  settled r = ok (fetch (sent r)) /\
  (status (fetch (sent r)) = 401%Z ->
     window_after r = Some (logged_out w) /\
     dict_get "token" (localStorage (logged_out w)) = None /\
     dict_get "user" (localStorage (logged_out w)) = None /\
     location_href (logged_out w) = "/login") /\
  (status (fetch (sent r)) <> 401%Z -> window_after r = Some w).
Proof.
  assert (Hh : dict_get "Authorization"
                 (auth_headers (getToken (Some w)) (api_options m b)) =
               option_map (fun t => "Bearer " ++ t) (stored_token w)).
  { unfold stored_token, getToken, auth_headers.
    destruct (dict_get "token" (localStorage w)) as [[|c t]|]; reflexivity. }
  unfold fetchWithAuth.
  set (request := {| req_url := base ++ endpoint; req_init := _ |}).
  assert (Hsent : forall x y z,
    sent (if (status (fetch request) =? 401)%Z
          then {| sent := request; settled := x; window_after := y |}
          else {| sent := request; settled := ok (fetch request);
                  window_after := z |}) = request).
  { intros. destruct (status (fetch request) =? 401)%Z; reflexivity. }
  cbv zeta. rewrite Hsent.
  split; [reflexivity|]. split; [exact Hh|]. split.
  { cbn [req_init request headers]. rewrite Hh.
    destruct (stored_token w); simpl; split; intros H; congruence. }
  destruct (status (fetch request) =? 401)%Z eqn:E.
  - apply Z.eqb_eq in E. split; [reflexivity|]. split.
    + intros _. split; [reflexivity|].
      destruct (logged_out_storage w) as (Ht & Hu & _).
      repeat split; assumption.
    + intros H. contradiction.
  - apply Z.eqb_neq in E. split; [reflexivity|]. split.
    + intros H. contradiction.
    + intros _. reflexivity.
Qed.

End FetchWithAuthFacts.

(** ** parseInt reads back what a template literal prints *)

Section ParseIntFacts.
Import JS.

Lemma parse_digits_acc (u : Decimal.uint) (p : positive) :
  parse_digits 10 (Some (N.pos p)) (NilEmpty.string_of_uint u)
  = Some (N.pos (Pos.of_uint_acc u p)).
Proof.
  revert p.
  induction u; intros p; cbn [NilEmpty.string_of_uint parse_digits Pos.of_uint_acc];
    [reflexivity| ..];
    match goal with
    | |- context [digit_value 10 ?c] =>
        let v := eval vm_compute in (digit_value 10 c) in
        change (digit_value 10 c) with v
    end;
    cbv iota beta;
    match goal with
    | |- parse_digits 10 (Some ?a) _ = Some (N.pos (Pos.of_uint_acc _ ?q)) =>
        replace a with (N.pos q) by lia
    end;
    apply IHu.
Qed.

Lemma parse_digits_zero (u : Decimal.uint) :
  parse_digits 10 (Some 0%N) (NilEmpty.string_of_uint u)
  = Some (Pos.of_uint u).
Proof.
  induction u; cbn [NilEmpty.string_of_uint parse_digits Pos.of_uint];
    [reflexivity| ..];
    match goal with
    | |- context [digit_value 10 ?c] =>
        let v := eval vm_compute in (digit_value 10 c) in
        change (digit_value 10 c) with v
    end;
    cbv iota beta;
    [exact IHu | ..];
    match goal with
    | |- parse_digits 10 (Some ?a) _ = _ =>
        let v := eval vm_compute in a in change a with v
    end;
    rewrite parse_digits_acc; reflexivity.
Qed.

Lemma parse_digits_uint (u : Decimal.uint) :
  u <> Decimal.Nil ->
  parse_digits 10 None (NilEmpty.string_of_uint u) = Some (Pos.of_uint u).
Proof.
  destruct u; intros Hu; [congruence| ..];
    cbn [NilEmpty.string_of_uint parse_digits Pos.of_uint];
    match goal with
    | |- context [digit_value 10 ?c] =>
        let v := eval vm_compute in (digit_value 10 c) in
        change (digit_value 10 c) with v
    end;
    cbv iota beta;
    [apply parse_digits_zero | ..];
    rewrite parse_digits_acc; reflexivity.
Qed.

(** A rendered unsigned number has no sign, no leading space and no [0x]
    prefix, so [parseInt] reads its digits in radix 10. *)
Lemma parseInt_uint (negative : bool) (u : Decimal.uint) :
  u <> Decimal.Nil ->
  parseInt ((if negative then "-" else "") ++ NilEmpty.string_of_uint u)
  = to_double (if negative then - Z.of_N (Pos.of_uint u)
               else Z.of_N (Pos.of_uint u)).
Proof.
  intros Hu.
  pose proof (parse_digits_uint u Hu) as Hd.
  assert (Hplain :
    match parse_digits 10 None (NilEmpty.string_of_uint u) with
    | Some v => to_double (if negative then - Z.of_N v else Z.of_N v)
    | None => NaN
    end = to_double (if negative then - Z.of_N (Pos.of_uint u)
                     else Z.of_N (Pos.of_uint u))).
  { rewrite Hd. reflexivity. }
  destruct negative;
    (destruct u as [|u|u|u|u|u|u|u|u|u|u]; [congruence| ..];
     try exact Hplain;
     destruct u; exact Hplain).
Qed.

(** The digits of a whole number read back as the double nearest to it. *)
Lemma parseInt_show_number (n : Z) : parseInt (show_number n) = to_double n.
Proof.
  unfold show_number.
  destruct n as [|p|p]; [reflexivity| |]; cbn [Z.to_int NilZero.string_of_int].
  - pose proof (Unsigned.to_uint_nonnil p) as Hp.
    assert (E : NilZero.string_of_uint (Pos.to_uint p)
                = NilEmpty.string_of_uint (Pos.to_uint p)).
    { destruct (Pos.to_uint p); [congruence|reflexivity..]. }
    rewrite E.
    pose proof (parseInt_uint false _ Hp) as H. cbn [append] in H.
    rewrite H, Unsigned.of_to. reflexivity.
  - pose proof (Unsigned.to_uint_nonnil p) as Hp.
    assert (E : NilZero.string_of_uint (Pos.to_uint p)
                = NilEmpty.string_of_uint (Pos.to_uint p)).
    { destruct (Pos.to_uint p); [congruence|reflexivity..]. }
    rewrite E.
    pose proof (parseInt_uint true _ Hp) as H. cbn [append] in H.
    rewrite H, Unsigned.of_to. reflexivity.
Qed.

(** Below 2^53 in size, a printed whole number reads back as itself. *)
Lemma parseInt_to_string_safe (z : Z) :
  (- 2 ^ 53 < z < 2 ^ 53)%Z -> parseInt (to_string (Int z)) = Int z.
Proof.
  intros H. rewrite to_string_safe by exact H.
  rewrite parseInt_show_number. apply to_double_safe. lia.
Qed.

End ParseIntFacts.

(** ** The run selector *)

Section RunSelectorFacts.
Import JS RunSelector.

Lemma completed_runs_only (runs : list QueryRun) :
  Forall (fun r => status r = "completed") (filter is_completed runs).
Proof.
  apply Forall_forall. intros r Hr.
  apply filter_In in Hr as [_ Hc].
  apply String.eqb_eq. exact Hc.
Qed.

Lemma StronglySorted_filter {A} (R : A -> A -> Prop) (f : A -> bool) (l : list A) :
  StronglySorted R l -> StronglySorted R (filter f l).
Proof.
  induction 1 as [|a l Hs IH Ha]; simpl; [constructor|].
  destruct (f a); [|exact IH].
  constructor; [exact IH|].
  apply Forall_forall. intros x Hx.
  apply filter_In in Hx as [Hx _].
  rewrite Forall_forall in Ha. apply Ha, Hx.
Qed.

Lemma newest_completed_first (runs : list QueryRun) (first : QueryRun)
    (rest : list QueryRun) :
  newest_first runs ->
  filter is_completed runs = first :: rest ->
  Forall (fun r => String.leb (created_at r) (created_at first) = true) rest.
Proof.
  intros Hs Hf.
  pose proof (StronglySorted_filter _ is_completed _ Hs) as H.
  rewrite Hf in H. inversion H; subst. assumption.
Qed.

Lemma queryRuns_load (p : Page) (run : option string)
    (runs : list QueryRun) (client : Client) :
  queryRuns (load p run (ok (runs, client))) = filter is_completed runs.
Proof.
  unfold load, loadInitialData.
  match goal with
  | |- context [if ?c then _ else _] => destruct c
  end; [reflexivity|].
  unfold analysis_effect.
  match goal with
  | |- context [match ?c with Some _ => _ | None => _ end] => destruct c
  end; reflexivity.
Qed.

Lemma mount_unselected (p : Page) (run : option string) :
  truthy_selection (initial_selectedRunId run) = None ->
  mount p run =
    request [Api.getQueryRuns 20 0; Api.getCurrentClient] (initial run).
Proof.
  intros H. unfold mount, analysis_effect. cbn [selectedRunId request initial].
  rewrite H. reflexivity.
Qed.

Lemma mount_selected (p : Page) (run : option string) (n : intnum) :
  truthy_selection (initial_selectedRunId run) = Some n ->
  requests (mount p run) =
    ([Api.getQueryRuns 20 0; Api.getCurrentClient]
       ++ loadAnalysis p n Api.all)%list.
Proof.
  intros H. unfold mount, analysis_effect. cbn [selectedRunId request initial].
  rewrite H. reflexivity.
Qed.

Lemma truthy_selection_value (sel : Nullable intnum) (n : intnum) :
  truthy_selection sel = Some n -> sel = value n.
Proof.
  destruct sel as [| |[|z|b]]; simpl; try discriminate.
  - destruct (Z.eqb_spec z 0); [discriminate|]. intros [= <-]. reflexivity.
  - intros [= <-]. reflexivity.
Qed.

Lemma truthy_selection_number (n : intnum) :
  n <> NaN -> n <> Int 0 -> truthy_selection (value n) = Some n.
Proof.
  intros Hnan Hzero. destruct n as [|z|b]; simpl; [congruence| |reflexivity].
  destruct (Z.eqb_spec z 0); [subst; congruence|reflexivity].
Qed.

Lemma same_selection_refl (sel : Nullable intnum) : same_selection sel sel = true.
Proof.
  destruct sel as [| |[|z|b]]; simpl; try reflexivity.
  - apply Z.eqb_refl.
  - destruct b; reflexivity.
Qed.

(** C9. (1) Whatever the URL, the selector lists exactly the completed runs
    of the server's answer. (2) Without a [run] parameter no analysis
    request leaves the page before [loadInitialData] has selected a run: the
    completed run that comes first in the server's answer is selected and
    analysis is then requested for it; the page does not sort, so this is
    the most recent completed run only when the answer lists the runs
    newest first. With no completed run nothing is selected or requested.
    (3) A [run] parameter that [parseInt] reads as a number [n] other than
    [NaN] and 0 is analysed on mount and stays selected, whatever the list
    of runs contains. (4) [n] is the double nearest to the digits of the
    parameter: an id below 2^53 in size is read back as printed, while
    99999999999999999999999 is requested as [1e+23]. *)
Theorem run_selector_spec (p : Page) (runs : list QueryRun) (client : Client) :
  let data := ok (runs, client) in
  (forall run,
     queryRuns (load p run data) = filter is_completed runs /\
     Forall (fun r => status r = "completed") (queryRuns (load p run data))) /\
  (requests (mount p None) = [Api.getQueryRuns 20 0; Api.getCurrentClient] /\
   match filter is_completed runs with
   | [] =>
       selectedRunId (load p None data) = null /\
       requests (load p None data) = requests (mount p None)
   | first :: rest =>
       selectedRunId (load p None data) = value (Int (id first)) /\
       requests (load p None data) =
         (requests (mount p None) ++
          if (id first =? 0)%Z then [] else loadAnalysis p (id first) Api.all)%list /\
       (newest_first runs ->
        Forall (fun r => String.leb (created_at r) (created_at first) = true)
               rest)
   end) /\
  (forall (r : string) (n : intnum),
     parseInt r = n -> n <> NaN -> n <> Int 0 ->
     requests (mount p (Some r)) =
       ([Api.getQueryRuns 20 0; Api.getCurrentClient]
          ++ loadAnalysis p n Api.all)%list /\
     selectedRunId (load p (Some r) data) = value n /\
     requests (load p (Some r) data) = requests (mount p (Some r))) /\
  (forall n : Z,
     (- 2 ^ 53 < n < 2 ^ 53)%Z -> parseInt (to_string (Int n)) = Int n) /\
  requests (load gaps_page (Some "99999999999999999999999") data) =
    ["/queries/runs?limit=20&offset=0"; "/clients/current";
     "/analysis/runs/1e+23/gaps"].
Proof.
  cbv zeta.
  assert (Hurl : forall (r : string) (n : intnum) (q : Page),
     parseInt r = n -> n <> NaN -> n <> Int 0 ->
     requests (mount q (Some r)) =
       ([Api.getQueryRuns 20 0; Api.getCurrentClient]
          ++ loadAnalysis q n Api.all)%list /\
     selectedRunId (load q (Some r) (ok (runs, client))) = value n /\
     requests (load q (Some r) (ok (runs, client)))
       = requests (mount q (Some r))).
  { intros r n q Hr Hnan Hzero.
    assert (Hsel : truthy_selection (initial_selectedRunId (Some r)) = Some n).
    { unfold initial_selectedRunId.
      destruct r as [|c r]; [cbn in Hr; congruence|].
      cbn [truthy_string]. rewrite Hr.
      apply truthy_selection_number; assumption. }
    assert (Hini : initial_selectedRunId (Some r) = value n).
    { apply truthy_selection_value in Hsel. exact Hsel. }
    assert (Hms : selectedRunId (mount q (Some r)) = value n).
    { unfold mount, analysis_effect. cbn [selectedRunId request initial].
      rewrite Hsel. cbn [request selectedRunId]. exact Hini. }
    split; [exact (mount_selected q (Some r) n Hsel)|].
    unfold load, loadInitialData. rewrite Hsel.
    rewrite same_selection_refl. cbn [selectedRunId requests].
    split; [exact Hms|reflexivity]. }
  split; [|split; [|split; [|split]]].
  - intros run. rewrite queryRuns_load. split; [reflexivity|].
    apply completed_runs_only.
  - split; [reflexivity|].
    unfold load. rewrite mount_unselected by reflexivity.
    unfold loadInitialData.
    cbn [initial_selectedRunId truthy_selection].
    destruct (filter is_completed runs) as [|first rest] eqn:Hf.
    + split; reflexivity.
    + cbn [selectedRunId request initial initial_selectedRunId same_selection].
      unfold analysis_effect. cbn [selectedRunId truthy_selection].
      destruct (id first =? 0)%Z; cbn [requests request selectedRunId brandedFilter initial];
        (split; [reflexivity|]); (split; [reflexivity|]);
        intros Hs; exact (newest_completed_first runs first rest Hs Hf).
  - intros r n. apply Hurl.
  - exact parseInt_to_string_safe.
  - assert (Hp : parseInt "99999999999999999999999"
                 = Int 99999999999999991611392).
    { vm_compute. reflexivity. }
    destruct (Hurl _ _ gaps_page Hp ltac:(discriminate) ltac:(discriminate))
      as (Hm & _ & Hl).
    rewrite Hl, Hm. vm_compute. reflexivity.
Qed.

(** C9, the order of the list decides. The server's answer lists an older
    completed run before a newer completed one: the older run is selected
    and analysed, on each of the three pages. *)
Theorem first_listed_run_selected :
  let older := {| id := 1; name := None; status := "completed";
                  created_at := "2025-01-01T10:00:00" |} in
  let newer := {| id := 2; name := None; status := "completed";
                  created_at := "2025-02-01T10:00:00" |} in
  let data := ok ([older; newer], {| brand_name := "Acme" |}) in
  String.leb (created_at newer) (created_at older) = false /\
  Forall (fun p =>
            queryRuns (load p None data) = [older; newer] /\
            selectedRunId (load p None data) = value (Int (id older)) /\
            selectedRunId (load p None data) <> value (Int (id newer)) /\
            requests (load p None data) =
              ([Api.getQueryRuns 20 0; Api.getCurrentClient]
                 ++ loadAnalysis p (id older) Api.all)%list)
         [analysis_page; gaps_page; competitors_page].
Proof.
  cbv zeta. split; [reflexivity|].
  repeat constructor; discriminate.
Qed.

End RunSelectorFacts.

(** ** Progress arithmetic of the generator page *)

Section ProgressFacts.
Import JS GeneratorPage.

Lemma Qzero_inject_Z (z : Z) : Qzero (inject_Z z) = (z =? 0)%Z.
Proof.
  unfold Qzero, Qeq_bool. simpl. rewrite Z.mul_1_r.
  destruct z; reflexivity.
Qed.

Lemma progress_percent_safe (completed total : Z) :
  (- 2 ^ 53 <= completed <= 2 ^ 53)%Z -> (- 2 ^ 53 <= total <= 2 ^ 53)%Z ->
  total <> 0%Z ->
  progress_percent completed total =
    number_mul (Number_of (inject_Z completed / inject_Z total))
               (finite (inject_Z 100)).
Proof.
  intros Hc Ht Hne. unfold progress_percent, number_of_Z.
  rewrite !Number_of_safe by lia. cbn [number_div].
  rewrite Qzero_inject_Z.
  destruct (Z.eqb_spec total 0) as [E|_]; [contradiction|reflexivity].
Qed.

(** With a positive total (a count below 2^53, as every count of calls is)
    and a count between 0 and the total, the progress is a finite
    percentage between 0 and 100. *)
Lemma progress_percent_in_range (completed total : Z) :
  (0 < total <= 2 ^ 53)%Z -> (0 <= completed <= total)%Z ->
  exists q, progress_percent completed total = finite q /\
            (0 <= q)%Q /\ (q <= 100)%Q.
Proof.
  intros Ht [Hc0 Hct].
  rewrite progress_percent_safe by lia.
  assert (Htq : (0 < inject_Z total)%Q).
  { change (inject_Z 0 < inject_Z total)%Q. rewrite <- Zlt_Qlt. lia. }
  assert (H0 : (0 <= inject_Z completed / inject_Z total)%Q).
  { apply Qle_shift_div_l; [exact Htq|].
    rewrite Qmult_0_l. change (inject_Z 0 <= inject_Z completed)%Q.
    rewrite <- Zle_Qle. exact Hc0. }
  assert (H1 : (inject_Z completed / inject_Z total <= 1)%Q).
  { apply Qle_shift_div_r; [exact Htq|].
    rewrite Qmult_1_l. rewrite <- Zle_Qle. exact Hct. }
  destruct (Number_of_between _ 0 1 ltac:(lia) ltac:(lia) H0 H1)
    as (r & E & L & U).
  rewrite E. cbn [number_mul].
  apply (Number_of_between _ 0 100); try lia.
  - apply Qmult_le_0_compat; [exact L|]. discriminate.
  - setoid_replace (inject_Z 100) with (1 * inject_Z 100)%Q at 2
      by reflexivity.
    apply Qmult_le_compat_r; [exact U|]. discriminate.
Qed.

Lemma progress_percent_none (total : Z) :
  (0 < total <= 2 ^ 53)%Z -> progress_percent 0 total = finite 0.
Proof.
  intros Ht. rewrite progress_percent_safe by lia.
  assert (D : (inject_Z 0 / inject_Z total == inject_Z 0)%Q).
  { unfold Qdiv. change (inject_Z 0) with 0%Q. ring. }
  rewrite (Number_of_comp _ _ D), Number_of_safe by lia.
  cbn [number_mul].
  assert (M : (inject_Z 0 * inject_Z 100 == inject_Z 0)%Q) by reflexivity.
  rewrite (Number_of_comp _ _ M). apply Number_of_safe. lia.
Qed.

Lemma progress_percent_full (total : Z) :
  (0 < total <= 2 ^ 53)%Z -> progress_percent total total = finite 100.
Proof.
  intros Ht. rewrite progress_percent_safe by lia.
  assert (Htq : (0 < inject_Z total)%Q).
  { change (inject_Z 0 < inject_Z total)%Q. rewrite <- Zlt_Qlt. lia. }
  assert (D : (inject_Z total / inject_Z total == inject_Z 1)%Q).
  { change (inject_Z 1) with 1%Q. field. lra. }
  rewrite (Number_of_comp _ _ D), Number_of_safe by lia.
  cbn [number_mul].
  assert (M : (inject_Z 1 * inject_Z 100 == inject_Z 100)%Q) by reflexivity.
  rewrite (Number_of_comp _ _ M). apply Number_of_safe. lia.
Qed.

(** C2. The progress computation has no guard for a zero total: for a status
    object with [total_queries = 0] it yields [NaN] when nothing is completed
    and [Infinity] otherwise, not 0; [tick] stores that value in [progress]
    unchanged. *)
Theorem progress_percent_zero_total :
  progress_percent 0 0 = nan /\
  progress_percent 3 0 = infinity false /\
  progress_percent 0 0 <> finite 0 /\
  forall (s : State) (runId : Z) (runs : result (list QueryRun)),
    progress
      (tick (ok {| id := runId; name := None; status := "running";
                   total_queries := 0; completed_queries := 0;
                   created_at := "" |})
            runs
            {| client := client s; customQueries := customQueries s;
               queryRuns := queryRuns s; running := true;
               activeRunId := value runId; progress := finite 0;
               interval := Some runId; calls := calls s |})
    = nan.
Proof.
  split; [reflexivity|]. split; [reflexivity|]. split; [discriminate|].
  intros s runId runs. reflexivity.
Qed.

End ProgressFacts.

(** ** The orchestrator's progress contract *)

Section OrchestratorFacts.
Import Orchestrator.







End OrchestratorFacts.

Section RunProgress.
Import JS Orchestrator.






End RunProgress.

(** ** Polling on the generator page *)

Section PollingFacts.
Import JS GeneratorPage.

Lemma status_requests_call (runId : Z) (c : Call) (s : State) :
  status_requests runId (call c s) =
  status_requests runId s +
  match c with
  | getQueryRunStatus r => if (r =? runId)%Z then 1 else 0
  | _ => 0
  end.
Proof.
  unfold status_requests, call; cbn [calls].
  rewrite filter_app, length_app. f_equal.
  destruct c; try reflexivity. simpl.
  destruct (runId0 =? runId)%Z; reflexivity.
Qed.

Lemma ticks_idle (answers : list (result QueryRun * result (list QueryRun)))
    (s : State) :
  interval s = None -> ticks answers s = s.
Proof.
  intros H. induction answers as [|[a r] answers IH]; simpl; [reflexivity|].
  unfold tick at 1. rewrite H. exact IH.
Qed.

Lemma is_terminal_status_name (st : Orchestrator.Status) :
  is_terminal (Orchestrator.status_name st) = Orchestrator.terminal st.
Proof. destruct st; reflexivity. Qed.

Lemma tick_terminal (s : State) (runId : Z) (st : QueryRun)
    (runs : result (list QueryRun)) :
  interval s = Some runId -> activeRunId s = value runId ->
  is_terminal (status st) = true ->
  interval (tick (ok st) runs s) = None /\
  activeRunId (tick (ok st) runs s) = null /\
  running (tick (ok st) runs s) = false /\
  status_requests runId (tick (ok st) runs s) = S (status_requests runId s).
Proof.
  intros Hi Ha Ht. unfold tick. rewrite Hi, Ht.
  unfold loadQueryRuns.
  destruct runs as [l|msg];
    cbn [interval activeRunId running set_queryRuns call set_running
         setActiveRunId set_progress];
    rewrite Ha; cbn [same_run polling_effect];
    (split; [reflexivity|]); (split; [reflexivity|]); (split; [reflexivity|]);
    unfold status_requests;
    cbn [calls set_queryRuns call set_running setActiveRunId set_progress];
    rewrite !filter_app, !length_app; simpl; rewrite Z.eqb_refl; simpl; lia.
Qed.

Lemma tick_continue (s : State) (runId : Z) (answer : result QueryRun)
    (runs : result (list QueryRun)) :
  interval s = Some runId ->
  observed_terminal answer = false ->
  interval (tick answer runs s) = Some runId /\
  activeRunId (tick answer runs s) = activeRunId s /\
  running (tick answer runs s) = running s /\
  status_requests runId (tick answer runs s) = S (status_requests runId s).
Proof.
  intros Hi Ho. unfold tick. rewrite Hi.
  destruct answer as [st|msg]; simpl in Ho; [rewrite Ho|];
    cbn [interval activeRunId running call set_progress];
    (split; [exact Hi|]); (split; [reflexivity|]); (split; [reflexivity|]);
    unfold status_requests; cbn [calls call set_progress];
    rewrite !filter_app, !length_app; simpl; rewrite Z.eqb_refl; simpl; lia.
Qed.

(** Starting a run from an idle page installs the interval for its id. *)
Lemma handleRunPredefined_starts_polling (s : State) (c : Client)
    (run : QueryRun) :
  client s = Some c -> activeRunId s = null -> (id run <> 0)%Z ->
  let s' := handleRunPredefined (ok run) s in
  interval s' = Some (id run) /\ activeRunId s' = value (id run) /\
  running s' = true.
Proof.
  intros Hc Ha Hid. unfold handleRunPredefined. rewrite Hc.
  cbn [interval activeRunId running setActiveRunId call set_progress
       set_running].
  rewrite Ha. cbn [same_run polling_effect].
  destruct (Z.eqb_spec (id run) 0); [contradiction|].
  repeat split; reflexivity.
Qed.

(** C5. (1) Server side: every event leaves the status of a run as it is or
    moves it along pending -> running -> {completed | failed}, a terminal run
    never changes again, and the page's test for a terminal status agrees
    with the server's. (2) Client side: each firing of the polling interval
    issues one status request; the interval is cleared exactly when the
    fetched status is 'completed' or 'failed', and then [activeRunId] is
    null, [running] is false and no later firing issues a status request;
    after any other answer (another status, or a failed request) polling
    goes on for the same run. *)
Theorem polling_stops_at_terminal_status
    (r : Orchestrator.QueryRun) (e : Orchestrator.Event)
    (s : State) (runId : Z) (answer : result QueryRun)
    (runs : result (list QueryRun))
    (later : list (result QueryRun * result (list QueryRun))) :
  (Orchestrator.status (Orchestrator.step r e) = Orchestrator.status r \/
   Orchestrator.transition (Orchestrator.status r)
                           (Orchestrator.status (Orchestrator.step r e))) /\
  (Orchestrator.terminal (Orchestrator.status r) = true ->
   forall events, Orchestrator.run_events r events = r) /\
  (forall st, is_terminal (Orchestrator.status_name st) = Orchestrator.terminal st) /\
  (interval s = Some runId -> activeRunId s = value runId ->
   let s' := tick answer runs s in
   status_requests runId s' = S (status_requests runId s) /\
   (interval s' = None <-> observed_terminal answer = true) /\
   (observed_terminal answer = true ->
      activeRunId s' = null /\ running s' = false /\
      status_requests runId (ticks later s') = status_requests runId s') /\
   (observed_terminal answer = false ->
      interval s' = Some runId /\ activeRunId s' = value runId /\
      running s' = running s)).
Proof.
  split.
  { unfold Orchestrator.step.
    destruct e as [|success]; destruct (Orchestrator.status r) eqn:Hs;
      rewrite ?Hs; cbn [Orchestrator.status]; rewrite ?Hs;
      try (left; reflexivity).
    - right; constructor.
    - destruct (S (Orchestrator.completed_queries r)
                  =? Orchestrator.total_queries r)%nat; [|left; reflexivity].
      match goal with
      | |- context [if ?c then _ else _] => destruct c
      end; right; constructor. }
  split.
  { intros Ht events. induction events as [|ev events IH]; [reflexivity|].
    unfold Orchestrator.run_events in *. cbn [fold_left].
    assert (Hstep : Orchestrator.step r ev = r).
    { unfold Orchestrator.step.
      destruct ev, (Orchestrator.status r); try reflexivity; discriminate Ht. }
    rewrite Hstep. exact IH. }
  split; [exact is_terminal_status_name|].
  intros Hi Ha. cbv zeta.
  destruct (observed_terminal answer) eqn:Ho.
  - destruct answer as [st|msg]; [|discriminate Ho]. simpl in Ho.
    destruct (tick_terminal s runId st runs Hi Ha Ho) as (H1 & H2 & H3 & H4).
    split; [exact H4|]. split; [tauto|]. split.
    + intros _. split; [exact H2|]. split; [exact H3|].
      rewrite (ticks_idle later _ H1). reflexivity.
    + discriminate.
  - destruct (tick_continue s runId answer runs Hi Ho) as (H1 & H2 & H3 & H4).
    split; [exact H4|]. split.
    + rewrite H1. split; discriminate.
    + split; [discriminate|]. intros _.
      split; [exact H1|]. split; [rewrite H2; exact Ha|exact H3].
Qed.

End PollingFacts.

(** ** The leaderboard of the competitors page *)

Section LeaderboardFacts.
Import JS CompetitorsPage.

Lemma Qpositive_true (q : Q) : Qpositive q = true <-> (0 < q)%Q.
Proof.
  unfold Qpositive. rewrite negb_true_iff.
  split.
  - intros H. apply Qnot_le_lt. intros Hle.
    apply Qle_bool_iff in Hle. congruence.
  - intros H. destruct (Qle_bool q 0) eqn:E; [|reflexivity].
    apply Qle_bool_iff in E. exfalso. exact (Qlt_not_le _ _ H E).
Qed.

Lemma Qpositive_false (q : Q) : Qpositive q = false <-> (q <= 0)%Q.
Proof.
  unfold Qpositive. rewrite negb_false_iff. apply Qle_bool_iff.
Qed.

Lemma by_mention_rate_positive (a b : CompetitorData) :
  Qpositive (by_mention_rate a b) = true <->
  (mention_rate a < mention_rate b)%Q.
Proof.
  rewrite Qpositive_true. unfold by_mention_rate.
  rewrite <- (Qlt_minus_iff (mention_rate a) (mention_rate b)). reflexivity.
Qed.

Lemma by_mention_rate_nonpositive (a b : CompetitorData) :
  Qpositive (by_mention_rate a b) = false <->
  (mention_rate b <= mention_rate a)%Q.
Proof.
  rewrite Qpositive_false. unfold by_mention_rate.
  split; intros H.
  - apply Qle_minus_iff in H. apply Qle_minus_iff.
    setoid_replace (mention_rate a + - mention_rate b)%Q
      with (0 + - (mention_rate b + - mention_rate a))%Q by ring.
    exact H.
  - apply Qle_minus_iff. apply Qle_minus_iff in H.
    setoid_replace (0 + - (mention_rate b + - mention_rate a))%Q
      with (mention_rate a + - mention_rate b)%Q by ring.
    exact H.
Qed.

Lemma sort_insert_perm (x : CompetitorData) (l : list CompetitorData) :
  Permutation (sort_insert by_mention_rate x l) (x :: l).
Proof.
  induction l as [|y r IH]; simpl; [apply Permutation_refl|].
  destruct (Qpositive (by_mention_rate x y)); [|apply Permutation_refl].
  eapply perm_trans; [apply perm_skip, IH|apply perm_swap].
Qed.

Lemma sort_perm (l : list CompetitorData) :
  Permutation (sort by_mention_rate l) l.
Proof.
  induction l as [|x r IH]; simpl; [constructor|].
  eapply perm_trans; [apply sort_insert_perm|apply perm_skip, IH].
Qed.

Lemma sort_insert_descending (x : CompetitorData) (l : list CompetitorData) :
  descending_rate l -> descending_rate (sort_insert by_mention_rate x l).
Proof.
  unfold descending_rate.
  induction 1 as [|y r Hs IH Hy]; simpl; [repeat constructor|].
  destruct (Qpositive (by_mention_rate x y)) eqn:E.
  - apply by_mention_rate_positive in E.
    constructor; [exact IH|].
    eapply Permutation_Forall;
      [apply Permutation_sym, sort_insert_perm|].
    constructor; [apply Qlt_le_weak, E|exact Hy].
  - apply by_mention_rate_nonpositive in E.
    constructor; [constructor; assumption|].
    constructor; [exact E|].
    apply Forall_forall. intros z Hz.
    rewrite Forall_forall in Hy.
    eapply Qle_trans; [apply Hy, Hz|exact E].
Qed.

Lemma sort_descending (l : list CompetitorData) :
  descending_rate (sort by_mention_rate l).
Proof.
  induction l as [|x r IH]; simpl; [constructor|].
  apply sort_insert_descending, IH.
Qed.

Lemma sort_insert_stable (q : Q) (x : CompetitorData) (l : list CompetitorData) :
  with_rate q (sort_insert by_mention_rate x l) = with_rate q (x :: l).
Proof.
  unfold with_rate.
  induction l as [|y r IH]; [reflexivity|].
  cbn [sort_insert].
  destruct (Qpositive (by_mention_rate x y)) eqn:E; [|reflexivity].
  apply by_mention_rate_positive in E.
  cbn [filter] in *. rewrite IH.
  destruct (Qeq_bool (mention_rate x) q) eqn:Ex; [|reflexivity].
  destruct (Qeq_bool (mention_rate y) q) eqn:Ey; [|reflexivity].
  apply Qeq_bool_iff in Ex, Ey. exfalso.
  rewrite Ex, Ey in E. exact (Qlt_irrefl _ E).
Qed.

Lemma sort_stable (q : Q) (l : list CompetitorData) :
  with_rate q (sort by_mention_rate l) = with_rate q l.
Proof.
  induction l as [|x r IH]; [reflexivity|].
  cbn [sort]. rewrite sort_insert_stable.
  unfold with_rate in *. cbn [filter]. rewrite IH. reflexivity.
Qed.

Lemma ranked_before_descending (a b : CompetitorData) :
  ranked_before a b = true -> (mention_rate b <= mention_rate a)%Q.
Proof.
  unfold ranked_before. intros H.
  apply orb_true_iff in H as [H|H].
  - apply negb_true_iff in H. apply Qlt_le_weak, Qnot_le_lt.
    intros Hle. apply Qle_bool_iff in Hle. congruence.
  - apply andb_true_iff in H as [H _]. apply Qeq_bool_iff in H.
    rewrite H. apply Qle_refl.
Qed.

Lemma leaderboard_order_descending (l : list CompetitorData) :
  leaderboard_order l -> descending_rate l.
Proof.
  unfold leaderboard_order, descending_rate.
  induction 1 as [|x r Hs IH Hx]; constructor; [exact IH|].
  eapply Forall_impl; [|exact Hx].
  intros b Hb. apply ranked_before_descending, Hb.
Qed.

(** A list that is already in descending order of rate is left as it is. *)
Lemma sort_descending_fixed (l : list CompetitorData) :
  descending_rate l -> sort by_mention_rate l = l.
Proof.
  unfold descending_rate.
  induction 1 as [|x r Hs IH Hx]; [reflexivity|].
  cbn [sort]. rewrite IH.
  destruct r as [|y r']; [reflexivity|].
  cbn [sort_insert].
  inversion Hx as [|? ? Hxy _]; subst.
  apply by_mention_rate_nonpositive in Hxy. rewrite Hxy. reflexivity.
Qed.

(** C3, as amended. The leaderboard is the stable sort of the comparison
    list by descending mention rate: it holds the same entries, in
    descending order of [mention_rate], and entries with the same rate keep
    the order in which the analysis lists them (no tie-break by mention count
    or name happens on the page). In particular a comparison list that
    arrives in leaderboard order (ties already broken by mention count, then
    name) is displayed unchanged. *)
Theorem sortedComparison_stable_by_rate (a : CompetitorAnalysis) :
  Permutation (sortedComparison (Some a)) (comparison a) /\
  descending_rate (sortedComparison (Some a)) /\
  (forall q,
     with_rate q (sortedComparison (Some a)) = with_rate q (comparison a)) /\
  (leaderboard_order (comparison a) ->
   sortedComparison (Some a) = comparison a).
Proof.
  unfold sortedComparison.
  split; [apply sort_perm|]. split; [apply sort_descending|].
  split; [intros q; apply sort_stable|].
  intros H. apply sort_descending_fixed, leaderboard_order_descending, H.
Qed.

(** C3, counterexample. Two entries with the same mention rate, listed with
    the lower mention count first, stay in that order: the rendered list is
    not in the specified leaderboard order. *)
Lemma sortedComparison_ties_not_broken :
  let acme := {| name := "Acme"; is_brand := true; mention_count := 1;
                 mention_rate := 50; first_third_rate := None;
                 positive_rate := None; unique_queries := None |} in
  let beta := {| name := "Beta"; is_brand := false; mention_count := 2;
                 mention_rate := 50; first_third_rate := None;
                 positive_rate := None; unique_queries := None |} in
  let analysis := {| query_run_id := 1; total_responses := 4;
                     comparison := [acme; beta];
                     win_loss := {| wl_wins := 0; ties := 0; losses := 0;
                                    neither := 0 |};
                     branded_count := 0; non_branded_count := 4;
                     filter_applied := "all" |} in
  sortedComparison (Some analysis) = [acme; beta] /\
  ~ leaderboard_order (sortedComparison (Some analysis)).
Proof.
  cbv zeta. split; [reflexivity|].
  intros H. change (sortedComparison _) with
    [ {| name := "Acme"; is_brand := true; mention_count := 1;
         mention_rate := 50; first_third_rate := None;
         positive_rate := None; unique_queries := None |};
      {| name := "Beta"; is_brand := false; mention_count := 2;
         mention_rate := 50; first_third_rate := None;
         positive_rate := None; unique_queries := None |} ] in H.
  inversion H as [|x l _ Hall]; subst.
  inversion Hall as [|y l' Hxy _]; subst.
  discriminate Hxy.
Qed.

End LeaderboardFacts.

(** ** Custom queries of the generator page *)

Section CustomQueriesFacts.
Import JS GeneratorPage.
Local Open Scope list_scope.

Lemma trimStart_blank (s : text) : blank s = true -> trimStart s = [].
Proof.
  induction s as [|c r IH]; simpl; [reflexivity|].
  intros H. apply andb_true_iff in H as [Hc Hr].
  rewrite Hc. exact (IH Hr).
Qed.

Lemma trimStart_nil (s : text) : trimStart s = [] -> blank s = true.
Proof.
  induction s as [|c r IH]; simpl; [reflexivity|].
  destruct (is_white_space c); [exact IH|discriminate].
Qed.

Lemma blank_rev (s : text) : blank (rev s) = blank s.
Proof.
  unfold blank. induction s as [|c r IH]; simpl; [reflexivity|].
  rewrite forallb_app, IH. simpl. rewrite andb_true_r. apply andb_comm.
Qed.

Lemma trimStart_head_clean (s : text) : head_clean (trimStart s) = true.
Proof.
  induction s as [|c r IH]; simpl; [reflexivity|].
  destruct (is_white_space c) eqn:E; [exact IH|].
  simpl. rewrite E. reflexivity.
Qed.

Lemma head_clean_trimStart (s : text) : head_clean s = true -> trimStart s = s.
Proof.
  destruct s as [|c r]; simpl; [reflexivity|].
  intros H. apply negb_true_iff in H. rewrite H. reflexivity.
Qed.

Lemma trimStart_blank_iff (s : text) : blank (trimStart s) = blank s.
Proof.
  induction s as [|c r IH]; simpl; [reflexivity|].
  destruct (is_white_space c) eqn:E; simpl; [exact IH|].
  rewrite E. reflexivity.
Qed.

Lemma trim_nil_iff (s : text) : trim s = [] <-> blank s = true.
Proof.
  unfold trim, trimEnd. split.
  - intros H.
    assert (H' : trimStart (rev (trimStart s)) = []).
    { destruct (trimStart (rev (trimStart s))) as [|x y]; [reflexivity|].
      simpl in H. destruct (rev y); discriminate H. }
    apply trimStart_nil in H'.
    rewrite blank_rev, trimStart_blank_iff in H'. exact H'.
  - intros H. rewrite (trimStart_blank s H). reflexivity.
Qed.

(** Trimming keeps a suffix of a text that ends in a clean code unit. *)
Lemma trimStart_snoc (x : text) (c : N) :
  is_white_space c = false ->
  exists y, trimStart (x ++ [c]) = y ++ [c].
Proof.
  intros Hc. induction x as [|a x IH]; simpl.
  - rewrite Hc. exists []. reflexivity.
  - destruct (is_white_space a); [exact IH|].
    exists (a :: x). reflexivity.
Qed.

Lemma trimEnd_head_clean (s : text) :
  head_clean s = true -> head_clean (trimEnd s) = true.
Proof.
  destruct s as [|c r]; [reflexivity|].
  simpl. intros H. apply negb_true_iff in H.
  unfold trimEnd. simpl.
  destruct (trimStart_snoc (rev r) c H) as [y Hy].
  rewrite Hy, rev_app_distr. simpl. rewrite H. reflexivity.
Qed.

Lemma trimStart_idem (s : text) : trimStart (trimStart s) = trimStart s.
Proof. apply head_clean_trimStart, trimStart_head_clean. Qed.

Lemma trimEnd_idem (s : text) : trimEnd (trimEnd s) = trimEnd s.
Proof.
  unfold trimEnd. rewrite rev_involutive, trimStart_idem. reflexivity.
Qed.

Lemma trim_trimStart (s : text) : trimStart (trim s) = trim s.
Proof.
  apply head_clean_trimStart. unfold trim.
  apply trimEnd_head_clean, trimStart_head_clean.
Qed.

Lemma trim_trimEnd (s : text) : trimEnd (trim s) = trim s.
Proof. unfold trim. apply trimEnd_idem. Qed.

Lemma trimStart_In (x : N) (s : text) : In x (trimStart s) -> In x s.
Proof.
  induction s as [|c r IH]; simpl; [tauto|].
  destruct (is_white_space c); [intros H; right; exact (IH H)|].
  simpl. tauto.
Qed.

Lemma trim_In (x : N) (s : text) : In x (trim s) -> In x s.
Proof.
  unfold trim, trimEnd. intros H.
  apply in_rev, trimStart_In in H. apply in_rev in H.
  exact (trimStart_In _ _ H).
Qed.

Lemma split_newline_nonempty (s : text) : split_newline s <> [].
Proof.
  induction s as [|c r IH]; simpl; [discriminate|].
  destruct (c =? 10)%N; [discriminate|].
  destruct (split_newline r); discriminate.
Qed.

Lemma split_newline_no_newline (s : text) :
  Forall (fun l => ~ In 10%N l) (split_newline s).
Proof.
  induction s as [|c r IH]; simpl.
  - constructor; [tauto|constructor].
  - destruct (N.eqb_spec c 10) as [E|E].
    + constructor; [simpl; tauto|exact IH].
    + destruct (split_newline r) as [|h t]; [constructor; [|constructor]|].
      * simpl. intros [H|[]]. congruence.
      * inversion IH as [|? ? Hh Ht]; subst.
        constructor; [|exact Ht].
        simpl. intros [H|H]; [congruence|exact (Hh H)].
Qed.

Lemma split_newline_blank (s : text) :
  blank s = true -> Forall (fun l => blank l = true) (split_newline s).
Proof.
  induction s as [|c r IH]; simpl.
  - intros _. constructor; [reflexivity|constructor].
  - intros H. apply andb_true_iff in H as [Hc Hr]. specialize (IH Hr).
    destruct (c =? 10)%N; [constructor; [reflexivity|exact IH]|].
    destruct (split_newline r) as [|h t];
      [constructor; [simpl; rewrite Hc; reflexivity|constructor]|].
    inversion IH as [|? ? Hh Ht]; subst.
    constructor; [simpl; rewrite Hc; exact Hh|exact Ht].
Qed.

Lemma custom_queries_keep_trimmed (lines : list text) :
  filter nonempty (map trim lines) = keep_trimmed lines.
Proof.
  induction lines as [|l rest IH]; simpl; [reflexivity|].
  destruct (trim l); simpl; rewrite IH; reflexivity.
Qed.

Lemma keep_trimmed_blank (lines : list text) :
  Forall (fun l => blank l = true) lines -> keep_trimmed lines = [].
Proof.
  induction 1 as [|l rest Hl _ IH]; simpl; [reflexivity|].
  apply trim_nil_iff in Hl. rewrite Hl. exact IH.
Qed.

Lemma keep_trimmed_clean (lines : list text) :
  Forall (fun l => ~ In 10%N l) lines ->
  Forall (fun q => q <> [] /\ trimStart q = q /\ trimEnd q = q /\ ~ In 10%N q)
         (keep_trimmed lines).
Proof.
  induction 1 as [|l rest Hl _ IH]; simpl; [constructor|].
  destruct (trim l) as [|c q] eqn:E; [exact IH|].
  constructor; [|exact IH].
  rewrite <- E. split; [rewrite E; discriminate|].
  split; [apply trim_trimStart|]. split; [apply trim_trimEnd|].
  intros H. exact (Hl (trim_In _ _ H)).
Qed.

(** C7. With the client loaded, [handleRunCustom] sends one run-creation
    request whose [queries] are exactly the trimmed non-empty lines of the
    text area, in their original order, and sends nothing when there is no
    such line; so a run-creation request always carries a non-empty list.
    Every submitted query is non-empty, has no white space at either end and
    contains no line break. Without a client nothing is sent. *)
Theorem handleRunCustom_submits (s : State) (now : string)
    (answer : result QueryRun) :
  let qs := trimmed_nonempty_lines (customQueries s) in
  calls (handleRunCustom now answer s) =
    match client s, qs with
    | Some c, _ :: _ => (calls s ++ [createQueryRun (custom_run c now qs)])%list
    | _, _ => calls s
    end /\
  Forall (fun q => q <> [] /\ trimStart q = q /\ trimEnd q = q /\ ~ In 10%N q) qs /\
  (forall data, In (createQueryRun data) (calls (handleRunCustom now answer s)) ->
     In (createQueryRun data) (calls s) \/ queries data <> []).
Proof.
  cbv zeta.
  assert (Hcalls :
    calls (handleRunCustom now answer s) =
    match client s, trimmed_nonempty_lines (customQueries s) with
    | Some c, _ :: _ =>
        (calls s ++ [createQueryRun
                       (custom_run c now
                          (trimmed_nonempty_lines (customQueries s)))])%list
    | _, _ => calls s
    end).
  { unfold handleRunCustom, trimmed_nonempty_lines, custom_queries.
    destruct (client s) as [c|]; [|reflexivity].
    rewrite custom_queries_keep_trimmed.
    destruct (nonempty (trim (customQueries s))) eqn:Hne; cbn [negb].
    - destruct (keep_trimmed (split_newline (customQueries s))) as [|q qs] eqn:Hk;
        [reflexivity|].
      cbn [List.length Nat.eqb].
      destruct answer as [run|msg]; reflexivity.
    - assert (Hb : blank (customQueries s) = true).
      { apply trim_nil_iff. destruct (trim (customQueries s));
          [reflexivity|discriminate Hne]. }
      rewrite (keep_trimmed_blank _ (split_newline_blank _ Hb)).
      reflexivity. }
  split; [exact Hcalls|]. split.
  - apply keep_trimmed_clean, split_newline_no_newline.
  - intros data Hin. rewrite Hcalls in Hin.
    destruct (client s) as [c|]; [|left; exact Hin].
    destruct (trimmed_nonempty_lines (customQueries s)) as [|q qs] eqn:Hq;
      [left; exact Hin|].
    apply in_app_or in Hin as [Hin|[Hin|[]]]; [left; exact Hin|].
    right. injection Hin as <-. discriminate.
Qed.

(** Submitting custom queries from an idle page installs the polling
    interval for the new run. *)
Lemma handleRunCustom_starts_polling (s : State) (c : Client)
    (now : string) (run : QueryRun) :
  client s = Some c -> activeRunId s = null -> (id run <> 0)%Z ->
  custom_queries (customQueries s) <> [] ->
  let s' := handleRunCustom now (ok run) s in
  interval s' = Some (id run) /\ activeRunId s' = value (id run) /\
  running s' = true /\ customQueries s' = [].
Proof.
  intros Hc Ha Hid Hq. unfold handleRunCustom. rewrite Hc.
  destruct (nonempty (trim (customQueries s))) eqn:Hne; cbn [negb].
  - destruct (custom_queries (customQueries s)) as [|q qs]; [contradiction|].
    cbn [List.length Nat.eqb interval activeRunId running customQueries
         set_customQueries setActiveRunId call set_progress set_running].
    rewrite Ha. cbn [same_run polling_effect].
    destruct (Z.eqb_spec (id run) 0); [contradiction|].
    repeat split; reflexivity.
  - exfalso. apply Hq. unfold custom_queries.
    rewrite custom_queries_keep_trimmed.
    apply keep_trimmed_blank, split_newline_blank, trim_nil_iff.
    destruct (trim (customQueries s)); [reflexivity|discriminate Hne].
Qed.

End CustomQueriesFacts.

(** ** Worked examples *)

Section Examples.
Import JS.

Example getCategoryType_win :
  GapsPage.getCategoryType
    {| GapsPage.query := "best widgets"; GapsPage.category := "exclusive_win";
       GapsPage.brand_mentioned := true; GapsPage.has_competitors := false;
       GapsPage.competitors := []; GapsPage.mentioned_sources := ["openai"];
       GapsPage.missing_sources := []; GapsPage.responses := [] |}
  = GapsPage.win.
Proof. reflexivity. Qed.

Example summary_url_branded :
  Api.getRunAnalysisSummary 12 (Api.branded_of_filter Api.branded)
  = "/analysis/runs/12/summary?branded=true".
Proof. reflexivity. Qed.

Example time_series_url_non_branded :
  Api.getTimeSeriesData 30 (Api.branded_of_filter Api.non_branded)
  = "/analysis/time-series?days=30&branded=false".
Proof. reflexivity. Qed.

Example gaps_url_all :
  Api.getGapAnalysis 12 (Api.branded_of_filter Api.all)
  = "/analysis/runs/12/gaps".
Proof. reflexivity. Qed.

Example query_param_time_series_days :
  query_param "days" "/analysis/time-series?days=30&branded=false" = Some "30".
Proof. reflexivity. Qed.

Example parseInt_examples :
  parseInt "42" = Int 42 /\ parseInt " 12abc" = Int 12 /\
  parseInt "-7" = Int (-7) /\ parseInt "0x1f" = Int 31 /\
  parseInt "abc" = NaN /\ parseInt "" = NaN /\ parseInt "0" = Int 0.
Proof. repeat split; reflexivity. Qed.

Example progress_percent_half :
  GeneratorPage.progress_percent 3 6 = finite 50 /\
  GeneratorPage.progress_percent 1 3 =
    finite (2345624805922133 # 70368744177664).
Proof. split; vm_compute; reflexivity. Qed.

(** "  a b \n\n\tc\n" has the queries "a b" and "c". *)
Example custom_queries_example :
  GeneratorPage.custom_queries [32; 32; 97; 32; 98; 32; 10; 10; 9; 99; 10]%N
  = [[97; 32; 98]; [99]]%N.
Proof. reflexivity. Qed.

(** Three rates with a tie: the tied entries keep their input order. *)
Example sortedComparison_example :
  let entry := fun n r =>
    {| CompetitorsPage.name := n; CompetitorsPage.is_brand := false;
       CompetitorsPage.mention_count := 0; CompetitorsPage.mention_rate := r;
       CompetitorsPage.first_third_rate := None;
       CompetitorsPage.positive_rate := None;
       CompetitorsPage.unique_queries := None |} in
  map CompetitorsPage.name
    (sort CompetitorsPage.by_mention_rate
       [entry "low" 30%Q; entry "tie-1" 50%Q; entry "tie-2" 50%Q;
        entry "top" 70%Q])
  = ["top"; "tie-1"; "tie-2"; "low"].
Proof. reflexivity. Qed.

(** One query, three providers: two successes and one recorded error
    complete the run. *)
Example orchestrator_example :
  match Orchestrator.submit
          {| Orchestrator.brand_name := Some "Acme";
             Orchestrator.brand_aliases := Some ["ACME"] |}
          [[104; 105]%N]
          [(Orchestrator.openai, "gpt-4o");
           (Orchestrator.gemini, "gemini-pro");
           (Orchestrator.perplexity, "sonar")] with
  | ok r0 =>
      let r := Orchestrator.run_events r0
                 [Orchestrator.start; Orchestrator.outcome true;
                  Orchestrator.outcome false; Orchestrator.outcome true] in
      (Orchestrator.status r, Orchestrator.completed_queries r,
       Orchestrator.total_queries r)
  | throw _ => (Orchestrator.pending, 0, 0)
  end = (Orchestrator.completed, 3, 3).
Proof. reflexivity. Qed.

(** A 401 answer for a logged-in browser. *)
Lemma fetchWithAuth_spec_witness :
  let w := {| Api.localStorage := [("token", "abc"); ("user", "{}"); ("theme", "dark")];
              Api.location_href := "/dashboard" |} in
  let r := Api.fetchWithAuth "/api"
             (fun _ => {| Api.status := 401; Api.payload := "" |})
             (Some w) "/clients/current" (Api.api_options None None) in
  Api.dict_get "Authorization" (Api.headers (Api.req_init (Api.sent r)))
    = Some "Bearer abc" /\
  Api.window_after r =
    Some {| Api.localStorage := [("theme", "dark")];
            Api.location_href := "/login" |}.
Proof.
  cbv zeta.
  destruct (fetchWithAuth_spec "/api"
              (fun _ => {| Api.status := 401; Api.payload := "" |})
              {| Api.localStorage := [("token", "abc"); ("user", "{}"); ("theme", "dark")];
                 Api.location_href := "/dashboard" |}
              "/clients/current" None None) as (_ & Hauth & _ & _ & H401 & _).
  split; [exact Hauth|].
  exact (proj1 (H401 eq_refl)).
Defined.

(** A run parameter naming a run that the server does not list. *)
Lemma run_selector_spec_witness :
  let runs := [ {| RunSelector.id := 9; RunSelector.name := None;
                   RunSelector.status := "running";
                   RunSelector.created_at := "2025-03-02T10:00:00" |};
                {| RunSelector.id := 8; RunSelector.name := Some "Weekly";
                   RunSelector.status := "completed";
                   RunSelector.created_at := "2025-03-01T10:00:00" |} ] in
  let data := ok (runs, {| RunSelector.brand_name := "Acme" |}) in
  parseInt "42" = Int 42 /\
  RunSelector.requests (RunSelector.load RunSelector.gaps_page (Some "42") data)
    = ["/queries/runs?limit=20&offset=0"; "/clients/current";
       "/analysis/runs/42/gaps"] /\
  RunSelector.selectedRunId
    (RunSelector.load RunSelector.gaps_page None data) = value (Int 8).
Proof.
  cbv zeta.
  destruct (run_selector_spec RunSelector.gaps_page
              [ {| RunSelector.id := 9; RunSelector.name := None;
                   RunSelector.status := "running";
                   RunSelector.created_at := "2025-03-02T10:00:00" |};
                {| RunSelector.id := 8; RunSelector.name := Some "Weekly";
                   RunSelector.status := "completed";
                   RunSelector.created_at := "2025-03-01T10:00:00" |} ]
              {| RunSelector.brand_name := "Acme" |})
    as (_ & (_ & Hnone) & Hsome & _).
  split; [vm_compute; reflexivity|].
  destruct (Hsome "42" (Int 42) ltac:(vm_compute; reflexivity)
              ltac:(discriminate) ltac:(discriminate)) as (Hm & _ & Hl).
  split.
  - rewrite Hl, Hm. vm_compute. reflexivity.
  - exact (proj1 Hnone).
Defined.

(** A run started from the predefined queries, then polled once with a
    completed status. *)
Lemma polling_stops_at_terminal_status_witness :
  let c := {| GeneratorPage.client_id := 1; GeneratorPage.brand_name := "Acme";
              GeneratorPage.default_openai_model := "gpt-4o";
              GeneratorPage.default_gemini_model := "gemini-pro";
              GeneratorPage.default_perplexity_model := "sonar" |} in
  let idle := {| GeneratorPage.client := Some c;
                 GeneratorPage.customQueries := [];
                 GeneratorPage.queryRuns := [];
                 GeneratorPage.running := false;
                 GeneratorPage.activeRunId := null;
                 GeneratorPage.progress := finite 0;
                 GeneratorPage.interval := None;
                 GeneratorPage.calls := [] |} in
  let run := fun st done =>
    {| GeneratorPage.id := 7; GeneratorPage.name := None;
       GeneratorPage.status := st; GeneratorPage.total_queries := 3;
       GeneratorPage.completed_queries := done;
       GeneratorPage.created_at := "2025-03-02T10:00:00" |} in
  let s := GeneratorPage.handleRunPredefined (ok (run "pending" 0%Z)) idle in
  GeneratorPage.interval s = Some 7%Z /\
  GeneratorPage.activeRunId s = value 7%Z /\
  GeneratorPage.interval
    (GeneratorPage.tick (ok (run "completed" 3%Z)) (throw "offline") s) = None.
Proof.
  cbv zeta. split; [reflexivity|]. split; [reflexivity|].
  match goal with
  | |- GeneratorPage.interval (GeneratorPage.tick ?a ?r ?s) = None =>
      destruct (polling_stops_at_terminal_status
                  {| Orchestrator.status := Orchestrator.running;
                     Orchestrator.total_queries := 3;
                     Orchestrator.completed_queries := 2;
                     Orchestrator.succeeded := 2 |}
                  (Orchestrator.outcome true)
                  s 7%Z a r [])
        as (_ & _ & _ & Hpoll)
  end.
  destruct (Hpoll eq_refl eq_refl) as (_ & Hiff & _).
  apply Hiff. reflexivity.
Defined.

(** The text "  a b \n\n\tc\n" with a client loaded: one request, two
    queries. *)
Lemma handleRunCustom_submits_witness :
  let c := {| GeneratorPage.client_id := 1; GeneratorPage.brand_name := "Acme";
              GeneratorPage.default_openai_model := "gpt-4o";
              GeneratorPage.default_gemini_model := "gemini-pro";
              GeneratorPage.default_perplexity_model := "sonar" |} in
  let s := {| GeneratorPage.client := Some c;
              GeneratorPage.customQueries :=
                [32; 32; 97; 32; 98; 32; 10; 10; 9; 99; 10]%N;
              GeneratorPage.queryRuns := [];
              GeneratorPage.running := false;
              GeneratorPage.activeRunId := null;
              GeneratorPage.progress := finite 0;
              GeneratorPage.interval := None;
              GeneratorPage.calls := [] |} in
  GeneratorPage.calls (GeneratorPage.handleRunCustom "3/2/2025" (throw "offline") s)
  = [GeneratorPage.createQueryRun
       (GeneratorPage.custom_run c "3/2/2025" [[97; 32; 98]; [99]]%N)].
Proof.
  cbv zeta.
  match goal with
  | |- GeneratorPage.calls (GeneratorPage.handleRunCustom ?n ?a ?s) = _ =>
      destruct (handleRunCustom_submits s n a) as (H & _)
  end.
  rewrite H. reflexivity.
Defined.

(** A comparison list that arrives with its tie already broken by mention
    count. *)
Lemma sortedComparison_stable_by_rate_witness :
  let entry := fun n c r =>
    {| CompetitorsPage.name := n; CompetitorsPage.is_brand := false;
       CompetitorsPage.mention_count := c; CompetitorsPage.mention_rate := r;
       CompetitorsPage.first_third_rate := None;
       CompetitorsPage.positive_rate := None;
       CompetitorsPage.unique_queries := None |} in
  let a := {| CompetitorsPage.query_run_id := 1;
              CompetitorsPage.total_responses := 4;
              CompetitorsPage.comparison :=
                [entry "Top" 3%Z 70%Q; entry "Beta" 2%Z 50%Q;
                 entry "Acme" 1%Z 50%Q];
              CompetitorsPage.win_loss :=
                {| CompetitorsPage.wl_wins := 0; CompetitorsPage.ties := 0;
                   CompetitorsPage.losses := 0; CompetitorsPage.neither := 0 |};
              CompetitorsPage.branded_count := 0;
              CompetitorsPage.non_branded_count := 4;
              CompetitorsPage.filter_applied := "all" |} in
  CompetitorsPage.leaderboard_order (CompetitorsPage.comparison a) /\
  CompetitorsPage.sortedComparison (Some a) = CompetitorsPage.comparison a.
Proof.
  cbv zeta.
  match goal with
  | |- ?L /\ CompetitorsPage.sortedComparison (Some ?a) = _ =>
      assert (Horder : L);
      [ unfold CompetitorsPage.leaderboard_order; cbn [CompetitorsPage.comparison];
        repeat constructor
      | split; [exact Horder|];
        exact (proj2 (proj2 (proj2 (sortedComparison_stable_by_rate a))) Horder) ]
  end.
Defined.

End Examples.

(* ================================================================== *)
(** * Part III: further properties of the sources                      *)
(* ================================================================== *)

(** ** Numeric query parameters *)

Section QueryParamRoundTrip.
Import JS Api.

Lemma split_at_key (key value : string) :
  has_char "=" key = false ->
  split_at "=" (key ++ String "=" value) = (key, Some value).
Proof. apply split_at_first. Qed.

Lemma query_params_getQueryRuns (limit offset : intnum) :
  query_params (getQueryRuns limit offset) =
  [("limit", to_string limit); ("offset", to_string offset)].
Proof.
  assert (Hl : has_char "&" ("limit=" ++ to_string limit) = false).
  { rewrite has_char_app, to_string_chars by reflexivity. reflexivity. }
  assert (Ho : has_char "&" ("offset=" ++ to_string offset) = false).
  { rewrite has_char_app, to_string_chars by reflexivity. reflexivity. }
  change (getQueryRuns limit offset) with
    ("/queries/runs" ++ String "?"
       (("limit=" ++ to_string limit)
          ++ String "&" ("offset=" ++ to_string offset))).
  rewrite query_params_some by reflexivity.
  rewrite (split_on_first _ _ _ Hl), (split_on_absent _ _ Ho).
  cbn [map].
  change ("limit=" ++ to_string limit)
    with ("limit" ++ String "=" (to_string limit)).
  change ("offset=" ++ to_string offset)
    with ("offset" ++ String "=" (to_string offset)).
  rewrite !split_at_key by reflexivity. reflexivity.
Qed.

Lemma query_param_days (days : intnum) (f : BrandedFilter) :
  query_param "days" (getTimeSeriesData days (branded_of_filter f))
  = Some (to_string days).
Proof.
  assert (Hd : has_char "&" ("days=" ++ to_string days) = false).
  { rewrite has_char_app, to_string_chars by reflexivity. reflexivity. }
  assert (Hk : split_at "=" ("days=" ++ to_string days)
               = ("days", Some (to_string days))).
  { change ("days=" ++ to_string days)
      with ("days" ++ String "=" (to_string days)).
    apply split_at_key. reflexivity. }
  unfold query_param, getTimeSeriesData.
  change (("/analysis/time-series?days=" ++ to_string days)
            ++ branded_suffix "&" (branded_of_filter f))
    with ("/analysis/time-series" ++ String "?"
            (("days=" ++ to_string days)
               ++ branded_suffix "&" (branded_of_filter f))).
  rewrite query_params_some by reflexivity.
  destruct f; cbn [branded_of_filter branded_suffix].
  - rewrite string_app_empty, (split_on_absent _ _ Hd).
    cbn [map]. rewrite Hk. reflexivity.
  - change ("&" ++ "branded=" ++ show_bool true)
      with (String "&" "branded=true").
    rewrite (split_on_first _ _ _ Hd). cbn [map]. rewrite Hk. reflexivity.
  - change ("&" ++ "branded=" ++ show_bool false)
      with (String "&" "branded=false").
    rewrite (split_on_first _ _ _ Hd). cbn [map]. rewrite Hk. reflexivity.
Qed.

(** X1. The pagination parameters of [getQueryRuns] and the [days] parameter
    of [getTimeSeriesData] are the printed numbers, [getQueryRuns] carries
    no other parameter and the branded suffix does not disturb [days]; for
    whole numbers below 2^53 in size they read back, with [parseInt], as the
    numbers that were passed in. A limit of 10^21 is printed [1e+21] and
    reads back as 1. *)
Theorem numeric_query_params_round_trip (limit offset days : Z)
    (f : BrandedFilter) :
  (- 2 ^ 53 < limit < 2 ^ 53)%Z -> (- 2 ^ 53 < offset < 2 ^ 53)%Z ->
  (- 2 ^ 53 < days < 2 ^ 53)%Z ->
  query_params (getQueryRuns limit offset) =
    [("limit", to_string limit); ("offset", to_string offset)] /\
  option_map parseInt (query_param "limit" (getQueryRuns limit offset))
    = Some (Int limit) /\
  option_map parseInt (query_param "offset" (getQueryRuns limit offset))
    = Some (Int offset) /\
  option_map parseInt
    (query_param "days" (getTimeSeriesData days (branded_of_filter f)))
    = Some (Int days) /\
  getQueryRuns (10 ^ 21) 0 = "/queries/runs?limit=1e+21&offset=0" /\
  option_map parseInt (query_param "limit" (getQueryRuns (10 ^ 21) 0))
    = Some (Int 1).
Proof.
  intros Hl Ho Hd.
  assert (E1 : String.eqb "limit" "limit" = true) by reflexivity.
  assert (E2 : String.eqb "limit" "offset" = false) by reflexivity.
  assert (E3 : String.eqb "offset" "offset" = true) by reflexivity.
  split; [apply query_params_getQueryRuns|].
  unfold query_param at 1 2.
  rewrite query_params_getQueryRuns, query_param_days.
  cbn [map fst find snd option_map].
  rewrite E1, E2, E3. cbn [snd option_map].
  rewrite !parseInt_to_string_safe by assumption.
  repeat split; vm_compute; reflexivity.
Qed.

End QueryParamRoundTrip.

(** ** The API wrappers *)

Section ApiWrapperFacts.
Import JS Api ApiCalls.

Lemma response_ok_401 (r : Response) :
  status r = 401%Z -> response_ok r = false.
Proof. unfold response_ok. intros ->. reflexivity. Qed.

Lemma auth_header_stored_token (w : Browser) (m b : option string) :
  dict_get "Authorization" (auth_headers (getToken (Some w)) (api_options m b))
  = option_map (fun t => "Bearer " ++ t) (stored_token w).
Proof.
  unfold stored_token, getToken, auth_headers.
  destruct (dict_get "token" (localStorage w)) as [[|c t]|]; reflexivity.
Qed.

Lemma fetchWithAuth_sent (base : string) (fetch : Request -> Response)
    (window : option Browser) (endpoint : string) (options : RequestInit) :
  sent (fetchWithAuth base fetch window endpoint options) =
  {| req_url := base ++ endpoint;
     req_init := {| method := method options; body := body options;
                    headers := auth_headers (getToken window) options |} |}.
Proof.
  unfold fetchWithAuth.
  destruct (status (fetch _) =? 401)%Z; [destruct window|]; reflexivity.
Qed.

Lemma fetchWithAuth_browser (base : string) (fetch : Request -> Response)
    (w : Browser) (endpoint : string) (options : RequestInit) :
  let f := fetchWithAuth base fetch (Some w) endpoint options in
  settled f = ok (fetch (sent f)) /\
  window_after f =
    Some (if (status (fetch (sent f)) =? 401)%Z then logged_out w else w).
Proof.
  cbv zeta. rewrite fetchWithAuth_sent. unfold fetchWithAuth.
  destruct (status (fetch _) =? 401)%Z; split; reflexivity.
Qed.

(** X2. A wrapper around [fetchWithAuth] resolves, with the parsed body,
    exactly when the response is in the 200-299 range and its body parses: a
    2xx response whose body is not JSON (an empty 204, say) makes it reject
    with the parser's error. For a response in that range the outcome is
    what [response.json()] gives and the browser is left alone; for any
    other response the wrapper rejects (the fixed-message wrappers with
    their message, the [detail] wrappers never with data), and on a 401 the
    caller sees the rejection while the browser has been logged out. *)
Theorem api_wrappers_outcome (J : Type) (json : Response -> result J)
    (detail : J -> option string) (message base : string)
    (fetch : Request -> Response) (w : Browser) (endpoint : string)
    (m b : option string) :
  let c1 := api_fixed J json message base fetch (Some w) endpoint
                      (api_options m b) in
  let c2 := api_detail J json detail message base fetch (Some w) endpoint
                       (api_options m b) in
  let response := fetch (c_sent c1) in
  c_sent c2 = c_sent c1 /\
  (forall a, c_outcome c1 = ok a <->
             response_ok response = true /\ json response = ok a) /\
  (forall a, c_outcome c2 = ok a <->
             response_ok response = true /\ json response = ok a) /\
  (response_ok response = true ->
     c_outcome c1 = json response /\ c_outcome c2 = json response /\
     c_window c1 = Some w /\ c_window c2 = Some w) /\
  (response_ok response = true ->
     forall e, json response = throw e ->
       c_outcome c1 = throw e /\ c_outcome c2 = throw e) /\
  (response_ok response = false ->
     c_outcome c1 = throw message /\ forall a, c_outcome c2 <> ok a) /\
  (status response = 401%Z ->
     c_outcome c1 = throw message /\
     c_window c1 = Some (logged_out w) /\ c_window c2 = Some (logged_out w)).
Proof.
  cbv zeta. unfold api_fixed, api_detail. cbn [c_sent c_outcome c_window].
  destruct (fetchWithAuth_browser base fetch w endpoint (api_options m b))
    as [Hs Hw].
  rewrite Hs, Hw.
  set (response := fetch (sent _)).
  split; [reflexivity|]. split; [|split; [|split; [|split; [|split]]]].
  - intros a. destruct (response_ok response); split.
    + intros H. split; [reflexivity|exact H].
    + intros [_ H]. exact H.
    + discriminate.
    + intros [H _]. discriminate.
  - intros a. destruct (response_ok response); split.
    + intros H. split; [reflexivity|exact H].
    + intros [_ H]. exact H.
    + destruct (json response); discriminate.
    + intros [H _]. discriminate.
  - intros Hok. rewrite Hok.
    assert (H401 : (status response =? 401)%Z = false).
    { destruct (Z.eqb_spec (status response) 401) as [E|E]; [|reflexivity].
      rewrite (response_ok_401 _ E) in Hok. discriminate. }
    rewrite H401. repeat split; reflexivity.
  - intros Hok e He. rewrite Hok, He. split; reflexivity.
  - intros Hok. rewrite Hok. split; [reflexivity|].
    intros a. destruct (json response); discriminate.
  - intros E. rewrite (response_ok_401 _ E), E. repeat split; reflexivity.
Qed.

End ApiWrapperFacts.

(** ** Sessions: login, logout and the token check *)

Section SessionFacts.
Import JS Api ApiCalls Auth AuthRequests.

Lemma dict_get_set_same (k v : string) (d : Dict) :
  dict_get k (dict_set k v d) = Some v.
Proof.
  induction d as [|[k' v'] d IH]; simpl.
  - rewrite String.eqb_refl. reflexivity.
  - destruct (String.eqb k' k) eqn:E; simpl; rewrite E; [reflexivity|exact IH].
Qed.

Lemma dict_get_set_other (k k' v : string) (d : Dict) :
  k <> k' -> dict_get k (dict_set k' v d) = dict_get k d.
Proof.
  intros Hk. induction d as [|[k0 v0] d IH]; simpl.
  - destruct (String.eqb k' k) eqn:E; [|reflexivity].
    apply String.eqb_eq in E. congruence.
  - destruct (String.eqb k0 k') eqn:E; simpl.
    + apply String.eqb_eq in E. subst k0.
      destruct (String.eqb k' k) eqn:E'; [|reflexivity].
      apply String.eqb_eq in E'. congruence.
    + rewrite IH. reflexivity.
Qed.

Lemma stored_token_removed (b : Browser) :
  stored_token (removeItem "user" (removeItem "token" b)) = None /\
  dict_get "user" (localStorage (removeItem "user" (removeItem "token" b)))
    = None.
Proof.
  unfold stored_token, removeItem; cbn [localStorage]. split.
  - rewrite dict_get_remove_other by discriminate.
    rewrite dict_get_remove_same. reflexivity.
  - apply dict_get_remove_same.
Qed.

Lemma stored_token_set (t : string) (b : Browser) :
  stored_token (setItem "token" t b) = if truthy_string t then Some t else None.
Proof.
  unfold stored_token, setItem; cbn [localStorage].
  rewrite dict_get_set_same. reflexivity.
Qed.

Lemma getCurrentUser_sent (J : Type) (json : Response -> result J)
    (base : string) (fetch : Request -> Response) (b : Browser) :
  c_sent (getCurrentUser J json base fetch (Some b))
  = me_request base (stored_token b).
Proof.
  unfold getCurrentUser, api_fixed. cbn [c_sent].
  rewrite fetchWithAuth_sent. unfold me_request, stored_token, getToken.
  destruct (dict_get "token" (localStorage b)) as [[|c t]|]; reflexivity.
Qed.

Lemma last_pushed_push (route : string) (w : World) :
  last_pushed (push route w) = Some route.
Proof.
  unfold last_pushed, push; cbn [pushed].
  rewrite map_app. cbn [map]. apply last_last.
Qed.

(** X3. After [logout] no token and no user entry is left in [localStorage],
    whatever was stored, the provider has no user, the route is [/login] and
    no request was made; any later API call goes out without an
    [Authorization] header, and the home page sends the visitor to
    [/login]. *)
Theorem logout_clears_session (w : World) (base : string)
    (fetch : Request -> Response) (endpoint : string) (m b : option string) :
  let w' := logout w in
  stored_token (browser w') = None /\
  dict_get "user" (localStorage (browser w')) = None /\
  user w' = None /\
  last_pushed w' = Some "/login" /\
  fetched w' = fetched w /\
  dict_get "Authorization"
    (headers (req_init (sent (fetchWithAuth base fetch (Some (browser w'))
                                            endpoint (api_options m b)))))
    = None /\
  last_pushed (Home w') = Some "/login".
Proof.
  cbv zeta.
  destruct (stored_token_removed (browser w)) as [Ht Hu].
  assert (Hb : browser (logout w)
               = removeItem "user" (removeItem "token" (browser w)))
    by reflexivity.
  rewrite Hb. split; [exact Ht|]. split; [exact Hu|].
  split; [reflexivity|]. split; [apply last_pushed_push|].
  split; [reflexivity|]. split.
  - rewrite fetchWithAuth_sent. cbn [req_init headers].
    rewrite auth_header_stored_token, Ht. reflexivity.
  - unfold Home. rewrite Hb.
    unfold stored_token in Ht.
    destruct (dict_get "token"
                (localStorage (removeItem "user" (removeItem "token" (browser w)))))
      as [t|]; [|apply last_pushed_push].
    destruct (truthy_string t); [discriminate Ht|apply last_pushed_push].
Qed.

End SessionFacts.

Section TokenCheckFacts.
Import JS Api ApiCalls Auth AuthRequests Params.

Variable base : string.
Variable fetch : Request -> Response.
Variable json : Response -> result Body.

(** What [getCurrentUser] does in a browser, in one equation: the request
    carries the stored token; the outcome is the parsed body of a 2xx answer
    and a rejection otherwise; a 401 logs the browser out. *)
Lemma call_getCurrentUser_spec (w : World) :
  let request := me_request base (stored_token (browser w)) in
  call_getCurrentUser base fetch json w =
  (with_browser
     (if (status (fetch request) =? 401)%Z then logged_out (browser w)
      else browser w)
     (log_request request w),
   if response_ok (fetch request) then json (fetch request)
   else throw "Failed to get user").
Proof.
  cbv zeta. unfold call_getCurrentUser.
  pose proof (getCurrentUser_sent Body json base fetch (browser w)) as Hsent.
  unfold getCurrentUser, api_fixed in *. cbn [c_sent c_outcome c_window] in *.
  destruct (fetchWithAuth_browser base fetch (browser w) "/auth/me"
              (api_options None None)) as [Hs Hw].
  rewrite Hs, Hw, Hsent. reflexivity.
Qed.

Lemma response_ok_not_401 (r : Response) :
  response_ok r = true -> (status r =? 401)%Z = false.
Proof.
  intros Hok. destruct (Z.eqb_spec (status r) 401) as [E|E]; [|reflexivity].
  rewrite (response_ok_401 _ E) in Hok. discriminate.
Qed.

Lemma stored_token_logged_out (b : Browser) :
  stored_token (logged_out b) = None.
Proof.
  unfold stored_token.
  destruct (logged_out_storage b) as [Ht _]. rewrite Ht. reflexivity.
Qed.

Lemma stored_token_truthy (b : Browser) (t : string) :
  stored_token b = Some t ->
  dict_get "token" (localStorage b) = Some t /\ truthy_string t = true.
Proof.
  unfold stored_token.
  destruct (dict_get "token" (localStorage b)) as [t'|]; [|discriminate].
  destruct (truthy_string t') eqn:E; [|discriminate].
  intros [= <-]. split; [reflexivity|exact E].
Qed.

Lemma stored_token_none (b : Browser) :
  stored_token b = None ->
  match dict_get "token" (localStorage b) with
  | Some t => truthy_string t
  | None => false
  end = false.
Proof.
  unfold stored_token.
  destruct (dict_get "token" (localStorage b)) as [t|]; [|reflexivity].
  destruct (truthy_string t); [discriminate|reflexivity].
Qed.

(** X4. The token check of the [AuthProvider] on mount. Without a stored
    token nothing is requested and nothing changes but [loading]. With a
    token [t], exactly one request goes out, carrying [t]; if it resolves,
    the provider holds the resolved user and the browser is untouched; if it
    fails in any way, the provider's user is unchanged and neither the token
    nor the user entry remains in [localStorage]. [loading] always ends
    false. *)
Theorem mount_keeps_only_verified_token (w : World) :
  let w' := mount base fetch json w in
  loading w' = false /\
  (stored_token (browser w) = None ->
     fetched w' = fetched w /\ browser w' = browser w /\ user w' = user w) /\
  (forall t, stored_token (browser w) = Some t ->
     let response := fetch (me_request base (Some t)) in
     fetched w' = (fetched w ++ [me_request base (Some t)])%list /\
     (forall body, response_ok response = true -> json response = ok body ->
        user w' = Some body /\ browser w' = browser w) /\
     (response_ok response = false \/ (exists e, json response = throw e) ->
        user w' = user w /\ stored_token (browser w') = None /\
        dict_get "user" (localStorage (browser w')) = None)).
Proof.
  cbv zeta. unfold mount.
  split; [|split].
  - destruct (dict_get "token" (localStorage (browser w))) as [t|];
      [|reflexivity].
    destruct (truthy_string t); [|reflexivity].
    unfold loadUser. rewrite call_getCurrentUser_spec. reflexivity.
  - intros Hn. pose proof (stored_token_none _ Hn) as H.
    destruct (dict_get "token" (localStorage (browser w))) as [t|];
      [|repeat split; reflexivity].
    rewrite H. repeat split; reflexivity.
  - intros t Ht. destruct (stored_token_truthy _ _ Ht) as [Hg Htr].
    rewrite Hg, Htr. unfold loadUser.
    rewrite call_getCurrentUser_spec. rewrite Ht.
    set (response := fetch (me_request base (Some t))).
    split; [|split].
    + destruct (if response_ok response then json response
                else throw "Failed to get user"); reflexivity.
    + intros body Hok Hj. rewrite Hok, Hj, (response_ok_not_401 _ Hok).
      split; reflexivity.
    + intros Hfail.
      assert (Hthrow : exists e,
                (if response_ok response then json response
                 else throw "Failed to get user") = throw e).
      { destruct Hfail as [Hno|[e He]].
        - rewrite Hno. eexists. reflexivity.
        - destruct (response_ok response); [exists e; exact He|].
          eexists. reflexivity. }
      destruct Hthrow as [e He]. rewrite He.
      cbn [user browser set_loading with_browser log_request].
      split; [reflexivity|]. apply stored_token_removed.
Qed.

(** X5. [login] of the [AuthProvider]. If the login request is rejected, the
    promise rejects and nothing is stored or pushed. If it resolves with a
    non-empty [access_token] and the user check succeeds, the token is the
    stored one, the provider holds the user, the route is [/dashboard], the
    two requests went out in this order, and later API calls carry the
    token. *)
Theorem login_establishes_session (credentials : string) (w : World) :
  let w' := fst (login base fetch json credentials w) in
  let outcome := snd (login base fetch json credentials w) in
  let answer := fetch (login_request base credentials) in
  (response_ok answer = false ->
     (forall u, outcome <> ok u) /\ browser w' = browser w /\
     pushed w' = pushed w /\ user w' = user w /\
     fetched w' = (fetched w ++ [login_request base credentials])%list) /\
  (forall t body,
     response_ok answer = true -> json answer = ok (token_body t) ->
     truthy_string t = true ->
     response_ok (fetch (me_request base (Some t))) = true ->
     json (fetch (me_request base (Some t))) = ok body ->
     outcome = ok tt /\
     stored_token (browser w') = Some t /\
     user w' = Some body /\
     last_pushed w' = Some "/dashboard" /\
     fetched w' = (fetched w ++ [login_request base credentials;
                                 me_request base (Some t)])%list /\
     forall endpoint m b,
       dict_get "Authorization"
         (headers (req_init (sent (fetchWithAuth base fetch
                                     (Some (browser w')) endpoint
                                     (api_options m b)))))
       = Some ("Bearer " ++ t)).
Proof.
  cbv zeta. unfold login, ApiCalls.login.
  change {| req_url := base ++ "/auth/login/json"; req_init := _ |}
    with (login_request base credentials).
  set (answer := fetch (login_request base credentials)).
  split.
  - intros Hno. rewrite Hno.
    destruct (json answer) as [error|e]; cbn [fst snd];
      (split; [intros u; discriminate|repeat split; reflexivity]).
  - intros t body Hok Hj Ht Hok2 Hj2. rewrite Hok, Hj. cbn [fst snd].
    unfold loadUser. rewrite call_getCurrentUser_spec.
    cbn [browser with_browser log_request].
    rewrite stored_token_set, Ht, Hok2, Hj2, (response_ok_not_401 _ Hok2).
    cbn [fst snd browser user fetched pushed set_loading set_user with_browser
         log_request push].
    split; [reflexivity|]. split; [rewrite stored_token_set, Ht; reflexivity|].
    split; [reflexivity|]. split; [apply last_pushed_push|].
    split; [rewrite <- app_assoc; reflexivity|].
    intros endpoint m b. rewrite fetchWithAuth_sent. cbn [req_init headers].
    rewrite auth_header_stored_token, stored_token_set, Ht. reflexivity.
Qed.

End TokenCheckFacts.

Section CallbackFacts.
Import JS Api ApiCalls Auth AuthRequests Params.

Variable base : string.
Variable fetch : Request -> Response.
Variable json : Response -> result Body.

(** X6. The OAuth callback. An [error] parameter wins over everything: with
    it, or without a token, nothing is stored or requested. Otherwise the
    token is stored and checked with one request; the page reports success
    exactly when that check resolves, and then the token is the stored one
    and the visitor is sent to [/admin] (super-admins) or [/dashboard]; when
    the check fails the token is removed again and nothing is pushed. The
    status never stays 'loading'. *)
Theorem handleCallback_outcome (token provider error : option string)
    (w : World) :
  let w' := fst (handleCallback base fetch json token provider error w) in
  let cb := snd (handleCallback base fetch json token provider error w) in
  cb_status cb <> cb_loading /\
  (truthy_param error = true -> w' = w /\ cb_status cb = cb_error) /\
  (truthy_param token = false ->
     w' = w /\ cb_status cb = cb_error) /\
  (forall t, truthy_param error = false -> token = Some t ->
     truthy_string t = true ->
     let response := fetch (me_request base (Some t)) in
     fetched w' = (fetched w ++ [me_request base (Some t)])%list /\
     (cb_status cb = cb_success <->
        response_ok response = true /\ exists body, json response = ok body) /\
     (forall body, response_ok response = true -> json response = ok body ->
        stored_token (browser w') = Some t /\
        last_pushed w' =
          Some (if body_is_superadmin body then "/admin" else "/dashboard")) /\
     (cb_status cb = cb_error ->
        dict_get "token" (localStorage (browser w')) = None /\
        pushed w' = pushed w)).
Proof.
  cbv zeta. unfold handleCallback.
  change (match error with
          | Some s => truthy_string s
          | None => false
          end) with (truthy_param error).
  split; [|split; [|split]].
  - destruct (truthy_param error); [discriminate|].
    destruct token as [t|]; [|discriminate].
    destruct (truthy_string t); [|discriminate].
    destruct (call_getCurrentUser base fetch json _) as [w2 [body|e]];
      discriminate.
  - intros He. rewrite He. split; reflexivity.
  - intros Ht. destruct (truthy_param error); [split; reflexivity|].
    destruct token as [t|]; [|split; reflexivity].
    simpl in Ht. rewrite Ht. split; reflexivity.
  - intros t He -> Ht. rewrite He, Ht.
    rewrite call_getCurrentUser_spec.
    cbn [browser with_browser log_request].
    rewrite stored_token_set, Ht.
    set (response := fetch (me_request base (Some t))).
    destruct (response_ok response) eqn:Hok.
    + rewrite (response_ok_not_401 _ Hok).
      destruct (json response) as [body|e] eqn:Hj; cbn [fst snd cb_status].
      * split; [reflexivity|]. split.
        { split; [intros _; split; [reflexivity|exists body; reflexivity]
                 |reflexivity]. }
        split; [|discriminate].
        intros body' _ [= <-].
        split; [|apply last_pushed_push].
        cbn [browser push with_browser log_request].
        rewrite stored_token_set, Ht. reflexivity.
      * split; [reflexivity|]. split.
        { split; [discriminate|]. intros [_ [body Hb]]. discriminate Hb. }
        split; [intros body _ Hb; discriminate Hb|].
        intros _. split; [|reflexivity].
        cbn [browser with_browser log_request removeItem localStorage].
        apply dict_get_remove_same.
    + cbn [fst snd cb_status]. split; [reflexivity|]. split.
      { split; [discriminate|]. intros [H _]. discriminate H. }
      split; [intros body H; discriminate H|].
      intros _. split; [|reflexivity].
      cbn [browser with_browser log_request removeItem localStorage].
      apply dict_get_remove_same.
Qed.

(** X7. [handleSubmit] of the login page. A rejected login shows the thrown
    message and changes nothing else. After a login that resolved with a
    non-empty token: if the user check resolves, no error is shown and the
    route is [/admin] for a super-admin and [/dashboard] otherwise; if the
    check fails with a status other than 401, the error is shown, nothing is
    pushed, and the token just stored stays in [localStorage]; on a 401 the
    token is gone and the location is [/login]. [loading] always ends
    false. *)
Theorem handleSubmit_outcome (credentials : string) (w : World) :
  let w' := fst (handleSubmit base fetch json credentials w) in
  let form := snd (handleSubmit base fetch json credentials w) in
  let outcome :=
    snd (ApiCalls.login Body json body_detail base fetch credentials) in
  lf_loading form = false /\
  (forall e, outcome = throw e ->
     lf_error form = e /\ browser w' = browser w /\ pushed w' = pushed w) /\
  (forall t, outcome = ok (token_body t) -> truthy_string t = true ->
     let response := fetch (me_request base (Some t)) in
     (forall body, response_ok response = true -> json response = ok body ->
        lf_error form = "" /\
        last_pushed w' =
          Some (if body_is_superadmin body then "/admin" else "/dashboard") /\
        stored_token (browser w') = Some t) /\
     (response_ok response = false -> status response <> 401%Z ->
        lf_error form = "Failed to get user" /\ pushed w' = pushed w /\
        stored_token (browser w') = Some t) /\
     (status response = 401%Z ->
        lf_error form = "Failed to get user" /\ pushed w' = pushed w /\
        stored_token (browser w') = None /\
        location_href (browser w') = "/login")).
Proof.
  cbv zeta. unfold handleSubmit.
  destruct (ApiCalls.login Body json body_detail base fetch credentials)
    as [request outcome]. cbn [snd].
  split; [|split].
  - destruct outcome as [response|e]; [|reflexivity].
    destruct (call_getCurrentUser base fetch json _) as [w3 [body|e]];
      reflexivity.
  - intros e ->. repeat split; reflexivity.
  - intros t -> Ht.
    rewrite call_getCurrentUser_spec.
    cbn [browser with_browser log_request].
    rewrite stored_token_set, Ht.
    set (response := fetch (me_request base (Some t))).
    split; [|split].
    + intros body Hok Hj. rewrite Hok, Hj, (response_ok_not_401 _ Hok).
      cbn [fst snd lf_error]. split; [reflexivity|].
      split; [apply last_pushed_push|].
      cbn [browser push with_browser log_request].
      rewrite stored_token_set, Ht. reflexivity.
    + intros Hno H401. rewrite Hno.
      destruct (Z.eqb_spec (status response) 401) as [E|_]; [contradiction|].
      cbn [fst snd lf_error browser pushed with_browser log_request].
      split; [reflexivity|]. split; [reflexivity|].
      rewrite stored_token_set, Ht. reflexivity.
    + intros E. rewrite (response_ok_401 _ E), E. rewrite Z.eqb_refl.
      cbn [fst snd lf_error browser pushed with_browser log_request].
      split; [reflexivity|]. split; [reflexivity|].
      split; [apply stored_token_logged_out|reflexivity].
Qed.

End CallbackFacts.

(** ** The generator page over time *)

Section GeneratorFlowFacts.
Import JS GeneratorPage GeneratorFlow.

Lemma setActiveRunId_consistent (a : Nullable Z) (s : State) :
  interval s = polling_effect (activeRunId s) ->
  interval (setActiveRunId a s) = polling_effect a.
Proof.
  intros H. unfold setActiveRunId; cbn [interval].
  destruct (same_run (activeRunId s) a) eqn:E; [|reflexivity].
  rewrite H. destruct (activeRunId s) as [| |x], a as [| |y];
    try discriminate E; try reflexivity.
  simpl in E. apply Z.eqb_eq in E. subst. reflexivity.
Qed.

(** The two halves of a handler, run without anything in between, are the
    handler. *)
Lemma handleRunPredefined_halves (answer : result QueryRun) (s : State) :
  handleRunPredefined answer s =
  match beginRunPredefined s with
  | Some p => finishRunPredefined answer p
  | None => s
  end.
Proof.
  unfold handleRunPredefined, beginRunPredefined, finishRunPredefined.
  destruct (client s); reflexivity.
Qed.

Lemma handleRunCustom_halves (now : string) (answer : result QueryRun)
    (s : State) :
  handleRunCustom now answer s =
  match beginRunCustom now s with
  | Some p => finishRunCustom answer p
  | None => s
  end.
Proof.
  unfold handleRunCustom, beginRunCustom, finishRunCustom.
  destruct (client s); [|reflexivity].
  destruct (negb (nonempty (trim (customQueries s)))); [reflexivity|].
  cbv zeta.
  destruct (List.length (custom_queries (customQueries s)) =? 0)%nat;
    reflexivity.
Qed.

Lemma tick_halves (answer : result QueryRun) (runs : result (list QueryRun))
    (s : State) :
  tick answer runs s =
  match beginTick s with
  | Some p =>
      if snd (finishTick answer p)
      then finishLoadQueryRuns runs (fst (finishTick answer p))
      else fst (finishTick answer p)
  | None => s
  end.
Proof.
  unfold tick, beginTick, finishTick, finishLoadQueryRuns, loadQueryRuns.
  destruct (interval s); [|reflexivity].
  destruct answer as [st|msg]; [|reflexivity].
  cbv zeta. destruct (is_terminal (status st)); [|reflexivity].
  destruct runs; reflexivity.
Qed.

Lemma handle_consistent (s : Page) (e : Event) :
  timer_consistent (page s) -> timer_consistent (page (handle s e)).
Proof.
  unfold timer_consistent. intros H.
  destruct e as [t|n|answer|now|answer| |answer| |answer]; cbn [handle].
  - destruct (running (page s)); exact H.
  - destruct (predefined_disabled n (page s)); [exact H|].
    unfold beginRunPredefined. destruct (client (page s)); exact H.
  - destruct (awaiting_predefined s); [exact H|]. cbn [page].
    destruct answer as [r|msg]; cbn [finishRunPredefined]; [|exact H].
    apply setActiveRunId_consistent, H.
  - destruct (custom_disabled (page s)); [exact H|].
    unfold beginRunCustom. destruct (client (page s)); [|exact H].
    destruct (negb (nonempty (trim (customQueries (page s))))); [exact H|].
    cbv zeta.
    destruct (List.length (custom_queries (customQueries (page s))) =? 0)%nat;
      exact H.
  - destruct (awaiting_custom s); [exact H|]. cbn [page].
    destruct answer as [r|msg]; cbn [finishRunCustom]; [|exact H].
    cbn [interval activeRunId set_customQueries].
    apply setActiveRunId_consistent, H.
  - unfold beginTick. destruct (interval (page s)) eqn:I;
      [|rewrite I; exact H].
    cbn [page interval activeRunId call]. rewrite I. exact H.
  - destruct (awaiting_status s); [exact H|]. cbn [page].
    unfold finishTick. destruct answer as [st|msg]; [|exact H].
    cbv zeta. destruct (is_terminal (status st)); cbn [fst]; [|exact H].
    cbn [interval activeRunId call set_running].
    apply setActiveRunId_consistent. exact H.
  - exact H.
  - destruct (awaiting_runs s); [exact H|]. cbn [page].
    destruct answer; exact H.
Qed.

Lemma run_consistent (events : list Event) (s : Page) :
  timer_consistent (page s) -> timer_consistent (page (run s events)).
Proof.
  revert s. induction events as [|e events IH]; intros s H; [exact H|].
  apply IH, handle_consistent, H.
Qed.

Lemma polls_only_more (ids more : list Z) (s : State) :
  polls_only ids s -> polls_only (ids ++ more) s.
Proof.
  intros [C I]. split; intros r H; apply in_or_app; left; auto.
Qed.

Lemma polls_only_call (ids : list Z) (c : Call) (s s' : State) :
  (forall r, c <> getQueryRunStatus r) ->
  calls s' = (calls s ++ [c])%list ->
  (forall r, interval s' = Some r -> interval s = Some r) ->
  polls_only ids s -> polls_only ids s'.
Proof.
  intros Hc Ec Ei [C I]. split.
  - intros r H. rewrite Ec in H. apply in_app_or in H as [H|[H|[]]].
    + apply C, H.
    + destruct (Hc r H).
  - intros r H. apply I, Ei, H.
Qed.

Lemma polls_only_same (ids : list Z) (s s' : State) :
  calls s' = calls s ->
  (forall r, interval s' = Some r -> interval s = Some r) ->
  polls_only ids s -> polls_only ids s'.
Proof.
  intros Ec Ei [C I]. split.
  - intros r H. rewrite Ec in H. apply C, H.
  - intros r H. apply I, Ei, H.
Qed.

Lemma polls_only_started (ids : list Z) (run : QueryRun) (s : State) :
  polls_only ids s ->
  polls_only (ids ++ [id run]) (setActiveRunId (value (id run)) s).
Proof.
  intros [C I]. split.
  - intros r H. apply in_or_app. left. apply C, H.
  - intros r. unfold setActiveRunId. cbn [interval].
    destruct (same_run (activeRunId s) (value (id run))).
    + intros H. apply in_or_app. left. apply I, H.
    + cbn [polling_effect]. destruct (id run =? 0)%Z; [discriminate|].
      intros [= <-]. apply in_or_app. right. left. reflexivity.
Qed.

Lemma handle_polls_only (ids : list Z) (s : Page) (e : Event) :
  polls_only ids (page s) ->
  polls_only (ids ++ created_id e) (page (handle s e)).
Proof.
  intros H.
  destruct e as [t|n|answer|now|answer| |answer| |answer];
    cbn [handle created_id]; rewrite ?app_nil_r.
  - destruct (running (page s)); [exact H|].
    revert H. apply polls_only_same; auto.
  - destruct (predefined_disabled n (page s)); [exact H|].
    unfold beginRunPredefined. destruct (client (page s)); [|exact H].
    revert H. apply (polls_only_call ids runPredefinedQueries);
      [discriminate|reflexivity|auto].
  - destruct (awaiting_predefined s);
      [destruct answer; [apply polls_only_more|rewrite app_nil_r]; exact H|].
    cbn [page]. destruct answer as [r|msg]; cbn [finishRunPredefined].
    + apply polls_only_started, H.
    + rewrite app_nil_r. revert H. apply polls_only_same; auto.
  - destruct (custom_disabled (page s)); [exact H|].
    unfold beginRunCustom. destruct (client (page s)) as [c|]; [|exact H].
    destruct (negb (nonempty (trim (customQueries (page s))))); [exact H|].
    cbv zeta.
    destruct (List.length (custom_queries (customQueries (page s))) =? 0)%nat;
      [exact H|].
    revert H.
    apply (polls_only_call ids
             (createQueryRun
                (custom_run c now (custom_queries (customQueries (page s))))));
      [discriminate|reflexivity|auto].
  - destruct (awaiting_custom s);
      [destruct answer; [apply polls_only_more|rewrite app_nil_r]; exact H|].
    cbn [page]. destruct answer as [r|msg]; cbn [finishRunCustom].
    + generalize (polls_only_started ids r (page s) H).
      apply polls_only_same; auto.
    + rewrite app_nil_r. revert H. apply polls_only_same; auto.
  - unfold beginTick. destruct (interval (page s)) as [runId|] eqn:I;
      [|exact H].
    cbn [page]. destruct H as [C J]. split.
    + intros r Hr. cbn [calls call] in Hr.
      apply in_app_or in Hr as [Hr|[[= <-]|[]]]; [apply C, Hr|apply J, I].
    + intros r Hr. apply J. exact Hr.
  - destruct (awaiting_status s); [exact H|]. cbn [page].
    unfold finishTick. destruct answer as [st|msg]; [|exact H].
    cbv zeta. destruct (is_terminal (status st)); cbn [fst].
    + revert H. apply (polls_only_call ids (getQueryRuns 10));
        [discriminate|reflexivity|].
      intros r. cbn [interval call set_running setActiveRunId set_progress
                     activeRunId].
      destruct (same_run (activeRunId (page s)) null); [auto|discriminate].
    + revert H. apply polls_only_same; auto.
  - cbn [page]. revert H. apply (polls_only_call ids (getQueryRuns 10));
      [discriminate|reflexivity|auto].
  - destruct (awaiting_runs s); [exact H|]. cbn [page].
    revert H. apply polls_only_same; destruct answer; auto.
Qed.

Lemma run_polls_only (events : list Event) (ids : list Z) (s : Page) :
  polls_only ids (page s) ->
  polls_only (ids ++ created_ids events) (page (run s events)).
Proof.
  revert ids s. induction events as [|e events IH]; intros ids s H.
  - cbn. rewrite app_nil_r. exact H.
  - unfold created_ids. cbn [flat_map run fold_left].
    rewrite app_assoc. apply IH, handle_polls_only, H.
Qed.

(** X8. However the page is driven from its first render (typing, clicks on
    the run buttons and on Refresh, firings of the interval, answers
    arriving in any order): the polling interval is always the one of
    [activeRunId]; the page asks only for the status of runs the server
    reported as created; and while [running] is true neither typing nor a
    click on a run button changes anything. [running] does not stay true
    for as long as a run is active, though: when two status requests are in
    flight at the end of a run, the answer to the second can arrive after
    the next run was requested and resets [running]; that run is then
    polled on a page whose buttons are enabled, and a further click starts
    a third run whose polling replaces that of the second. *)
Theorem generator_page_invariant (c : option Client) (runs : list QueryRun)
    (events : list Event) :
  let s := run (initial c runs) events in
  interval (page s) = polling_effect (activeRunId (page s)) /\
  (forall r, In (getQueryRunStatus r) (calls (page s)) ->
             In r (created_ids events)) /\
  (running (page s) = true ->
     forall t n now,
       handle s (type_text t) = s /\
       handle s (click_predefined n) = s /\
       handle s (click_custom now) = s) /\
  (let client := {| client_id := 1; brand_name := "Acme";
                    default_openai_model := "gpt-4o";
                    default_gemini_model := "gemini-pro";
                    default_perplexity_model := "sonar" |} in
   let created := fun n =>
     {| id := n; name := None; status := "pending"; total_queries := 3;
        completed_queries := 0; created_at := "" |} in
   let completed :=
     {| id := 1; name := None; status := "completed"; total_queries := 3;
        completed_queries := 3; created_at := "" |} in
   let raced :=
     run (initial (Some client) [])
       [click_predefined 3; predefined_settles (ok (created 1%Z));
        interval_fires; interval_fires; status_settles (ok completed);
        click_predefined 3; status_settles (ok completed);
        predefined_settles (ok (created 2%Z))] in
   let again :=
     run raced [click_predefined 3; predefined_settles (ok (created 3%Z))] in
   running (page raced) = false /\
   activeRunId (page raced) = value 2%Z /\
   interval (page raced) = Some 2%Z /\
   predefined_disabled 3 (page raced) = false /\
   interval (page again) = Some 3%Z /\
   status_requests 2 (page again) = 0 /\
   List.length (filter (fun c => match c with
                                 | runPredefinedQueries => true
                                 | _ => false
                                 end) (calls (page again))) = 3).
Proof.
  cbv zeta.
  assert (H : timer_consistent (page (run (initial c runs) events))).
  { apply run_consistent. reflexivity. }
  assert (P : polls_only ([] ++ created_ids events)
                (page (run (initial c runs) events))).
  { apply run_polls_only. split; [intros r []|discriminate]. }
  split; [exact H|]. split; [exact (proj1 P)|]. split.
  - intros R t n now. cbn [handle].
    unfold predefined_disabled, custom_disabled. rewrite R.
    repeat split; reflexivity.
  - vm_compute. repeat split; reflexivity.
Qed.

Lemma status_requests_same (runId : Z) (s s' : State) :
  calls s' = calls s -> status_requests runId s' = status_requests runId s.
Proof. unfold status_requests. intros ->. reflexivity. Qed.

Lemma status_requests_other (runId : Z) (c : Call) (s s' : State) :
  (forall r, c <> getQueryRunStatus r) ->
  calls s' = (calls s ++ [c])%list ->
  status_requests runId s' = status_requests runId s.
Proof.
  intros Hc E. unfold status_requests. rewrite E, filter_app, length_app.
  destruct c; try (cbn; lia). destruct (Hc runId0 eq_refl).
Qed.

(** An idle page stays idle under the events of polling, and sends no
    status request. *)
Lemma handle_idle (runId : Z) (s : Page) (e : Event) :
  poll_event e = true -> idle (page s) ->
  idle (page (handle s e)) /\
  status_requests runId (page (handle s e)) = status_requests runId (page s).
Proof.
  intros He (I & A & R).
  destruct e as [t|n|answer|now|answer| |answer| |answer];
    try discriminate He; cbn [handle].
  - unfold beginTick. rewrite I. split; [split; [|split]; assumption|].
    reflexivity.
  - destruct (awaiting_status s);
      [split; [split; [|split]; assumption|reflexivity]|].
    cbn [page]. unfold finishTick.
    destruct answer as [st|msg];
      [|split; [split; [|split]; assumption|reflexivity]].
    cbv zeta. destruct (is_terminal (status st)); cbn [fst].
    + split.
      * unfold idle.
        cbn [interval activeRunId running call set_running setActiveRunId
             set_progress].
        rewrite A. cbn [same_run]. auto.
      * apply (status_requests_other runId (getQueryRuns 10));
          [discriminate|reflexivity].
    + split; [split; [|split]; assumption|reflexivity].
  - destruct (awaiting_runs s);
      [split; [split; [|split]; assumption|reflexivity]|].
    cbn [page]. destruct answer;
      (split; [split; [|split]; assumption|reflexivity]).
Qed.

Lemma run_idle (runId : Z) (events : list Event) (s : Page) :
  forallb poll_event events = true -> idle (page s) ->
  idle (page (run s events)) /\
  status_requests runId (page (run s events))
    = status_requests runId (page s).
Proof.
  revert s. induction events as [|e events IH]; intros s He H.
  - split; [exact H|reflexivity].
  - cbn [forallb] in He. apply andb_true_iff in He as [He Hes].
    destruct (handle_idle runId s e He H) as [Hi Hr].
    destruct (IH (handle s e) Hes Hi) as [Ji Jr].
    split; [exact Ji|]. cbn [run fold_left]. unfold run in Jr.
    rewrite Jr. exact Hr.
Qed.

(** One event of polling on a page that polls [runId]: the page goes on
    polling, with one more status request for a firing, or it has received
    a terminal answer and is idle. *)
Lemma handle_polling (runId : Z) (s : Page) (e : Event) :
  poll_event e = true -> polling runId (page s) ->
  (polling runId (page (handle s e)) /\
   running (page (handle s e)) = running (page s) /\
   status_requests runId (page (handle s e))
     = status_requests runId (page s) + fired [e])
  \/
  (idle (page (handle s e)) /\ settles_terminal e = true /\
   status_requests runId (page (handle s e))
     = status_requests runId (page s)).
Proof.
  intros He (I & A).
  destruct e as [t|n|answer|now|answer| |answer| |answer];
    try discriminate He; cbn [handle].
  - left. unfold beginTick. rewrite I. cbn [page].
    split; [split; assumption|]. split; [reflexivity|].
    rewrite status_requests_call, Z.eqb_refl. reflexivity.
  - destruct (awaiting_status s);
      [left; split; [split; assumption|]; split; [reflexivity|unfold fired, status_requests;
         cbn [filter List.length calls set_progress set_queryRuns page fst
              finishLoadQueryRuns]; lia]|].
    cbn [page]. unfold finishTick.
    destruct answer as [st|msg];
      [|left; split; [split; assumption|]; split; [reflexivity|unfold fired, status_requests;
         cbn [filter List.length calls set_progress set_queryRuns page fst
              finishLoadQueryRuns]; lia]].
    cbv zeta. destruct (is_terminal (status st)) eqn:T; cbn [fst].
    + right. split; [|split; [exact T|]].
      * unfold idle.
        cbn [interval activeRunId running call set_running setActiveRunId
             set_progress].
        rewrite A. cbn [same_run polling_effect]. auto.
      * apply (status_requests_other runId (getQueryRuns 10));
          [discriminate|reflexivity].
    + left. split; [split; assumption|]. split; [reflexivity|unfold fired, status_requests;
         cbn [filter List.length calls set_progress set_queryRuns page fst
              finishLoadQueryRuns]; lia].
  - destruct (awaiting_runs s);
      [left; split; [split; assumption|]; split; [reflexivity|unfold fired, status_requests;
         cbn [filter List.length calls set_progress set_queryRuns page fst
              finishLoadQueryRuns]; lia]|].
    cbn [page]. left.
    destruct answer;
      (split; [split; assumption|]; split; [reflexivity|unfold fired, status_requests;
         cbn [filter List.length calls set_progress set_queryRuns page fst
              finishLoadQueryRuns]; lia]).
Qed.

Lemma fired_cons (e : Event) (events : list Event) :
  fired (e :: events) = fired [e] + fired events.
Proof. unfold fired. cbn [filter]. destruct e; reflexivity. Qed.

Lemma run_polling (runId : Z) (events : list Event) (s : Page) :
  forallb poll_event events = true -> polling runId (page s) ->
  (polling runId (page (run s events)) /\
   running (page (run s events)) = running (page s) /\
   status_requests runId (page (run s events))
     = status_requests runId (page s) + fired events)
  \/
  (idle (page (run s events)) /\
   existsb settles_terminal events = true /\
   status_requests runId (page (run s events))
     <= status_requests runId (page s) + fired events).
Proof.
  revert s. induction events as [|e events IH]; intros s He H.
  - left. split; [exact H|]. split; [reflexivity|]. cbn. lia.
  - cbn [forallb] in He. apply andb_true_iff in He as [He Hes].
    rewrite fired_cons. cbn [run fold_left existsb].
    destruct (handle_polling runId s e He H)
      as [(P & R & N)|(Hi & T & N)].
    + destruct (IH (handle s e) Hes P) as [(P' & R' & N')|(I' & T' & N')];
        unfold run in *.
      * left. split; [exact P'|]. split; [congruence|lia].
      * right. split; [exact I'|]. split; [rewrite T'; apply orb_true_r|lia].
    + destruct (run_idle runId events (handle s e) Hes Hi) as [I' N'].
      unfold run in *. right. split; [exact I'|].
      split; [rewrite T; reflexivity|lia].
Qed.

(** X9. Polling from start to end. On a page that polls [runId], under
    firings of the interval and answers that arrive in any order, either no
    terminal answer has come in yet, the page still polls the same run and
    has sent one status request per firing; or a terminal answer was among
    the answers, the page is idle (no interval, no active run, [running]
    false), it has sent at most one status request per firing, and it
    sends no further one whatever fires or arrives later. Without a terminal
    answer among the events the page still polls. When each answer arrives
    before the next firing, a firing with its answers is [tick]. *)
Theorem polling_until_terminal (s : Page) (runId : Z) (events : list Event) :
  polling runId (page s) ->
  forallb poll_event events = true ->
  let s' := run s events in
  ((polling runId (page s') /\
    running (page s') = running (page s) /\
    status_requests runId (page s')
      = status_requests runId (page s) + fired events)
   \/
   (idle (page s') /\
    existsb settles_terminal events = true /\
    status_requests runId (page s')
      <= status_requests runId (page s) + fired events /\
    forall later, forallb poll_event later = true ->
      status_requests runId (page (run s' later))
        = status_requests runId (page s'))) /\
  (existsb settles_terminal events = false -> polling runId (page s')) /\
  (forall answer runs,
     awaiting_status s = 0 -> awaiting_runs s = 0 ->
     page (run s [interval_fires; status_settles answer; runs_settle runs])
       = tick answer runs (page s)).
Proof.
  intros P He. cbv zeta.
  pose proof (run_polling runId events s He P) as H.
  split; [|split].
  - destruct H as [H|(I & T & N)]; [left; exact H|right].
    split; [exact I|]. split; [exact T|]. split; [exact N|].
    intros later Hl. apply (run_idle runId later _ Hl I).
  - intros T. destruct H as [(H & _)|(_ & T' & _)]; [exact H|congruence].
  - intros answer runs Hs Hr. rewrite tick_halves.
    destruct P as [I A]. cbn [run fold_left handle].
    unfold beginTick. rewrite I. cbn [awaiting_status page].
    rewrite Hs. cbn [awaiting_runs page]. rewrite Hr.
    destruct (snd (finishTick answer
                     (call (getQueryRunStatus runId) (page s)))); reflexivity.
Qed.

(** X10. A run that cannot be created leaves the page ready for another
    attempt. When [createQueryRun] fails, exactly one request was made,
    [running] is false again, nothing is polled that was not polled before,
    and the typed text is kept; when it succeeds the text area is cleared.
    When [runPredefinedQueries] fails, [running] is false again as well. *)
Theorem failed_run_resets_page (s : State) (c : Client) (now msg : string)
    (created : QueryRun) :
  client s = Some c ->
  custom_queries (customQueries s) <> [] ->
  let failed := handleRunCustom now (throw msg) s in
  let started := handleRunCustom now (ok created) s in
  let failed' := handleRunPredefined (throw msg) s in
  running failed = false /\ customQueries failed = customQueries s /\
  interval failed = interval s /\ activeRunId failed = activeRunId s /\
  List.length (calls failed) = S (List.length (calls s)) /\
  customQueries started = [] /\ running started = true /\
  activeRunId started = value (id created) /\
  running failed' = false /\ interval failed' = interval s /\
  calls failed' = (calls s ++ [runPredefinedQueries])%list.
Proof.
  intros Hc Hq. cbv zeta. unfold handleRunCustom, handleRunPredefined.
  rewrite Hc.
  assert (Hne : nonempty (trim (customQueries s)) = true).
  { destruct (nonempty (trim (customQueries s))) eqn:E; [reflexivity|].
    exfalso. apply Hq. unfold custom_queries.
    rewrite custom_queries_keep_trimmed.
    apply keep_trimmed_blank, split_newline_blank, trim_nil_iff.
    destruct (trim (customQueries s)); [reflexivity|discriminate E]. }
  rewrite Hne. cbn [negb].
  destruct (custom_queries (customQueries s)) as [|q qs]; [contradiction|].
  cbn [List.length Nat.eqb running customQueries interval activeRunId calls
       set_customQueries setActiveRunId call set_progress set_running].
  rewrite length_app. cbn [List.length].
  repeat split; try reflexivity. lia.
Qed.

End GeneratorFlowFacts.

(** ** The progress bar for well-formed status objects *)

Section ProgressBarFacts.
Import JS GeneratorPage.

(** X11. For a status object with a positive total below 2^53 and counts
    between 0 and the total, the progress is a double between 0 and 100; it
    does not decrease when [completed_queries] grows, it is exactly 0 for no
    completed query and exactly 100 when all are completed. *)
Theorem progress_percent_monotone (c1 c2 total : Z) :
  (0 < total <= 2 ^ 53)%Z -> (0 <= c1)%Z -> (c1 <= c2)%Z -> (c2 <= total)%Z ->
  (exists q1 q2,
     progress_percent c1 total = finite q1 /\
     progress_percent c2 total = finite q2 /\
     (0 <= q1)%Q /\ (q1 <= q2)%Q /\ (q2 <= 100)%Q) /\
  progress_percent 0 total = finite 0 /\
  progress_percent total total = finite 100.
Proof.
  intros Ht H1 H12 H2.
  assert (Htq : (0 < inject_Z total)%Q).
  { change (inject_Z 0 < inject_Z total)%Q. rewrite <- Zlt_Qlt. lia. }
  assert (Hq : forall c : Z, (0 <= c <= total)%Z ->
            (inject_Z 0 <= inject_Z c / inject_Z total)%Q /\
            (inject_Z c / inject_Z total <= inject_Z 1)%Q).
  { intros c [L U]. split.
    - apply Qle_shift_div_l; [exact Htq|].
      rewrite Qmult_0_l. change 0%Q with (inject_Z 0).
      rewrite <- Zle_Qle. exact L.
    - apply Qle_shift_div_r; [exact Htq|].
      rewrite Qmult_1_l. rewrite <- Zle_Qle. exact U. }
  split; [|split].
  - rewrite !progress_percent_safe by lia.
    destruct (Hq c1 ltac:(lia)) as [A1 B1].
    destruct (Hq c2 ltac:(lia)) as [A2 B2].
    destruct (Number_of_between _ 0 1 ltac:(lia) ltac:(lia) A1 B1)
      as (r1 & E1 & L1 & U1).
    destruct (Number_of_between _ 0 1 ltac:(lia) ltac:(lia) A2 B2)
      as (r2 & E2 & L2 & U2).
    assert (R : (r1 <= r2)%Q).
    { apply (Number_of_mono _ _ r1 r2) with (2 := E1) (3 := E2).
      unfold Qdiv. apply Qmult_le_compat_r.
      - rewrite <- Zle_Qle. exact H12.
      - apply Qlt_le_weak, Qinv_lt_0_compat, Htq. }
    rewrite E1, E2. cbn [number_mul].
    change (inject_Z 0) with 0%Q in L1, L2.
    change (inject_Z 1) with 1%Q in U1, U2.
    change (inject_Z 100) with 100%Q.
    destruct (Number_of_between (r1 * 100) 0 100 ltac:(lia) ltac:(lia))
      as (q1 & F1 & M1 & N1);
      [change (inject_Z 0) with 0%Q; lra
      |change (inject_Z 100) with 100%Q; lra|].
    destruct (Number_of_between (r2 * 100) 0 100 ltac:(lia) ltac:(lia))
      as (q2 & F2 & M2 & N2);
      [change (inject_Z 0) with 0%Q; lra
      |change (inject_Z 100) with 100%Q; lra|].
    exists q1, q2. split; [exact F1|]. split; [exact F2|].
    split; [exact M1|]. split; [|exact N2].
    apply (Number_of_mono _ _ q1 q2) with (2 := F1) (3 := F2). lra.
  - apply progress_percent_none, Ht.
  - apply progress_percent_full, Ht.
Qed.

Lemma progress_percent_monotone_witness :
  (exists q1 q2,
     progress_percent 1 3 = finite q1 /\ progress_percent 2 3 = finite q2 /\
     (0 <= q1)%Q /\ (q1 <= q2)%Q /\ (q2 <= 100)%Q) /\
  progress_percent 0 3 = finite 0 /\
  progress_percent 3 3 = finite 100.
Proof.
  apply (progress_percent_monotone 1 2 3); vm_compute; intuition discriminate.
Defined.

End ProgressBarFacts.

(** ** Expanding gaps and responses *)

Section ExpandFacts.
Import JS GapsPageUI.

Section SetFacts.
Variable A : Type.
Variable eqb : A -> A -> bool.
Hypothesis eqb_spec : forall x y, eqb x y = true <-> x = y.

Lemma eqb_same (x : A) : eqb x x = true.
Proof. apply eqb_spec. reflexivity. Qed.

Lemma eqb_sym (x y : A) : eqb x y = eqb y x.
Proof.
  destruct (eqb x y) eqn:E, (eqb y x) eqn:E'; try reflexivity.
  - apply eqb_spec in E. subst. rewrite eqb_same in E'. discriminate.
  - apply eqb_spec in E'. subst. rewrite eqb_same in E. discriminate.
Qed.

Lemma eqb_trans_false (x y z : A) :
  eqb x y = true -> eqb x z = eqb y z.
Proof. intros E. apply eqb_spec in E. subst. reflexivity. Qed.

Lemma set_has_add (x y : A) (s : list A) :
  set_has A eqb y (set_add A eqb x s) = eqb y x || set_has A eqb y s.
Proof.
  unfold set_add. destruct (set_has A eqb x s) eqn:H.
  - destruct (eqb y x) eqn:E; [|reflexivity].
    apply eqb_spec in E. subst. rewrite H. reflexivity.
  - unfold set_has. rewrite existsb_app. cbn [existsb].
    rewrite orb_false_r. apply orb_comm.
Qed.

Lemma set_has_delete (x y : A) (s : list A) :
  set_has A eqb y (set_delete A eqb x s) = negb (eqb y x) && set_has A eqb y s.
Proof.
  unfold set_has, set_delete.
  induction s as [|a s IH]; cbn [filter existsb].
  - rewrite andb_false_r. reflexivity.
  - destruct (eqb x a) eqn:E; cbn [negb existsb].
    + rewrite IH. apply eqb_spec in E. subst a.
      destruct (eqb y x); reflexivity.
    + rewrite IH. destruct (eqb y a) eqn:E'; cbn [orb].
      * apply eqb_spec in E'. subst a.
        rewrite (eqb_sym y x), E. reflexivity.
      * reflexivity.
Qed.

Lemma set_has_toggle (x y : A) (s : list A) :
  set_has A eqb y (set_toggle A eqb x s) =
  if eqb y x then negb (set_has A eqb y s) else set_has A eqb y s.
Proof.
  unfold set_toggle. destruct (set_has A eqb x s) eqn:H.
  - rewrite set_has_delete. destruct (eqb y x) eqn:E; cbn [negb andb].
    + apply eqb_spec in E. subst. rewrite H. reflexivity.
    + reflexivity.
  - rewrite set_has_add. destruct (eqb y x) eqn:E; cbn [orb].
    + apply eqb_spec in E. subst. rewrite H. reflexivity.
    + reflexivity.
Qed.

Lemma set_toggle_NoDup (x : A) (s : list A) :
  NoDup s -> NoDup (set_toggle A eqb x s).
Proof.
  intros Hs. unfold set_toggle, set_add, set_delete.
  destruct (set_has A eqb x s) eqn:H.
  - apply NoDup_filter. exact Hs.
  - apply NoDup_app; [exact Hs|repeat constructor; intros []|].
    intros a Ha [E|[]]. subst a.
    unfold set_has in H.
    assert (Hex : existsb (eqb x) s = true).
    { apply existsb_exists. exists x. split; [exact Ha|apply eqb_same]. }
    congruence.
Qed.

End SetFacts.

(** X12. [toggleGap] flips the expansion of the clicked row and of no other
    row: after toggling [i], row [j] is expanded exactly when [j = i] and it
    was collapsed, or [j <> i] and it was expanded. Toggling twice restores
    every row, and the set never holds an index twice. *)
Theorem toggleGap_flips_one_row (i j : Z) (expandedGaps : list Z) :
  set_has Z Z.eqb j (toggleGap i expandedGaps) =
    (if (j =? i)%Z then negb (set_has Z Z.eqb j expandedGaps)
     else set_has Z Z.eqb j expandedGaps) /\
  set_has Z Z.eqb j (toggleGap i (toggleGap i expandedGaps))
    = set_has Z Z.eqb j expandedGaps /\
  (NoDup expandedGaps -> NoDup (toggleGap i expandedGaps)).
Proof.
  unfold toggleGap.
  assert (H : forall s, set_has Z Z.eqb j (set_toggle Z Z.eqb i s) =
              (if (j =? i)%Z then negb (set_has Z Z.eqb j s)
               else set_has Z Z.eqb j s)).
  { intros s. apply set_has_toggle. intros x y. apply Z.eqb_eq. }
  split; [apply H|]. split.
  - rewrite !H. destruct (j =? i)%Z; [apply negb_involutive|reflexivity].
  - apply set_toggle_NoDup. intros x y. apply Z.eqb_eq.
Qed.

Lemma uint_no_minus (u : Decimal.uint) :
  has_char "-" (NilEmpty.string_of_uint u) = false.
Proof.
  induction u; cbn [NilEmpty.string_of_uint]; try reflexivity;
    rewrite has_char_cons, IHu; reflexivity.
Qed.

Lemma show_number_no_minus (n : Z) :
  (0 <= n)%Z -> has_char "-" (show_number n) = false.
Proof.
  intros Hn. unfold show_number.
  destruct n as [|p|p]; [reflexivity| |lia].
  cbn [Z.to_int NilZero.string_of_int]. unfold NilZero.string_of_uint.
  destruct (Pos.to_uint p); try reflexivity; apply uint_no_minus.
Qed.

Lemma show_number_inj (a b : Z) : show_number a = show_number b -> a = b.
Proof.
  unfold show_number. intros H.
  assert (N : forall z : Z,
            NilZero.int_of_string (NilZero.string_of_int (Z.to_int z))
            = Some (Z.to_int z)).
  { intros z. apply NilZero.isi; destruct z; cbn [Z.to_int];
      try discriminate; intros [= E];
      exact (Unsigned.to_uint_nonnil _ E). }
  pose proof (N a) as Ha. rewrite H, N in Ha.
  apply Stdlib.Numbers.DecimalZ.to_int_inj. congruence.
Qed.

Lemma response_key_inj (g r g' r' : Z) :
  (0 <= g)%Z -> (0 <= g')%Z ->
  response_key g r = response_key g' r' -> g = g' /\ r = r'.
Proof.
  intros Hg Hg' H. unfold response_key in H.
  assert (Hs : split_at "-" (show_number g ++ String "-" (show_number r))
               = split_at "-" (show_number g' ++ String "-" (show_number r'))).
  { exact (f_equal (split_at "-") H). }
  rewrite !split_at_first in Hs by (apply show_number_no_minus; assumption).
  injection Hs as H1 H2.
  split; apply show_number_inj; assumption.
Qed.

(** X13. The keys of expanded responses do not collide: for row and response
    indices counted from 0, toggling response [(g', r')] flips
    [isResponseExpanded(g, r)] exactly when [g = g'] and [r = r'], and leaves
    every other response as it was. *)
Theorem toggleResponse_flips_one_response (g r g' r' : Z)
    (expandedResponses : list string) :
  (0 <= g)%Z -> (0 <= g')%Z ->
  isResponseExpanded g r (toggleResponse g' r' expandedResponses) =
  if ((g =? g') && (r =? r'))%Z
  then negb (isResponseExpanded g r expandedResponses)
  else isResponseExpanded g r expandedResponses.
Proof.
  intros Hg Hg'. unfold isResponseExpanded, toggleResponse.
  rewrite set_has_toggle by (intros x y; apply String.eqb_eq).
  destruct (String.eqb_spec (response_key g r) (response_key g' r')) as [E|E].
  - destruct (response_key_inj g r g' r' Hg Hg' E) as [-> ->].
    rewrite !Z.eqb_refl. reflexivity.
  - destruct (Z.eqb_spec g g') as [->|]; [|reflexivity].
    destruct (Z.eqb_spec r r') as [->|]; [|reflexivity].
    contradiction.
Qed.

Lemma toggleResponse_flips_one_response_witness :
  isResponseExpanded 1 12 (toggleResponse 11 2 ["1-12"]) = true /\
  isResponseExpanded 11 2 (toggleResponse 11 2 ["1-12"]) = true.
Proof.
  split.
  - rewrite (toggleResponse_flips_one_response 1 12 11 2 ["1-12"]);
      [reflexivity|discriminate|discriminate].
  - rewrite (toggleResponse_flips_one_response 11 2 11 2 ["1-12"]);
      [reflexivity|discriminate|discriminate].
Defined.

End ExpandFacts.

(** ** Brand row, competitor rows and ranks *)

Section LeaderboardUseFacts.
Import JS CompetitorsPage CompetitorsPageUI.

Lemma descending_filter (f : CompetitorData -> bool) (l : list CompetitorData) :
  descending_rate l -> descending_rate (filter f l).
Proof. apply StronglySorted_filter. Qed.

Lemma find_descending_max (l : list CompetitorData) (b : CompetitorData) :
  descending_rate l -> find is_brand l = Some b ->
  In b l /\ is_brand b = true /\
  forall c, In c l -> is_brand c = true ->
            (mention_rate c <= mention_rate b)%Q.
Proof.
  unfold descending_rate.
  induction 1 as [|x r Hs IH Hx]; cbn [find]; [discriminate|].
  destruct (is_brand x) eqn:Bx.
  - intros [= <-]. split; [left; reflexivity|]. split; [exact Bx|].
    intros c [<-|Hc] _; [apply Qle_refl|].
    rewrite Forall_forall in Hx. apply Hx, Hc.
  - intros Hf. destruct (IH Hf) as (Hin & Hb & Hmax).
    split; [right; exact Hin|]. split; [exact Hb|].
    intros c [<-|Hc] Bc; [congruence|]. apply Hmax; assumption.
Qed.

Lemma find_none_all (l : list CompetitorData) :
  find is_brand l = None ->
  filter (fun c => negb (is_brand c)) l = l.
Proof.
  induction l as [|x r IH]; cbn [find filter]; [reflexivity|].
  destruct (is_brand x); [discriminate|]. intros H. cbn [negb].
  rewrite (IH H). reflexivity.
Qed.

Lemma filter_partition_length {A} (f : A -> bool) (l : list A) :
  List.length (filter f l) + List.length (filter (fun x => negb (f x)) l)
  = List.length l.
Proof.
  induction l as [|x r IH]; cbn [filter List.length]; [reflexivity|].
  destruct (f x); cbn [negb List.length]; lia.
Qed.

Lemma filter_length_perm {A} (f : A -> bool) (l l' : list A) :
  Permutation l l' ->
  List.length (filter f l) = List.length (filter f l').
Proof.
  induction 1 as [|x l l' _ IH|x y l|l l' l'' _ IH1 _ IH2]; cbn [filter].
  - reflexivity.
  - destruct (f x); cbn [List.length]; congruence.
  - destruct (f x), (f y); reflexivity.
  - congruence.
Qed.

(** X14. The brand row and the competitor rows taken from the leaderboard.
    [competitorData] holds no brand entry, is still in descending order of
    mention rate, and together with the brand entries accounts for every
    entry of the analysis. [brandData], when there is one, is an entry of the
    analysis marked as brand whose mention rate is the highest among the
    brand entries; when there is none, no entry is marked as brand and
    [competitorData] is the whole leaderboard. *)
Theorem brand_and_competitor_rows (a : CompetitorAnalysis) :
  Forall (fun c => is_brand c = false) (competitorData (Some a)) /\
  descending_rate (competitorData (Some a)) /\
  List.length (filter is_brand (comparison a))
    + List.length (competitorData (Some a))
    = List.length (comparison a) /\
  match brandData (Some a) with
  | Some b =>
      In b (comparison a) /\ is_brand b = true /\
      forall c, In c (comparison a) -> is_brand c = true ->
                (mention_rate c <= mention_rate b)%Q
  | None =>
      Forall (fun c => is_brand c = false) (comparison a) /\
      competitorData (Some a) = sortedComparison (Some a)
  end.
Proof.
  unfold competitorData, brandData, sortedComparison.
  pose proof (sort_perm (comparison a)) as Hp.
  pose proof (sort_descending (comparison a)) as Hd.
  split; [|split; [|split]].
  - apply Forall_forall. intros c Hc. apply filter_In in Hc as [_ Hc].
    apply negb_true_iff. exact Hc.
  - apply descending_filter. exact Hd.
  - rewrite <- (filter_length_perm is_brand _ _ Hp).
    rewrite filter_partition_length. apply Permutation_length, Hp.
  - destruct (find is_brand (sort by_mention_rate (comparison a))) as [b|] eqn:F.
    + destruct (find_descending_max _ _ Hd F) as (Hin & Hb & Hmax).
      split; [apply (Permutation_in _ Hp), Hin|]. split; [exact Hb|].
      intros c Hc Bc. apply Hmax; [|exact Bc].
      apply (Permutation_in _ (Permutation_sym Hp)), Hc.
    + split; [|apply find_none_all, F].
      apply Forall_forall. intros c Hc.
      apply (Permutation_in _ (Permutation_sym Hp)) in Hc.
      pose proof (find_none _ _ F _ Hc) as H. exact H.
Qed.

Lemma descending_nth (l : list CompetitorData) (i j : nat)
    (x y : CompetitorData) :
  descending_rate l -> i <= j ->
  nth_error l i = Some x -> nth_error l j = Some y ->
  (mention_rate y <= mention_rate x)%Q.
Proof.
  unfold descending_rate. intros Hs. revert i j.
  induction Hs as [|h r Hs IH Hh]; intros i j Hij Hi Hj.
  - destruct i; discriminate Hi.
  - destruct i as [|i], j as [|j]; cbn [nth_error] in *.
    + injection Hi as <-. injection Hj as <-. apply Qle_refl.
    + injection Hi as <-. rewrite Forall_forall in Hh.
      apply Hh. eapply nth_error_In, Hj.
    + lia.
    + apply (IH i j); [lia|assumption..].
Qed.

(** X15. Ranks on the leaderboard. The rows are the entries of the analysis
    in another order, each entry with exactly one row (with as many rows as
    it has copies among the entries); a row with a smaller rank never has a
    smaller mention rate than a row further down, and the row ranked #1 has
    the highest mention rate of all entries. *)
Theorem leaderboard_ranks (a : CompetitorAnalysis) :
  Permutation (sortedComparison (Some a)) (comparison a) /\
  List.length (sortedComparison (Some a)) = List.length (comparison a) /\
  (forall c, In c (comparison a) <->
             exists i, nth_error (sortedComparison (Some a)) i = Some c) /\
  (forall i j x y,
     rank i <= rank j ->
     nth_error (sortedComparison (Some a)) i = Some x ->
     nth_error (sortedComparison (Some a)) j = Some y ->
     (mention_rate y <= mention_rate x)%Q) /\
  (forall top c,
     nth_error (sortedComparison (Some a)) 0 = Some top ->
     In c (comparison a) -> (mention_rate c <= mention_rate top)%Q).
Proof.
  unfold sortedComparison.
  pose proof (sort_perm (comparison a)) as Hp.
  pose proof (sort_descending (comparison a)) as Hd.
  split; [exact Hp|].
  split; [apply Permutation_length, Hp|]. split; [|split].
  - intros c. split.
    + intros Hc. apply (Permutation_in _ (Permutation_sym Hp)) in Hc.
      apply In_nth_error, Hc.
    + intros [i Hi]. apply (Permutation_in _ Hp).
      apply (nth_error_In _ _ Hi).
  - intros i j x y Hr. unfold rank in Hr.
    apply (descending_nth _ i j x y Hd). lia.
  - intros top c Ht Hc.
    apply (Permutation_in _ (Permutation_sym Hp)) in Hc.
    apply In_nth_error in Hc as [j Hj].
    apply (descending_nth _ 0 j top c Hd); [lia|assumption..].
Qed.

(** X16. Bar colours and gradients of the chart. The colour lookup
    [BAR_COLORS[index % BAR_COLORS.length]] is defined for every row index.
    On a leaderboard with at least two rows every bar is filled with a
    gradient that the chart defines, and only a brand row uses gradient 0; a
    leaderboard that consists of one non-brand row refers to gradient 1,
    which is not defined. *)
Theorem bar_fill_defined (rows : list CompetitorData) (entry : CompetitorData)
    (index : nat) :
  bar_color index <> None /\
  (2 <= List.length rows -> nth_error rows index = Some entry ->
     In (cell_gradient entry index) (defined_gradients rows) /\
     (cell_gradient entry index = 0 -> is_brand entry = true)) /\
  (rows = [entry] -> is_brand entry = false ->
     ~ In (cell_gradient entry 0) (defined_gradients rows)).
Proof.
  split; [|split].
  - unfold bar_color. apply nth_error_Some.
    apply Nat.mod_upper_bound. discriminate.
  - intros Hn Hnth.
    assert (Hi : index < List.length rows).
    { apply nth_error_Some. congruence. }
    unfold cell_gradient, defined_gradients. split.
    + apply in_seq. split; [lia|]. cbn [Nat.add].
      destruct (is_brand entry); [lia|].
      pose proof (Nat.Div0.mod_le index (List.length BAR_COLORS)) as Hle.
      destruct (index mod List.length BAR_COLORS) as [|k]; lia.
    + destruct (is_brand entry); [reflexivity|].
      destruct (index mod List.length BAR_COLORS); discriminate.
  - intros -> Hb. unfold cell_gradient, defined_gradients. rewrite Hb.
    cbn. intros [H|[]]. discriminate H.
Qed.

End LeaderboardUseFacts.


(** ** Settings page: competitors and account deletion *)

Section SettingsFacts.
Import JS Api ApiCalls TextOps SettingsPage SettingsRequests.
Local Open Scope list_scope.

Lemma trim_idem (s : text) : trim (trim s) = trim s.
Proof.
  unfold trim at 1. rewrite trim_trimStart. apply trim_trimEnd.
Qed.

Lemma text_eqb_eq (a b : text) : text_eqb a b = true <-> a = b.
Proof.
  unfold text_eqb. revert b.
  induction a as [|x a IH]; intros [|y b]; cbn [List.length combine forallb fst snd Nat.eqb andb].
  - split; trivial.
  - split; discriminate.
  - split; discriminate.
  - specialize (IH b). rewrite Bool.andb_true_iff in IH.
    rewrite !Bool.andb_true_iff, N.eqb_eq. split.
    + intros (L & E & F). f_equal; [exact E|]. apply IH. auto.
    + intros E. injection E as -> ->.
      destruct IH as [_ IH]. destruct (IH eq_refl). auto.
Qed.

Lemma trimmed_or_undefined_clean (x y : text) :
  trimmed_or_undefined x = Some y -> y <> [] /\ trim y = y.
Proof.
  unfold trimmed_or_undefined.
  destruct (trim x) eqn:E; cbn; [discriminate|].
  intros [= <-]. split; [discriminate|].
  rewrite <- E. apply trim_idem.
Qed.

Lemma data_of_form_clean (f : CompetitorForm) :
  nonempty (trim (form_name f)) = true -> clean_data (data_of_form f).
Proof.
  intros H. unfold clean_data, data_of_form; cbn.
  split; [|split; [|split]].
  - destruct (trim (form_name f)); [discriminate H|discriminate].
  - apply trim_idem.
  - intros a Ha. apply (trimmed_or_undefined_clean _ _ Ha).
  - intros a Ha. apply (trimmed_or_undefined_clean _ _ Ha).
Qed.

Lemma filter_fresh_id (l : list Competitor) (added : Competitor) :
  ~ In (id added) (ids l) ->
  filter (fun c => negb (id c =? id added)%Z) (l ++ [added]) = l.
Proof.
  intros H. rewrite filter_app. cbn [filter].
  rewrite Z.eqb_refl. cbn [negb]. rewrite app_nil_r.
  induction l as [|x l IH]; [reflexivity|].
  cbn [filter]. destruct (id x =? id added)%Z eqn:E.
  - apply Z.eqb_eq in E. exfalso. apply H. left. exact E.
  - cbn [negb]. f_equal. apply IH. intros Hin. apply H. right. exact Hin.
Qed.

Lemma ids_map_update (l : list Competitor) (updated : Competitor) :
  ids (map (fun c => if (id c =? id updated)%Z then updated else c) l) = ids l.
Proof.
  unfold ids. rewrite map_map. apply map_ext_in. intros c _.
  destruct (id c =? id updated)%Z eqn:E; [|reflexivity].
  apply Z.eqb_eq in E. symmetry. exact E.
Qed.

(** X17. The settings page sends the server only clean competitor
    payloads: [handleAddCompetitor] and [handleUpdateCompetitor] make at most
    one call, whose name is non-empty and whose name, aliases and website
    carry no surrounding white space (a blank aliases or website field is
    left out); with a blank name they do nothing at all. When the call fails,
    or the confirm dialog of [handleDeleteCompetitor] is declined, the
    competitor list is left as it was. *)
Theorem competitor_handlers_send_clean_data (s : State) :
  (forall answer,
     (exists new, calls (handleAddCompetitor answer s) = calls s ++ new /\
                  Forall clean_call new /\ (List.length new <= 1)%nat) /\
     (blank (form_name (newCompetitor s)) = true ->
      handleAddCompetitor answer s = s)) /\
  (forall i answer,
     (exists new, calls (handleUpdateCompetitor i answer s) = calls s ++ new /\
                  Forall clean_call new /\ (List.length new <= 1)%nat) /\
     (blank (form_name (editingCompetitor s)) = true ->
      handleUpdateCompetitor i answer s = s)) /\
  (forall e,
     competitors (handleAddCompetitor (throw e) s) = competitors s /\
     (forall i,
        competitors (handleUpdateCompetitor i (throw e) s) = competitors s /\
        competitors (handleDeleteCompetitor i true (throw e) s)
        = competitors s)) /\
  (forall i answer, handleDeleteCompetitor i false answer s = s).
Proof.
  split; [|split; [|split]].
  - intros answer. unfold handleAddCompetitor. split.
    + destruct (client s) as [c|]; [|exists []; rewrite app_nil_r; auto].
      destruct (nonempty (trim (form_name (newCompetitor s)))) eqn:N;
        cbn [negb]; [|exists []; rewrite app_nil_r; auto].
      exists [addCompetitor c (data_of_form (newCompetitor s))].
      split; [destruct answer; reflexivity|]. split; [|cbn; lia].
      constructor; [|constructor]. apply data_of_form_clean, N.
    + intros B. apply trim_nil_iff in B. rewrite B. cbn.
      destruct (client s); reflexivity.
  - intros i answer. unfold handleUpdateCompetitor. split.
    + destruct (client s) as [c|]; [|exists []; rewrite app_nil_r; auto].
      destruct (nonempty (trim (form_name (editingCompetitor s)))) eqn:N;
        cbn [negb]; [|exists []; rewrite app_nil_r; auto].
      exists [updateCompetitor c i (data_of_form (editingCompetitor s))].
      split; [destruct answer; reflexivity|]. split; [|cbn; lia].
      constructor; [|constructor]. apply data_of_form_clean, N.
    + intros B. apply trim_nil_iff in B. rewrite B. cbn.
      destruct (client s); reflexivity.
  - intros e. split; [|intros i; split].
    + unfold handleAddCompetitor. destruct (client s); [|reflexivity].
      destruct (negb _); reflexivity.
    + unfold handleUpdateCompetitor. destruct (client s); [|reflexivity].
      destruct (negb _); reflexivity.
    + unfold handleDeleteCompetitor. destruct (client s); reflexivity.
  - intros i answer. unfold handleDeleteCompetitor.
    destruct (client s); reflexivity.
Qed.

(** X18. Adding a competitor and then deleting it restores the list: when the
    server answers the add with a competitor whose id is not in the list, a
    confirmed and successful [handleDeleteCompetitor] of that id gives back
    exactly the competitors shown before, in their order. *)
Theorem add_then_delete_competitor (s : State) (c : Z) (added : Competitor) :
  client s = Some c ->
  blank (form_name (newCompetitor s)) = false ->
  ~ In (id added) (ids (competitors s)) ->
  competitors (handleAddCompetitor (ok added) s)
  = competitors s ++ [added] /\
  competitors
    (handleDeleteCompetitor (id added) true (ok tt)
       (handleAddCompetitor (ok added) s))
  = competitors s.
Proof.
  intros C B F.
  assert (N : nonempty (trim (form_name (newCompetitor s))) = true).
  { destruct (trim (form_name (newCompetitor s))) eqn:E; [|reflexivity].
    apply trim_nil_iff in E. congruence. }
  assert (A : competitors (handleAddCompetitor (ok added) s)
              = competitors s ++ [added]).
  { unfold handleAddCompetitor. rewrite C, N. reflexivity. }
  assert (C' : client (handleAddCompetitor (ok added) s) = Some c).
  { unfold handleAddCompetitor. rewrite C, N. cbn. exact C. }
  split; [exact A|].
  unfold handleDeleteCompetitor. rewrite C'. cbn [negb].
  cbn [with_competitors competitors]. rewrite A.
  apply filter_fresh_id, F.
Qed.

(** X19. A successful [handleUpdateCompetitor] replaces the edited row and
    nothing else: when the server answers with a competitor of the same id,
    the list keeps its ids in their order, every row is the answer or an
    untouched old row with a different id, a listed id now shows the answer,
    and the edit form is closed. *)
Theorem update_competitor_in_place (s : State) (c : Z) (updated : Competitor) :
  client s = Some c ->
  blank (form_name (editingCompetitor s)) = false ->
  let s' := handleUpdateCompetitor (id updated) (ok updated) s in
  ids (competitors s') = ids (competitors s) /\
  (forall x, In x (competitors s') ->
     x = updated \/ (In x (competitors s) /\ id x <> id updated)) /\
  (In (id updated) (ids (competitors s)) -> In updated (competitors s')) /\
  editingCompetitorId s' = None.
Proof.
  intros C B.
  assert (N : nonempty (trim (form_name (editingCompetitor s))) = true).
  { destruct (trim (form_name (editingCompetitor s))) eqn:E; [|reflexivity].
    apply trim_nil_iff in E. congruence. }
  cbv zeta. unfold handleUpdateCompetitor. rewrite C, N.
  cbn [negb with_editing with_competitors competitors editingCompetitorId].
  split; [apply ids_map_update|]. split; [|split; [|reflexivity]].
  - intros x Hx. apply in_map_iff in Hx. destruct Hx as (y & E & Hy).
    destruct (id y =? id updated)%Z eqn:I.
    + left. symmetry. exact E.
    + right. subst x. split; [exact Hy|]. apply Z.eqb_neq, I.
  - intros Hin. unfold ids in Hin. apply in_map_iff in Hin.
    destruct Hin as (y & E & Hy). apply in_map_iff. exists y.
    split; [|exact Hy]. rewrite E, Z.eqb_refl. reflexivity.
Qed.

(** X20. [handleDeleteAccount] is guarded twice. Unless the confirmation text
    is exactly DELETE and a password is entered, nothing is sent, the session
    is kept and an error message is shown. Otherwise one POST request to
    [/account/delete] with that password and the text DELETE is sent. When
    the answer is in the 200-299 range with a body that parses, the token
    and the user are removed from [localStorage] and the page goes to
    [/login?deleted=true]. In every other case nothing is pushed, a
    non-empty error is shown and the button is released; the session is
    kept unless the answer is a 401, which logs the browser out (token and
    user removed, location [/login]). *)
Theorem handleDeleteAccount_outcome (J : Type) (json : Response -> result J)
    (detail : J -> option string) (stringify : text -> text -> string)
    (base : string) (fetch : Request -> Response) (s : State) :
  let s' := handleDeleteAccount J json detail stringify base fetch s in
  let c := call_deleteAccount J json detail stringify base fetch
             (Some (browser s)) (deletePassword s) (deleteConfirmText s) in
  let response := fetch (c_sent c) in
  (deleteConfirmText s <> DELETE \/ deletePassword s = [] ->
   calls s' = calls s /\ browser s' = browser s /\ pushed s' = pushed s /\
   deleteError s' <> "" /\ deleteLoading s' = deleteLoading s) /\
  (deleteConfirmText s = DELETE -> deletePassword s <> [] ->
   calls s' = calls s ++ [deleteAccount (deletePassword s) DELETE] /\
   Forall clean_call [deleteAccount (deletePassword s) DELETE] /\
   req_url (c_sent c) = (base ++ "/account/delete")%string /\
   method (req_init (c_sent c)) = Some "POST" /\
   body (req_init (c_sent c)) = Some (stringify (deletePassword s) DELETE) /\
   (forall a, response_ok response = true -> json response = ok a ->
      stored_token (browser s') = None /\
      dict_get "user" (localStorage (browser s')) = None /\
      location_href (browser s') = location_href (browser s) /\
      pushed s' = pushed s ++ ["/login?deleted=true"]) /\
   (response_ok response = false \/ (exists e, json response = throw e) ->
      browser s' = (if (status response =? 401)%Z
                    then logged_out (browser s) else browser s) /\
      pushed s' = pushed s /\
      truthy_string (deleteError s') = true /\ deleteLoading s' = false)).
Proof.
  cbv zeta. unfold handleDeleteAccount. split.
  - intros [H|H].
    + destruct (text_eqb (deleteConfirmText s) DELETE) eqn:E.
      * apply text_eqb_eq in E. contradiction.
      * cbn. repeat split. discriminate.
    + rewrite H. destruct (text_eqb (deleteConfirmText s) DELETE); cbn;
        repeat split; discriminate.
  - intros H P.
    assert (E : text_eqb (deleteConfirmText s) DELETE = true)
      by (apply text_eqb_eq; exact H).
    rewrite E. cbn [negb].
    assert (N : nonempty (deletePassword s) = true)
      by (destruct (deletePassword s); [contradiction|reflexivity]).
    rewrite N. cbn [negb]. rewrite H.
    cbn [browser call with_delete].
    unfold call_deleteAccount, api_detail.
    cbn [c_sent c_outcome c_window].
    destruct (fetchWithAuth_browser base fetch (browser s) "/account/delete"
                (api_options (Some "POST")
                   (Some (stringify (deletePassword s) DELETE))))
      as [Hs Hw].
    rewrite Hs, Hw. rewrite fetchWithAuth_sent.
    set (response := fetch _).
    cbn [req_url req_init method body].
    assert (Hc : forall s0 : State,
              calls (match json response with
                     | ok _ => with_browser
                                 (Auth.removeItem "user"
                                    (Auth.removeItem "token" (browser s0)))
                                 "/login?deleted=true" s0
                     | throw message =>
                         with_delete false
                           (if truthy_string message then message
                            else "Failed to delete account") s0
                     end) = calls s0).
    { intros s0. destruct (json response); reflexivity. }
    split.
    { destruct (response_ok response).
      - rewrite Hc. reflexivity.
      - destruct (json response) as [err|e]; reflexivity. }
    split.
    { constructor; [|constructor]. cbn. split; [exact P|reflexivity]. }
    split; [reflexivity|]. split; [reflexivity|]. split; [reflexivity|].
    split.
    + intros a Hok Ha. rewrite Hok, Ha.
      assert (H401 : (status response =? 401)%Z = false).
      { destruct (Z.eqb_spec (status response) 401) as [E4|E4];
          [|reflexivity].
        rewrite (response_ok_401 _ E4) in Hok. discriminate. }
      rewrite H401.
      cbn [with_browser browser pushed call with_delete set_browser].
      destruct (stored_token_removed (browser s)) as (T & U).
      split; [exact T|]. split; [exact U|]. split; reflexivity.
    + intros Hfail.
      assert (Hout : exists message,
                (if response_ok response then json response
                 else match json response with
                      | ok error =>
                          throw match detail error with
                                | Some d => d
                                | None => "Failed to delete account"
                                end
                      | throw e => throw e
                      end) = throw message /\
                ((status response =? 401)%Z = true ->
                 response_ok response = false)).
      { assert (H4 : (status response =? 401)%Z = true ->
                     response_ok response = false).
        { intros E4. apply Z.eqb_eq in E4. apply response_ok_401, E4. }
        destruct (response_ok response) eqn:Hok.
        - destruct Hfail as [F|[e F]]; [discriminate|].
          rewrite F. eauto.
        - destruct (json response) as [err|e]; eauto. }
      destruct Hout as (message & Hm & _). rewrite Hm.
      cbn [with_browser browser pushed call with_delete set_browser
           deleteError deleteLoading].
      split; [reflexivity|]. split; [reflexivity|]. split; [|reflexivity].
      destruct (truthy_string message) eqn:M; [exact M|reflexivity].
Qed.

End SettingsFacts.


(** ** The run selector in use *)

Section RunSelectorUse.
Import JS Api RunSelector RunSelectorUI.
Local Open Scope list_scope.

Variable p : Page.
Variable run : option string.
Variable runs : list QueryRun.

(** The ids of the listed runs are whole numbers below 2^53 in size, the
    numbers that print as their digits. *)
Hypothesis safe_ids :
  Forall (fun r => (- 2 ^ 53 < id r < 2 ^ 53)%Z) runs.

Lemma analysis_effect_invariant (s : State) :
  selector_invariant p run runs s ->
  selector_invariant p run runs (analysis_effect p s).
Proof.
  intros I. unfold analysis_effect.
  destruct (truthy_selection (selectedRunId s)) as [z|] eqn:T; [|exact I].
  destruct I as (Q & S & more & R & F).
  split; [exact Q|]. split; [exact S|].
  exists (more ++ loadAnalysis p z (brandedFilter s)).
  cbn [request requests]. rewrite R, <- app_assoc. split; [reflexivity|].
  apply Forall_app. split; [exact F|].
  apply Forall_forall. intros url Hu.
  exists z, (brandedFilter s). split; [apply S, T|exact Hu].
Qed.

Lemma onChange_invariant (r : QueryRun) (s : State) :
  In r (queryRuns s) ->
  selector_invariant p run runs s ->
  selector_invariant p run runs (onChange p (option_value r) s).
Proof.
  intros Hr (Q & S & M). unfold onChange, option_value.
  assert (Hsafe : (- 2 ^ 53 < id r < 2 ^ 53)%Z).
  { rewrite Forall_forall in safe_ids. apply safe_ids, (Q r Hr). }
  rewrite parseInt_to_string_safe by exact Hsafe.
  assert (I : selector_invariant p run runs
                (with_selection (value (Int (id r))) s)).
  { split; [exact Q|]. split; [|exact M].
    cbn [with_selection selectedRunId truthy_selection]. intros z Hz.
    destruct (id r =? 0)%Z; [discriminate|]. injection Hz as <-.
    right. exists r. destruct (Q r Hr). auto. }
  cbv zeta. destruct (same_selection _ _); [exact I|].
  apply analysis_effect_invariant, I.
Qed.

Lemma setBrandedFilter_invariant (f : BrandedFilter) (s : State) :
  selector_invariant p run runs s ->
  selector_invariant p run runs (setBrandedFilter p f s).
Proof.
  intros I. unfold setBrandedFilter.
  assert (I' : selector_invariant p run runs (with_filter f s)) by exact I.
  cbv zeta. destruct (same_filter _ _); [exact I'|].
  apply analysis_effect_invariant, I'.
Qed.

Lemma handle_invariant (e : Event) (s : State) :
  selector_invariant p run runs s ->
  selector_invariant p run runs (handle p s e).
Proof.
  intros I. destruct e as [n|f]; cbn [handle].
  - destruct (nth_error (queryRuns s) n) as [r|] eqn:N; [|exact I].
    apply onChange_invariant; [|exact I]. apply (nth_error_In _ _ N).
  - apply setBrandedFilter_invariant, I.
Qed.

Lemma run_invariant (es : list Event) (s : State) :
  selector_invariant p run runs s ->
  selector_invariant p run runs (RunSelectorUI.run p es s).
Proof.
  unfold RunSelectorUI.run. revert s.
  induction es as [|e es IH]; intros s I; [exact I|].
  cbn [fold_left]. apply IH, handle_invariant, I.
Qed.

Lemma load_invariant (client : Client) :
  selector_invariant p run runs (load p run (ok (runs, client))).
Proof.
  assert (M : selector_invariant p run runs (mount p run)).
  { unfold mount. apply analysis_effect_invariant.
    split; [intros r []|]. split; [intros z Hz; left; exact Hz|].
    exists []. split; [reflexivity|constructor]. }
  assert (SM : selectedRunId (mount p run) = initial_selectedRunId run).
  { unfold mount, analysis_effect.
    destruct (truthy_selection _); reflexivity. }
  unfold load, loadInitialData. cbv zeta.
  destruct M as (Q & S & R).
  match goal with
  | |- selector_invariant _ _ _ (if _ then ?a else _) =>
      assert (I : selector_invariant p run runs a)
  end.
  { split; [|split; [|exact R]]; cbn [queryRuns selectedRunId].
    - intros r Hr. apply filter_In in Hr. exact Hr.
    - intros z.
      destruct (truthy_selection (initial_selectedRunId run)) eqn:T.
      + apply S.
      + destruct (filter is_completed runs) as [|first rest] eqn:F.
        * apply S.
        * cbn [truthy_selection]. destruct (id first =? 0)%Z; [discriminate|].
          intros [= <-]. right. exists first.
          assert (Hin : In first (filter is_completed runs))
            by (rewrite F; left; reflexivity).
          apply filter_In in Hin. destruct Hin. auto. }
  destruct (same_selection _ _); [exact I|].
  apply analysis_effect_invariant, I.
Qed.

(** X21. When the ids of the listed runs are below 2^53 in size: whatever
    a user does with the run dropdown and the filter buttons after the page
    has loaded, the page only asks the server about runs it may show: apart
    from the two initial requests, every request is one [loadAnalysis] makes
    for the run named in the URL or for a completed run of the server's
    list; the dropdown keeps offering completed runs only, and choosing the
    option of a listed run selects exactly that run's id. *)
Theorem selector_requests_target_completed_runs
    (client : Client) (es : list Event) :
  let s := RunSelectorUI.run p es (load p run (ok (runs, client))) in
  (exists more,
     requests s = [getQueryRuns 20 0; getCurrentClient] ++ more /\
     Forall (targets p (allowed_run run runs)) more) /\
  (forall r, In r (queryRuns s) -> In r runs /\ is_completed r = true) /\
  (forall r, In r (queryRuns s) ->
             selectedRunId (onChange p (option_value r) s)
             = value (Int (id r))).
Proof.
  cbv zeta.
  destruct (run_invariant es _ (load_invariant client)) as (Q & _ & R).
  split; [exact R|]. split; [exact Q|].
  intros r Hr. unfold onChange, option_value.
  assert (Hsafe : (- 2 ^ 53 < id r < 2 ^ 53)%Z).
  { rewrite Forall_forall in safe_ids. apply safe_ids, (Q r Hr). }
  rewrite parseInt_to_string_safe by exact Hsafe.
  cbv zeta. destruct (same_selection _ _); [reflexivity|].
  unfold analysis_effect. destruct (truthy_selection _); reflexivity.
Qed.

End RunSelectorUse.


(** ** Signup page: the wizard *)

Section SignupFacts.
Import JS TextOps SignupPage.
Local Open Scope list_scope.

Lemma filter_all {A : Type} (f : A -> bool) (l : list A) :
  (forall x, In x l -> f x = true) -> filter f l = l.
Proof.
  induction l as [|x l IH]; intros H; [reflexivity|].
  cbn [filter]. rewrite (H x) by (left; reflexivity).
  f_equal. apply IH. intros y Hy. apply H. right. exact Hy.
Qed.

Lemma map_snd_combine_seq {A : Type} (start : nat) (l : list A) :
  map snd (combine (seq start (List.length l)) l) = l.
Proof.
  revert start. induction l as [|x l IH]; intros start; [reflexivity|].
  cbn. f_equal. apply IH.
Qed.

Lemma filter_index_from {A : Type} (index start : nat) (l : list A) :
  map snd
    (filter (fun p : nat * A => negb (fst p =? start + index)%nat)
            (combine (seq start (List.length l)) l))
  = firstn index l ++ skipn (S index) l.
Proof.
  revert index start. induction l as [|x l IH]; intros index start.
  - destruct index; reflexivity.
  - cbn [List.length seq combine filter fst]. destruct index as [|index].
    + rewrite Nat.add_0_r, Nat.eqb_refl. cbn [negb firstn skipn app].
      rewrite filter_all.
      * apply map_snd_combine_seq.
      * intros [i y] Hin. cbn [fst]. apply in_combine_l, in_seq in Hin.
        destruct (Nat.eqb_spec i start); [lia|reflexivity].
    + destruct (Nat.eqb_spec start (start + S index)); [lia|].
      cbn [negb map snd firstn skipn app]. f_equal.
      replace (start + S index)%nat with (S start + index)%nat by lia.
      apply IH.
Qed.

Lemma filter_indexed_remove {A : Type} (index : nat) (l : list A) :
  filter_indexed (fun _ i => negb (i =? index)%nat) l
  = firstn index l ++ skipn (S index) l.
Proof. apply (filter_index_from index 0 l). Qed.

Lemma map_index_from {A B : Type} (f : A -> nat -> B) (start i : nat)
    (l : list A) :
  nth_error
    (map (fun p : nat * A => f (snd p) (fst p))
         (combine (seq start (List.length l)) l)) i
  = option_map (fun x => f x (start + i)%nat) (nth_error l i).
Proof.
  revert start i. induction l as [|x l IH]; intros start i.
  - destruct i; reflexivity.
  - cbn [List.length seq combine map fst snd]. destruct i as [|i].
    + cbn. rewrite Nat.add_0_r. reflexivity.
    + cbn [nth_error]. rewrite IH. f_equal.
      replace (S start + i)%nat with (start + S i)%nat by lia. reflexivity.
Qed.

Lemma map_indexed_nth {A B : Type} (f : A -> nat -> B) (i : nat)
    (l : list A) :
  nth_error (map_indexed f l) i = option_map (fun x => f x i) (nth_error l i).
Proof. apply (map_index_from f 0 i l). Qed.

Lemma map_indexed_length {A B : Type} (f : A -> nat -> B) (l : list A) :
  List.length (map_indexed f l) = List.length l.
Proof.
  unfold map_indexed. rewrite length_map, length_combine, length_seq. lia.
Qed.

Lemma removed_row_length {A : Type} (index : nat) (l : list A) :
  (index < List.length l)%nat ->
  S (List.length (filter_indexed (fun _ i => negb (i =? index)%nat) l))
  = List.length l.
Proof.
  intros H. rewrite filter_indexed_remove, length_app, length_firstn,
    length_skipn. lia.
Qed.

Lemma nonempty_length {A : Type} (l : list A) :
  (0 < List.length l)%nat -> l <> [].
Proof. destruct l; cbn; [lia|discriminate]. Qed.

Lemma validateStep_account (f : FormData) :
  validateStep 1 f = None ->
  email f <> [] /\ fullName f <> [] /\ (6 <= List.length (password f))%nat /\
  text_eqb (password f) (confirmPassword f) = true.
Proof.
  unfold validateStep. cbn [Z.eqb Pos.eqb].
  destruct (email f); [discriminate|].
  destruct (password f) as [|c p]; [discriminate|].
  destruct (fullName f); [discriminate|]. cbn [nonempty negb orb].
  destruct (text_eqb (c :: p) (confirmPassword f)); [|discriminate].
  cbn [negb]. destruct (Nat.ltb_spec (List.length (c :: p)) 6);
    [discriminate|].
  intros _. repeat split; try discriminate. assumption.
Qed.

Lemma validateStep_company (f : FormData) :
  validateStep 2 f = None -> companyName f <> [] /\ brandName f <> [].
Proof.
  unfold validateStep. cbn [Z.eqb Pos.eqb].
  destruct (companyName f); [discriminate|].
  destruct (brandName f); [discriminate|].
  intros _. split; discriminate.
Qed.

Lemma nonempty_trim_not_blank (t : text) :
  nonempty (trim t) = true -> blank t = false.
Proof.
  intros H. destruct (blank t) eqn:B; [|reflexivity].
  apply trim_nil_iff in B. rewrite B in H. discriminate.
Qed.

Lemma signup_body_validated (f : FormData) :
  validateStep 1 f = None -> validateStep 2 f = None ->
  validated (signup_body f).
Proof.
  intros A C. destruct (validateStep_account f A) as (E & N & P & _).
  destruct (validateStep_company f C) as (Co & B).
  unfold validated, signup_body; cbn.
  repeat split; try assumption.
  - apply Forall_forall. intros c Hc. apply filter_In in Hc.
    apply nonempty_trim_not_blank, Hc.
  - apply Forall_forall. intros q Hq. apply filter_In in Hq.
    apply nonempty_trim_not_blank, Hq.
Qed.

Lemma initial_invariant : wizard_invariant initial.
Proof.
  unfold wizard_invariant, initial; cbn.
  repeat split; try lia; try discriminate. constructor.
Qed.

Lemma handle_invariant_signup (s : State) (e : Event) :
  wizard_invariant s -> wizard_invariant (handle s e).
Proof.
  intros I. unfold handle. destruct (offered s e) eqn:O; [|exact I].
  destruct I as (R & A & C & Cs & Qs & V & F).
  destruct e; cbn [offered] in O;
    repeat (apply Bool.andb_true_iff in O; destruct O as [O ?]).
  - (* a text field *)
    apply Z.eqb_eq in O. unfold wizard_invariant.
    cbn [updateField setError setFormData currentStep formData sent
         set_field competitors queries].
    split; [exact R|]. split; [|split; [|auto]].
    + intros H. destruct field; cbn [step_of_field] in O; try lia;
        apply A, H.
    + intros H. destruct field; cbn [step_of_field] in O; lia.
  - (* a competitor field *)
    unfold wizard_invariant.
    cbn [updateCompetitor setFormData currentStep formData sent
         set_competitors competitors queries].
    split; [exact R|]. split; [exact A|]. split; [exact C|].
    split; [|auto]. apply nonempty_length. rewrite map_indexed_length.
    apply Nat.ltb_lt in H. lia.
  - (* removing a competitor *)
    unfold wizard_invariant.
    cbn [removeCompetitor setFormData currentStep formData sent
         set_competitors competitors queries].
    split; [exact R|]. split; [exact A|]. split; [exact C|].
    split; [|auto]. apply nonempty_length.
    apply Nat.ltb_lt in H, H0.
    pose proof (removed_row_length index _ H0). lia.
  - (* adding a competitor *)
    unfold wizard_invariant.
    cbn [addCompetitor setFormData currentStep formData sent
         set_competitors competitors queries].
    split; [exact R|]. split; [exact A|]. split; [exact C|].
    split; [|auto]. intros E. apply app_eq_nil in E. destruct E. discriminate.
  - (* a query *)
    unfold wizard_invariant.
    cbn [updateQuery setFormData currentStep formData sent
         set_queries competitors queries].
    split; [exact R|]. split; [exact A|]. split; [exact C|].
    split; [exact Cs|]. split; [|auto]. apply nonempty_length.
    rewrite map_indexed_length. apply Nat.ltb_lt in H. lia.
  - (* removing a query *)
    unfold wizard_invariant.
    cbn [removeQuery setFormData currentStep formData sent
         set_queries competitors queries].
    split; [exact R|]. split; [exact A|]. split; [exact C|].
    split; [exact Cs|]. split; [|auto]. apply nonempty_length.
    apply Nat.ltb_lt in H, H0.
    pose proof (removed_row_length index _ H0). lia.
  - (* adding a query *)
    unfold wizard_invariant.
    cbn [addQuery setFormData currentStep formData sent
         set_queries competitors queries].
    split; [exact R|]. split; [exact A|]. split; [exact C|].
    split; [exact Cs|]. split; [|auto].
    intros E. apply app_eq_nil in E. destruct E. discriminate.
  - (* sample queries *)
    unfold wizard_invariant, generateSampleQueries.
    cbn [setFormData currentStep formData sent set_queries competitors
         queries].
    split; [exact R|]. split; [exact A|]. split; [exact C|].
    split; [exact Cs|]. split; [|auto]. apply nonempty_length.
    rewrite length_map. cbn. lia.
  - (* back *)
    apply Z.leb_le in O. apply Z.ltb_lt in H. unfold wizard_invariant.
    cbn [prevStep setError setCurrentStep currentStep formData sent].
    split; [lia|]. split; [intros ?; apply A; lia|].
    split; [intros ?; apply C; lia|]. split; [exact Cs|].
    split; [exact Qs|]. split; [exact V|]. intros ?; lia.
  - (* continue *)
    apply Z.leb_le in O. apply Z.ltb_lt in H. unfold nextStep.
    destruct (validateStep (currentStep s) (formData s)) eqn:Val.
    + unfold wizard_invariant.
      cbn [setError currentStep formData sent]. auto 10.
    + unfold wizard_invariant.
      cbn [setCurrentStep currentStep formData sent].
      split; [lia|]. split; [|split].
      * intros ?. destruct (Z.eq_dec (currentStep s) 1) as [E|E].
        -- rewrite E in Val. exact Val.
        -- apply A. lia.
      * intros ?. destruct (Z.eq_dec (currentStep s) 2) as [E|E].
        -- rewrite E in Val. exact Val.
        -- apply C. lia.
      * split; [exact Cs|]. split; [exact Qs|]. split; [exact V|].
        intros ?; lia.
  - (* create account *)
    apply Z.leb_le in O. apply Bool.negb_true_iff, Z.ltb_ge in H0.
    assert (B : validated (signup_body (formData s)))
      by (apply signup_body_validated; [apply A|apply C]; lia).
    assert (S : forall r, sent s ++ [r] <> [])
      by (intros r E; apply app_eq_nil in E; destruct E; discriminate).
    unfold wizard_invariant, handleSubmit. cbv zeta.
    destruct answer as [username|message];
      cbn [setLoading setError setCurrentStep setCreatedUsername send
           currentStep formData sent].
    + split; [lia|]. split; [intros ?; lia|]. split; [intros ?; lia|].
      split; [exact Cs|]. split; [exact Qs|]. split; [|intros _; apply S].
      apply Forall_app. split; [exact V|]. constructor; [exact B|constructor].
    + split; [exact R|]. split; [exact A|]. split; [exact C|].
      split; [exact Cs|]. split; [exact Qs|]. split; [|intros _; apply S].
      apply Forall_app. split; [exact V|]. constructor; [exact B|constructor].
  - (* to the login page *)
    unfold wizard_invariant. cbn [push currentStep formData sent]. auto 10.
Qed.

Lemma run_invariant_signup (es : list Event) (s : State) :
  wizard_invariant s -> wizard_invariant (SignupPage.run es s).
Proof.
  unfold SignupPage.run. revert s.
  induction es as [|e es IH]; intros s I; [exact I|].
  cbn [fold_left]. apply IH, handle_invariant_signup, I.
Qed.

(** X22. Whatever is typed and clicked in the signup wizard, in any order,
    the step stays between 1 and 5, the forms always show at least one
    competitor row and one query row, and every signup request sent has
    passed the validation of steps 1 and 2: a non-empty email and full name,
    a password of at least six code units, a non-empty company and brand
    name; and it carries no competitor with a blank name and no blank query.
    The success step is reached only after a request has been sent. *)
Theorem signup_requests_are_validated (es : list Event) :
  let s := SignupPage.run es initial in
  (1 <= currentStep s <= 5)%Z /\
  competitors (formData s) <> [] /\ queries (formData s) <> [] /\
  Forall validated (sent s) /\
  (currentStep s = 5%Z -> sent s <> []).
Proof.
  cbv zeta.
  destruct (run_invariant_signup es initial initial_invariant)
    as (R & _ & _ & Cs & Qs & V & F).
  auto.
Qed.

(** X23. Editing a row of the signup forms touches that row only:
    [removeCompetitor(index)] and [removeQuery(index)] drop exactly the row at
    [index] and keep the others in order (nothing at all when there is no
    such row); [updateCompetitor] and [updateQuery] keep the number of rows
    and change the row at [index] alone. *)
Theorem signup_row_editing (s : State) (index : nat) :
  let cs := competitors (formData s) in
  let qs := queries (formData s) in
  competitors (formData (removeCompetitor index s))
  = firstn index cs ++ skipn (S index) cs /\
  queries (formData (removeQuery index s))
  = firstn index qs ++ skipn (S index) qs /\
  (forall field v i,
     nth_error (competitors (formData (updateCompetitor index field v s))) i
     = if (i =? index)%nat
       then option_map (set_competitor_field field v) (nth_error cs i)
       else nth_error cs i) /\
  (forall v i,
     nth_error (queries (formData (updateQuery index v s))) i
     = if (i =? index)%nat
       then option_map (fun _ => v) (nth_error qs i)
       else nth_error qs i).
Proof.
  cbv zeta. split; [|split; [|split]].
  - apply filter_indexed_remove.
  - apply filter_indexed_remove.
  - intros field v i.
    cbn [updateCompetitor setFormData formData set_competitors competitors].
    rewrite map_indexed_nth.
    destruct (i =? index)%nat; [reflexivity|].
    destruct (nth_error _ i); reflexivity.
  - intros v i.
    cbn [updateQuery setFormData formData set_queries queries].
    rewrite map_indexed_nth.
    destruct (i =? index)%nat; [reflexivity|].
    destruct (nth_error _ i); reflexivity.
Qed.

End SignupFacts.


(** ** Admin costs page: the cost bars *)

Section AdminCostsFacts.
Import JS AdminCostsPage.
Local Open Scope Q_scope.

Lemma positive_finite (q : Q) : positive (finite q) = true <-> 0 < q.
Proof.
  cbn [positive]. rewrite Bool.negb_true_iff. split.
  - intros H. apply Qnot_le_lt. intros L.
    apply Qle_bool_iff in L. congruence.
  - intros H. destruct (Qle_bool q 0) eqn:E; [|reflexivity].
    apply Qle_bool_iff in E. exfalso. apply (Qlt_not_le _ _ H E).
Qed.

Lemma Qzero_positive (q : Q) : 0 < q -> Qzero q = false.
Proof.
  intros H. unfold Qzero. destruct (Qeq_bool q 0) eqn:E; [|reflexivity].
  apply Qeq_bool_eq in E. rewrite E in H. exfalso.
  apply (Qlt_irrefl _ H).
Qed.

Lemma number_mul_100 (r : Q) (lo hi : Z) :
  (- 2 ^ 53 <= lo * 100)%Z -> (hi * 100 <= 2 ^ 53)%Z ->
  inject_Z lo <= r -> r <= inject_Z hi ->
  exists q, number_mul (finite r) (finite 100) = finite q /\
            inject_Z (lo * 100) <= q /\ q <= inject_Z (hi * 100).
Proof.
  intros Hlo Hhi L U. cbn [number_mul].
  apply Number_of_between; try assumption.
  - rewrite inject_Z_mult. change (inject_Z 100) with 100. lra.
  - rewrite inject_Z_mult. change (inject_Z 100) with 100. lra.
Qed.

(** A share of a positive total. *)
Lemma share_in_range (x total : Q) :
  0 < total -> 0 <= x -> x <= total ->
  exists q,
    number_mul (number_div (finite x) (finite total)) (finite 100) = finite q
    /\ 0 <= q /\ q <= 100.
Proof.
  intros T X L. cbn [number_div]. rewrite (Qzero_positive _ T).
  assert (A : inject_Z 0 <= x / total).
  { apply Qle_shift_div_l; [exact T|]. change (inject_Z 0) with 0. lra. }
  assert (B : x / total <= inject_Z 1).
  { apply Qle_shift_div_r; [exact T|]. change (inject_Z 1) with 1. lra. }
  destruct (Number_of_between _ 0 1 ltac:(lia) ltac:(lia) A B)
    as (r & E & Lr & Ur).
  rewrite E.
  destruct (number_mul_100 r 0 1 ltac:(lia) ltac:(lia) Lr Ur)
    as (q & F & Lq & Uq).
  exists q. split; [exact F|]. split; assumption.
Qed.

(** A value that is at most the positive maximum. *)
Lemma share_below (x m : Q) :
  0 < m -> x <= m ->
  number_mul (number_div (finite x) (finite m)) (finite 100) = infinity true
  \/ exists q,
       number_mul (number_div (finite x) (finite m)) (finite 100) = finite q
       /\ q <= 100.
Proof.
  intros T L. cbn [number_div]. rewrite (Qzero_positive _ T).
  assert (B : x / m <= inject_Z 1).
  { apply Qle_shift_div_r; [exact T|]. change (inject_Z 1) with 1. lra. }
  destruct (Number_of_le _ 1 ltac:(lia) B) as [E|(r & E & Ur)]; rewrite E.
  - left. reflexivity.
  - cbn [number_mul].
    assert (C : r * 100 <= inject_Z 100).
    { change (inject_Z 100) with 100. change (inject_Z 1) with 1 in Ur. lra. }
    destruct (Number_of_le _ 100 ltac:(lia) C) as [F|(q & F & Uq)].
    + left. exact F.
    + right. exists q. split; [exact F|exact Uq].
Qed.

Lemma double_value (q : Q) : double q -> q == round_real q.
Proof. apply Number_of_value. Qed.

Lemma sum_overflow (l : list ProviderUsage) :
  Forall (fun x => cost_value (total_cost x)) l ->
  fold_left (fun sum p => number_add sum (total_cost p)) l (infinity false)
  = infinity false.
Proof.
  induction 1 as [|y l (q & E & _) _ IH]; [reflexivity|].
  cbn [fold_left]. rewrite E. exact IH.
Qed.

(** The running total either overflows to [Infinity] or is a double that
    bounds the start value and every cost added. *)
Lemma sum_bounds (l : list ProviderUsage) (a : Q) :
  0 <= a -> double a ->
  Forall (fun x => cost_value (total_cost x)) l ->
  fold_left (fun sum p => number_add sum (total_cost p)) l (finite a)
    = infinity false \/
  exists t,
    fold_left (fun sum p => number_add sum (total_cost p)) l (finite a)
      = finite t /\
    a <= t /\
    (forall x q, In x l -> total_cost x = finite q -> q <= t).
Proof.
  intros Ha Da H. revert a Ha Da.
  induction H as [|y l (c & E & Hc & Dc) Hl IH]; intros a Ha Da.
  - right. exists a. split; [reflexivity|]. split; [lra|intros x q []].
  - cbn [fold_left]. rewrite E. cbn [number_add].
    destruct (Number_of_nonneg (a + c) ltac:(lra)) as [O|(r & F & Hr)];
      [rewrite O; left; apply sum_overflow, Hl|].
    rewrite F.
    pose proof (Number_of_value _ _ F) as V.
    assert (Ar : a <= r).
    { rewrite V, (double_value a Da) at 1. apply round_real_mono. lra. }
    assert (Cr : c <= r).
    { rewrite V, (double_value c Dc) at 1. apply round_real_mono. lra. }
    destruct (IH r Hr (Number_of_idem _ _ F)) as [O|(t & G & Rt & B)];
      [left; exact O|].
    right. exists t. split; [exact G|]. split; [lra|].
    intros x q [<-|Hx] Q.
    + rewrite E in Q. injection Q as <-. lra.
    + apply (B x q Hx Q).
Qed.

Lemma max_from (l : list number) (a : Q) :
  Forall finite_value l ->
  exists m, fold_left number_max l (finite a) = finite m /\
            a <= m /\ (forall q, In (finite q) l -> q <= m).
Proof.
  intros H. revert a. induction H as [|y l (c & ->) _ IH]; intros a.
  - exists a. split; [reflexivity|]. split; [apply Qle_refl|intros x []].
  - cbn [fold_left number_max].
    destruct (IH (if Qle_bool a c then c else a)) as (m & E & B & F).
    exists m. split; [exact E|].
    assert (Ha : a <= (if Qle_bool a c then c else a)).
    { destruct (Qle_bool a c) eqn:L; [apply Qle_bool_iff, L|apply Qle_refl]. }
    assert (Hy : c <= (if Qle_bool a c then c else a)).
    { destruct (Qle_bool a c) eqn:L; [apply Qle_refl|].
      apply Qlt_le_weak, Qnot_le_lt. intros C.
      apply Qle_bool_iff in C. congruence. }
    split; [exact (Qle_trans _ _ _ Ha B)|].
    intros q [[= <-]|Hq]; [exact (Qle_trans _ _ _ Hy B)|apply F, Hq].
Qed.

Lemma maxCost_bounds (daily : list DailyUsage) (day : DailyUsage) (q : Q) :
  Forall (fun d => finite_value (cost d)) daily ->
  In day daily -> cost day = finite q ->
  exists m, maxCost daily = finite m /\ q <= m.
Proof.
  intros F H E. unfold maxCost, Math_max.
  assert (Fm : Forall finite_value (map cost daily)).
  { apply Forall_map. exact F. }
  assert (Hin : In (finite q) (map cost daily)).
  { rewrite <- E. apply in_map, H. }
  destruct (map cost daily) as [|d l]; [destruct Hin|].
  inversion Fm as [|? ? (c & Ec) Fl]; subst.
  cbn [fold_left number_max].
  destruct (max_from l c Fl) as (m & Em & B & G).
  exists m. split; [exact Em|].
  destruct Hin as [[= <-]|Hin]; [exact B|apply G, Hin].
Qed.

(** X24. The bars of the admin costs page. When the costs of the providers
    are doubles that are not negative, a provider's share is a finite number
    between 0 and 100, also when the total overflows; with a total that is
    not positive it is 0, never a division by zero. When the daily costs are
    finite, the bar of a day is a finite height between 2 and 100. Other
    costs can leave the range: with costs 1e300, -1e300 and 1e-300 the first
    share is [Infinity], and a single cost that arrives as [Infinity] has
    the share [NaN]. *)
Theorem cost_bars_in_range :
  (forall by_provider p,
     Forall (fun x => cost_value (total_cost x)) by_provider ->
     In p by_provider ->
     exists q, percentage by_provider p = finite q /\ 0 <= q /\ q <= 100) /\
  (forall by_provider p,
     positive (totalCost by_provider) = false ->
     percentage by_provider p = finite 0) /\
  (forall daily_usage day,
     Forall (fun d => finite_value (cost d)) daily_usage ->
     In day daily_usage ->
     exists q, bar_height daily_usage day = finite q /\ 2 <= q /\ q <= 100) /\
  (let usage := fun c => {| provider := "openai"; calls := 1;
                            total_tokens := 1; total_cost := c |} in
   let a := usage (number_of_Z (10 ^ 300)) in
   let b := usage (number_of_Z (- 10 ^ 300)) in
   let c := usage (Number_of (1 # 10 ^ 300)) in
   percentage [a; b; c] a = infinity false /\
   percentage [usage (infinity false)] (usage (infinity false)) = nan).
Proof.
  split; [|split; [|split]].
  - intros l p Hl Hp. unfold percentage, totalCost. cbv zeta.
    rewrite Forall_forall in Hl. destruct (Hl p Hp) as (x & Ex & Hx & Dx).
    rewrite <- Forall_forall in Hl.
    assert (D0 : double 0) by reflexivity.
    destruct (sum_bounds l 0 ltac:(lra) D0 Hl) as [O|(t & E & _ & B)].
    + rewrite O, Ex. cbn [positive negb number_div number_mul].
      exists 0. split; [reflexivity|]. split; lra.
    + rewrite E, Ex. specialize (B p x Hp Ex).
      destruct (positive (finite t)) eqn:P.
      * apply positive_finite in P. apply share_in_range; assumption.
      * exists 0. split; [reflexivity|]. split; lra.
  - intros l p P. unfold percentage. cbv zeta. rewrite P. reflexivity.
  - intros daily day F H. unfold bar_height, height.
    rewrite Forall_forall in F. destruct (F day H) as (x & Ex).
    rewrite <- Forall_forall in F.
    destruct (maxCost_bounds daily day x F H Ex) as (m & E & B).
    rewrite E, Ex.
    destruct (positive (finite m)) eqn:P.
    + apply positive_finite in P.
      destruct (share_below x m P B) as [I|(h & Eh & U)]; rewrite ?I, ?Eh.
      * exists 2. split; [reflexivity|]. split; lra.
      * cbn [number_max].
        destruct (Qle_bool h 2) eqn:L.
        -- exists 2. split; [reflexivity|]. split; lra.
        -- exists h. split; [reflexivity|]. split; [|exact U].
           apply Qlt_le_weak, Qnot_le_lt. intros C.
           apply Qle_bool_iff in C. congruence.
    + cbn [number_max]. exists 2. split; [reflexivity|]. split; lra.
  - cbv zeta. split; vm_compute; reflexivity.
Qed.

End AdminCostsFacts.


(** ** Dashboard layout: the darker shade of the client colour *)

Section ColourFacts.
Import JS DashboardLayout.
Local Open Scope Z_scope.

Lemma to_int32_small (x : Z) : - 2 ^ 31 <= x < 2 ^ 31 -> to_int32 x = x.
Proof. intros H. unfold to_int32. rewrite Z.mod_small; lia. Qed.

Lemma lor_disjoint (a b k : Z) :
  0 <= k -> 0 <= a -> 0 <= b < 2 ^ k ->
  Z.lor (a * 2 ^ k) b = a * 2 ^ k + b.
Proof.
  intros K A B.
  rewrite <- Z.lxor_lor, <- Z.add_nocarry_lxor; try reflexivity.
  all: apply Z.bits_inj'; intros n N; rewrite Z.land_spec, Z.bits_0;
    destruct (Z.lt_ge_cases n k) as [L|L].
  all: try (rewrite Z.mul_pow2_bits_low by lia; reflexivity).
  all: destruct (Z.eq_dec b 0) as [->|NZ];
    [rewrite Z.bits_0; apply Bool.andb_false_r|].
  all: rewrite (Z.bits_above_log2 b n), Bool.andb_false_r; try reflexivity;
    try lia.
  all: apply Z.log2_lt_pow2; try lia.
  all: apply Z.lt_le_trans with (2 ^ k); try lia; apply Z.pow_le_mono_r; lia.
Qed.

Lemma pack (r g b : Z) :
  0 <= r <= 255 -> 0 <= g <= 255 -> 0 <= b <= 255 ->
  bor (bor (shl r 16) (shl g 8)) b = r * 65536 + g * 256 + b.
Proof.
  intros R G B. unfold bor, shl.
  rewrite (to_int32_small r), (to_int32_small g), (to_int32_small b) by lia.
  rewrite !Z.shiftl_mul_pow2 by lia.
  rewrite !(to_int32_small (r * 2 ^ 16)), !(to_int32_small (g * 2 ^ 8)) by lia.
  rewrite (lor_disjoint r (g * 2 ^ 8) 16) by lia.
  rewrite to_int32_small by lia.
  replace (r * 2 ^ 16 + g * 2 ^ 8) with ((r * 2 ^ 8 + g) * 2 ^ 8) by lia.
  rewrite (lor_disjoint (r * 2 ^ 8 + g) b 8) by lia. lia.
Qed.

Lemma unpack (v : Z) :
  0 <= v < 2 ^ 24 ->
  shr v 16 = v / 65536 /\ band (shr v 8) 255 = (v / 256) mod 256 /\
  band v 255 = v mod 256.
Proof.
  intros V. unfold shr, band.
  rewrite (to_int32_small v), (to_int32_small 255) by lia.
  rewrite !Z.shiftr_div_pow2 by lia.
  assert (0 <= v / 2 ^ 8 < 2 ^ 16).
  { split; [apply Z.div_pos; lia|apply Z.div_lt_upper_bound; lia]. }
  rewrite (to_int32_small (v / 2 ^ 8)) by lia.
  change 255 with (Z.ones 8). rewrite !Z.land_ones by lia.
  repeat split.
Qed.

(** X25. [adjustColor] shifts each colour channel on its own. For a
    six-digit colour [n] (below 2^24) the number it formats is again below
    2^24, and its red, green and blue channels are those of [n] plus
    [amount], each clamped to 0..255: no channel spills into its neighbour.
    With amount 0 the colour comes back unchanged; and a colour [parseInt]
    cannot read ([NaN]) is treated as black. *)
Theorem adjustColor_channels (n amount : Z) :
  0 <= n < 2 ^ 24 ->
  let v := adjustColor_number (Int n) amount in
  0 <= v < 2 ^ 24 /\
  shr v 16 = Z.min 255 (Z.max 0 (shr n 16 + amount)) /\
  band (shr v 8) 255 = Z.min 255 (Z.max 0 (band (shr n 8) 255 + amount)) /\
  band v 255 = Z.min 255 (Z.max 0 (band n 255 + amount)) /\
  (amount = 0 -> v = n) /\
  adjustColor_number NaN amount = adjustColor_number (Int 0) amount.
Proof.
  intros N. cbv zeta. unfold adjustColor_number. cbv zeta.
  cbn [int32_of]. rewrite (to_int32_small 0), (to_int32_small n) by lia.
  destruct (unpack n N) as (Er & Eg & Eb). rewrite Er, Eg, Eb.
  set (r := Z.min 255 (Z.max 0 (n / 65536 + amount))).
  set (g := Z.min 255 (Z.max 0 ((n / 256) mod 256 + amount))).
  set (b := Z.min 255 (Z.max 0 (n mod 256 + amount))).
  assert (R : 0 <= r <= 255) by (subst r; lia).
  assert (G : 0 <= g <= 255) by (subst g; lia).
  assert (B : 0 <= b <= 255) by (subst b; lia).
  rewrite (pack r g b R G B).
  assert (V : 0 <= r * 65536 + g * 256 + b < 2 ^ 24) by lia.
  destruct (unpack _ V) as (Vr & Vg & Vb). rewrite Vr, Vg, Vb.
  split; [exact V|].
  split; [symmetry; apply Z.div_unique with (g * 256 + b); lia|].
  split.
  { replace (r * 65536 + g * 256 + b) with ((r * 256 + g) * 256 + b) by lia.
    rewrite <- (Z.div_unique ((r * 256 + g) * 256 + b) 256 (r * 256 + g) b)
      by lia.
    symmetry. apply Z.mod_unique with r; lia. }
  split; [symmetry; apply Z.mod_unique with (r * 256 + g); lia|].
  split; [|reflexivity].
  intros ->. subst r g b. rewrite !Z.add_0_r.
  pose proof (Z.div_mod n 256 ltac:(lia)).
  pose proof (Z.div_mod (n / 256) 256 ltac:(lia)).
  pose proof (Z.mod_pos_bound n 256 ltac:(lia)).
  pose proof (Z.mod_pos_bound (n / 256) 256 ltac:(lia)).
  assert (E : n / 65536 = n / 256 / 256)
    by (rewrite Z.div_div by lia; reflexivity).
  assert (0 <= n / 256 / 256 <= 255).
  { split; [apply Z.div_pos; [apply Z.div_pos|]; lia|].
    apply Z.lt_succ_r. apply Z.div_lt_upper_bound; [lia|].
    apply Z.div_lt_upper_bound; lia. }
  rewrite E. lia.
Qed.

(** A six-digit colour darkened by 20, as the layout does. *)
Lemma adjustColor_channels_witness :
  0 <= 3901635 < 2 ^ 24 /\
  shr (adjustColor_number (Int 3901635) (-20)) 16 = 39.
Proof.
  split; [lia|].
  destruct (adjustColor_channels 3901635 (-20) ltac:(lia)) as (_ & R & _).
  rewrite R. reflexivity.
Defined.

End ColourFacts.


(** ** Admin layout and admin dashboard *)

Section AdminFacts.
Import JS Api ApiCalls Auth AuthRequests AdminLayout AdminDashboard.
Local Open Scope list_scope.

Variable base : string.
Variable fetch : Request -> Response.
Variable json : Response -> result Body.

(** X26. The admin portal is shown to super-admins only. After [loadUser] of
    the admin layout exactly one [/auth/me] request has gone out and the
    spinner is gone; the portal is rendered exactly when that request was
    answered with a 2xx status and a user marked as super-admin, and then
    nothing was pushed; a user that is no super-admin sees nothing and is
    sent to [/dashboard]; a failed check shows nothing and sends the visitor
    to [/login]. *)
Theorem admin_portal_only_for_superadmin (w : World) :
  let w' := fst (loadUser base fetch json w initial) in
  let s' := snd (loadUser base fetch json w initial) in
  let response := fetch (me_request base (stored_token (browser w))) in
  fetched w' = fetched w ++ [me_request base (stored_token (browser w))] /\
  render s' <> spinner /\
  (forall u,
     render s' = portal u <->
     response_ok response = true /\ json response = ok u /\
     body_is_superadmin u = true) /\
  (forall u, render s' = portal u ->
     pushed w' = pushed w /\ browser w' = browser w) /\
  (forall u, response_ok response = true -> json response = ok u ->
     body_is_superadmin u = false ->
     render s' = nothing /\ pushed w' = pushed w ++ ["/dashboard"]) /\
  (response_ok response = false \/ (exists e, json response = throw e) ->
     render s' = nothing /\ pushed w' = pushed w ++ ["/login"]).
Proof.
  cbv zeta. unfold loadUser.
  rewrite (call_getCurrentUser_spec base fetch json w). cbv zeta.
  set (response := fetch (me_request base (stored_token (browser w)))).
  destruct (response_ok response) eqn:Ok.
  - rewrite (response_ok_not_401 _ Ok).
    destruct (json response) as [u|e] eqn:J.
    + destruct (body_is_superadmin u) eqn:S; cbn.
      * split; [reflexivity|]. split; [discriminate|]. split.
        { intros u'. split.
          - intros [= <-]. auto.
          - intros (_ & [= <-] & _). reflexivity. }
        split; [auto|]. split.
        { intros u' _ [= <-]. congruence. }
        intros [H|(e & H)]; discriminate.
      * split; [reflexivity|]. split; [discriminate|]. split.
        { intros u'. split; [discriminate|].
          intros (_ & [= <-] & S'). congruence. }
        split; [discriminate|]. split; [auto|].
        intros [H|(e & H)]; discriminate.
    + cbn. split; [reflexivity|]. split; [discriminate|]. split.
      { intros u. split; [discriminate|]. intros (_ & H & _). discriminate. }
      split; [discriminate|]. split; [discriminate|]. auto.
  - cbn. split; [reflexivity|]. split; [discriminate|]. split.
    { intros u. split; [discriminate|]. intros (H & _). discriminate. }
    split; [discriminate|]. split; [discriminate|]. auto.
Qed.

(** X27. The share of active clients on the admin dashboard. With no clients
    at all (0 of 0) the share shown is 0, the [NaN] of the division being
    caught by [|| 0]; with a positive total below 2^53 and an active count
    between 0 and the total it is a whole number between 0 and 100, and it
    is 100 when all clients are active. The division and the product are
    rounded before [Math.round]: 23 of 40 is shown as 57. *)
Theorem active_share_in_range (active total : Z) :
  active_share 0 0 = finite 0 /\
  ((0 < total <= 2 ^ 53)%Z -> (0 <= active <= total)%Z ->
   exists z, active_share active total = finite (inject_Z z) /\
             (0 <= z <= 100)%Z) /\
  ((0 < total <= 2 ^ 53)%Z ->
   active_share total total = finite (inject_Z 100)) /\
  active_share 23 40 = finite (inject_Z 57).
Proof.
  split; [vm_compute; reflexivity|]. split; [|split].
  - intros T A.
    destruct (progress_percent_in_range active total T A) as (q & E & L & U).
    unfold GeneratorPage.progress_percent in E.
    unfold active_share. rewrite E. cbn [Math_round or_zero].
    assert (B : (0 <= Qfloor (q + (1 # 2)) <= 100)%Z).
    { split.
      - change 0%Z with (Qfloor 0). apply Qfloor_resp_le.
        apply Qle_trans with q; [exact L|].
        setoid_replace q with (q + 0)%Q at 1 by ring.
        apply Qplus_le_r. discriminate.
      - change 100%Z with (Qfloor (100 + (1 # 2))). apply Qfloor_resp_le.
        apply Qplus_le_l. exact U. }
    rewrite Qzero_inject_Z.
    destruct (Z.eqb_spec (Qfloor (q + (1 # 2))) 0) as [Z0|NZ].
    + exists 0%Z. split; [reflexivity|lia].
    + exists (Qfloor (q + (1 # 2))). split; [reflexivity|exact B].
  - intros T. unfold active_share.
    pose proof (progress_percent_full total T) as E.
    unfold GeneratorPage.progress_percent in E. rewrite E.
    reflexivity.
  - vm_compute. reflexivity.
Qed.

End AdminFacts.


(** ** The further properties at concrete inputs *)

Section FurtherExamples.
Import JS.

(** A list wrapper answered with status 200. *)
Lemma api_wrappers_outcome_witness :
  let fetch := fun _ : Api.Request =>
    {| Api.status := 200; Api.payload := "[]" |} in
  let json := fun r : Api.Response => ok (Api.payload r) in
  let w := {| Api.localStorage := [("token", "abc")];
              Api.location_href := "/dashboard" |} in
  ApiCalls.c_outcome
    (ApiCalls.api_fixed string json "Failed to get clients" "/api" fetch
       (Some w) "/clients" (Api.api_options None None))
  = ok "[]".
Proof.
  cbv zeta.
  match goal with
  | |- ApiCalls.c_outcome
         (ApiCalls.api_fixed _ ?json ?msg ?base ?fetch (Some ?w) ?e
            (Api.api_options ?m ?b)) = _ =>
      destruct (api_wrappers_outcome string json (fun _ => None) msg base
                  fetch w e m b) as (_ & H & _)
  end.
  apply H. split; reflexivity.
Defined.

(** A stored token the server no longer accepts. *)
Lemma mount_keeps_only_verified_token_witness :
  let fetch := fun _ : Api.Request =>
    {| Api.status := 500; Api.payload := "" |} in
  let json := fun _ : Api.Response => @throw Auth.Body "not JSON" in
  let w := {| Auth.browser :=
                {| Api.localStorage := [("token", "abc"); ("user", "{}")];
                   Api.location_href := "/dashboard" |};
              Auth.pushed := []; Auth.fetched := []; Auth.user := None;
              Auth.loading := true |} in
  Api.stored_token (Auth.browser w) = Some "abc" /\
  Api.stored_token (Auth.browser (Auth.mount "/api" fetch json w)) = None.
Proof.
  cbv zeta. split; [reflexivity|].
  match goal with
  | |- Api.stored_token (Auth.browser (Auth.mount ?base ?fetch ?json ?w)) = _ =>
      destruct (mount_keeps_only_verified_token base fetch json w)
        as (_ & _ & H)
  end.
  destruct (H "abc" eq_refl) as (_ & _ & F).
  destruct (F (or_introl eq_refl)) as (_ & T & _). exact T.
Defined.

(** A login the server accepts, followed by the user check. *)
Lemma login_establishes_session_witness :
  let u := Auth.user_body
    {| Auth.user_id := 1; Auth.email := "a@b.c"; Auth.username := "ann";
       Auth.full_name := None; Auth.client_id := 1; Auth.is_admin := false;
       Auth.is_superadmin := false;
       Auth.user_client :=
         {| Auth.uc_id := 1; Auth.uc_name := "Acme"; Auth.slug := "acme";
            Auth.uc_brand_name := "Acme"; Auth.primary_color := "#3b88c3" |}
    |} in
  let fetch := fun r : Api.Request =>
    if String.eqb (Api.req_url r) "/api/auth/login/json"
    then {| Api.status := 200; Api.payload := "token" |}
    else {| Api.status := 200; Api.payload := "user" |} in
  let json := fun r : Api.Response =>
    if String.eqb (Api.payload r) "token" then ok (Auth.token_body "abc")
    else ok u in
  let w := {| Auth.browser :=
                {| Api.localStorage := []; Api.location_href := "/login" |};
              Auth.pushed := []; Auth.fetched := []; Auth.user := None;
              Auth.loading := false |} in
  Api.stored_token
    (Auth.browser (fst (Auth.login "/api" fetch json "{}" w))) = Some "abc" /\
  AuthRequests.last_pushed (fst (Auth.login "/api" fetch json "{}" w))
  = Some "/dashboard".
Proof.
  cbv zeta.
  match goal with
  | |- Api.stored_token
         (Auth.browser (fst (Auth.login ?base ?fetch ?json ?c ?w))) = _ /\ _ =>
      destruct (login_establishes_session base fetch json c w) as (_ & H)
  end.
  destruct (H "abc" _ eq_refl eq_refl eq_refl eq_refl eq_refl)
    as (_ & T & _ & P & _).
  split; [exact T|exact P].
Defined.

(** A callback with a token for a regular user. *)
Lemma handleCallback_outcome_witness :
  let u := Auth.user_body
    {| Auth.user_id := 1; Auth.email := "a@b.c"; Auth.username := "ann";
       Auth.full_name := None; Auth.client_id := 1; Auth.is_admin := false;
       Auth.is_superadmin := false;
       Auth.user_client :=
         {| Auth.uc_id := 1; Auth.uc_name := "Acme"; Auth.slug := "acme";
            Auth.uc_brand_name := "Acme"; Auth.primary_color := "#3b88c3" |}
    |} in
  let fetch := fun _ : Api.Request =>
    {| Api.status := 200; Api.payload := "user" |} in
  let json := fun _ : Api.Response => ok u in
  let w := {| Auth.browser :=
                {| Api.localStorage := [];
                   Api.location_href := "/auth/callback" |};
              Auth.pushed := []; Auth.fetched := []; Auth.user := None;
              Auth.loading := false |} in
  AuthRequests.last_pushed
    (fst (Auth.handleCallback "/api" fetch json (Some "abc") (Some "google")
            None w))
  = Some "/dashboard".
Proof.
  cbv zeta.
  match goal with
  | |- AuthRequests.last_pushed
         (fst (Auth.handleCallback ?base ?fetch ?json ?t ?p ?e ?w)) = _ =>
      destruct (handleCallback_outcome base fetch json t p e w)
        as (_ & _ & _ & H)
  end.
  destruct (H "abc" eq_refl eq_refl eq_refl) as (_ & _ & S & _).
  destruct (S _ eq_refl eq_refl) as (_ & P). exact P.
Defined.

(** A login form submitted with credentials the server rejects. *)
Lemma handleSubmit_outcome_witness :
  let fetch := fun _ : Api.Request =>
    {| Api.status := 400; Api.payload := "bad" |} in
  let json := fun _ : Api.Response =>
    ok (Auth.error_body (Some "Incorrect username or password")) in
  let w := {| Auth.browser :=
                {| Api.localStorage := []; Api.location_href := "/login" |};
              Auth.pushed := []; Auth.fetched := []; Auth.user := None;
              Auth.loading := false |} in
  Auth.lf_error (snd (Auth.handleSubmit "/api" fetch json "{}" w))
  = "Incorrect username or password".
Proof.
  cbv zeta.
  match goal with
  | |- Auth.lf_error (snd (Auth.handleSubmit ?base ?fetch ?json ?c ?w)) = _ =>
      destruct (handleSubmit_outcome base fetch json c w) as (_ & H & _)
  end.
  destruct (H _ eq_refl) as (E & _). exact E.
Defined.

(** A run started from the predefined queries: the text area and both run
    buttons are inert while the request is in flight. *)
Lemma generator_page_invariant_witness :
  let c := {| GeneratorPage.client_id := 1; GeneratorPage.brand_name := "Acme";
              GeneratorPage.default_openai_model := "gpt-4o";
              GeneratorPage.default_gemini_model := "gemini-pro";
              GeneratorPage.default_perplexity_model := "sonar" |} in
  let s := GeneratorFlow.run (GeneratorFlow.initial (Some c) [])
             [GeneratorFlow.click_predefined 3] in
  GeneratorPage.running (GeneratorFlow.page s) = true /\
  GeneratorFlow.handle s (GeneratorFlow.type_text [104; 105]%N) = s.
Proof.
  cbv zeta. split; [reflexivity|].
  match goal with
  | |- GeneratorFlow.handle
         (GeneratorFlow.run (GeneratorFlow.initial ?c ?runs) ?events) _ = _ =>
      destruct (generator_page_invariant c runs events) as (_ & _ & H & _)
  end.
  destruct (H eq_refl [104; 105]%N 0%nat "") as (T & _).
  exact T.
Defined.

(** Three firings of the interval before the first answer arrives, which
    reports the run completed: three status requests were sent, two answers
    are still awaited, and no later firing sends another. *)
Lemma polling_until_terminal_witness :
  let completed :=
    {| GeneratorPage.id := 7; GeneratorPage.name := None;
       GeneratorPage.status := "completed"; GeneratorPage.total_queries := 3;
       GeneratorPage.completed_queries := 3;
       GeneratorPage.created_at := "2025-03-02T10:00:00" |} in
  let s := {| GeneratorFlow.page :=
                {| GeneratorPage.client := None;
                   GeneratorPage.customQueries := [];
                   GeneratorPage.queryRuns := [];
                   GeneratorPage.running := true;
                   GeneratorPage.activeRunId := value 7%Z;
                   GeneratorPage.progress := finite 0;
                   GeneratorPage.interval := Some 7%Z;
                   GeneratorPage.calls := [] |};
              GeneratorFlow.awaiting_status := 0;
              GeneratorFlow.awaiting_predefined := 0;
              GeneratorFlow.awaiting_custom := 0;
              GeneratorFlow.awaiting_runs := 0 |} in
  let events := [GeneratorFlow.interval_fires; GeneratorFlow.interval_fires;
                 GeneratorFlow.interval_fires;
                 GeneratorFlow.status_settles (ok completed)] in
  let s' := GeneratorFlow.run s events in
  GeneratorFlow.polling 7 (GeneratorFlow.page s) /\
  GeneratorPage.status_requests 7 (GeneratorFlow.page s') = 3 /\
  GeneratorFlow.awaiting_status s' = 2 /\
  GeneratorPage.status_requests 7
    (GeneratorFlow.page
       (GeneratorFlow.run s' [GeneratorFlow.interval_fires;
                              GeneratorFlow.status_settles (ok completed)]))
  = 3.
Proof.
  cbv zeta. split; [split; reflexivity|]. split; [reflexivity|].
  split; [reflexivity|].
  match goal with
  | |- GeneratorPage.status_requests ?r
         (GeneratorFlow.page
            (GeneratorFlow.run (GeneratorFlow.run ?s ?events) ?later)) = _ =>
      destruct (polling_until_terminal s r events
                  (conj eq_refl eq_refl) eq_refl)
        as ([(P & _)|(_ & _ & _ & L)] & _);
      [destruct P as [P _]; discriminate P
      |rewrite (L later eq_refl); reflexivity]
  end.
Defined.

(** A custom run the server refuses. *)
Lemma failed_run_resets_page_witness :
  let c := {| GeneratorPage.client_id := 1; GeneratorPage.brand_name := "Acme";
              GeneratorPage.default_openai_model := "gpt-4o";
              GeneratorPage.default_gemini_model := "gemini-pro";
              GeneratorPage.default_perplexity_model := "sonar" |} in
  let created :=
    {| GeneratorPage.id := 7; GeneratorPage.name := None;
       GeneratorPage.status := "pending"; GeneratorPage.total_queries := 3;
       GeneratorPage.completed_queries := 0;
       GeneratorPage.created_at := "2025-03-02T10:00:00" |} in
  let s := {| GeneratorPage.client := Some c;
              GeneratorPage.customQueries := [104; 105]%N;
              GeneratorPage.queryRuns := [];
              GeneratorPage.running := false;
              GeneratorPage.activeRunId := null;
              GeneratorPage.progress := finite 0;
              GeneratorPage.interval := None;
              GeneratorPage.calls := [] |} in
  GeneratorPage.client s = Some c /\
  GeneratorPage.custom_queries (GeneratorPage.customQueries s) <> [] /\
  GeneratorPage.running
    (GeneratorPage.handleRunCustom "3/2/2025" (throw "offline") s) = false.
Proof.
  cbv zeta. split; [reflexivity|]. split; [discriminate|].
  match goal with
  | |- GeneratorPage.running
         (GeneratorPage.handleRunCustom ?now (throw ?msg) ?s) = _ =>
      destruct (failed_run_resets_page s
                  {| GeneratorPage.client_id := 1;
                     GeneratorPage.brand_name := "Acme";
                     GeneratorPage.default_openai_model := "gpt-4o";
                     GeneratorPage.default_gemini_model := "gemini-pro";
                     GeneratorPage.default_perplexity_model := "sonar" |}
                  now msg
                  {| GeneratorPage.id := 7; GeneratorPage.name := None;
                     GeneratorPage.status := "pending";
                     GeneratorPage.total_queries := 3;
                     GeneratorPage.completed_queries := 0;
                     GeneratorPage.created_at := "2025-03-02T10:00:00" |}
                  eq_refl ltac:(discriminate)) as (H & _)
  end.
  exact H.
Defined.

(** Expanding a third row next to two expanded ones. *)
Lemma toggleGap_flips_one_row_witness :
  NoDup [1; 2]%Z /\ NoDup (GapsPageUI.toggleGap 3 [1; 2]%Z).
Proof.
  assert (N : NoDup [1; 2]%Z).
  { constructor; [intros [H|[]]; discriminate H|].
    constructor; [intros []|constructor]. }
  split; [exact N|].
  destruct (toggleGap_flips_one_row 3 3 [1; 2]%Z) as (_ & _ & H).
  exact (H N).
Defined.

(** A leaderboard of two entries, given in ascending order of rate. *)
Lemma leaderboard_ranks_witness :
  let entry := fun n b r =>
    {| CompetitorsPage.name := n; CompetitorsPage.is_brand := b;
       CompetitorsPage.mention_count := 0; CompetitorsPage.mention_rate := r;
       CompetitorsPage.first_third_rate := None;
       CompetitorsPage.positive_rate := None;
       CompetitorsPage.unique_queries := None |} in
  let a := {| CompetitorsPage.query_run_id := 7;
              CompetitorsPage.total_responses := 10;
              CompetitorsPage.comparison :=
                [entry "Other" false 30%Q; entry "Acme" true 70%Q];
              CompetitorsPage.win_loss :=
                {| CompetitorsPage.wl_wins := 1; CompetitorsPage.ties := 0;
                   CompetitorsPage.losses := 0;
                   CompetitorsPage.neither := 0 |};
              CompetitorsPage.branded_count := 0;
              CompetitorsPage.non_branded_count := 10;
              CompetitorsPage.filter_applied := "all" |} in
  nth_error (CompetitorsPage.sortedComparison (Some a)) 0
  = Some (entry "Acme" true 70%Q) /\
  In (entry "Other" false 30%Q) (CompetitorsPage.comparison a) /\
  (30 <= 70)%Q.
Proof.
  cbv zeta. split; [reflexivity|]. split; [left; reflexivity|].
  match goal with
  | |- (?x <= ?y)%Q =>
      change (CompetitorsPage.mention_rate
                {| CompetitorsPage.name := "Other";
                   CompetitorsPage.is_brand := false;
                   CompetitorsPage.mention_count := 0;
                   CompetitorsPage.mention_rate := x;
                   CompetitorsPage.first_third_rate := None;
                   CompetitorsPage.positive_rate := None;
                   CompetitorsPage.unique_queries := None |}
              <= CompetitorsPage.mention_rate
                   {| CompetitorsPage.name := "Acme";
                      CompetitorsPage.is_brand := true;
                      CompetitorsPage.mention_count := 0;
                      CompetitorsPage.mention_rate := y;
                      CompetitorsPage.first_third_rate := None;
                      CompetitorsPage.positive_rate := None;
                      CompetitorsPage.unique_queries := None |})%Q
  end.
  match goal with
  | |- (CompetitorsPage.mention_rate ?c
        <= CompetitorsPage.mention_rate ?top)%Q =>
      destruct (leaderboard_ranks
                  {| CompetitorsPage.query_run_id := 7;
                     CompetitorsPage.total_responses := 10;
                     CompetitorsPage.comparison := [c; top];
                     CompetitorsPage.win_loss :=
                       {| CompetitorsPage.wl_wins := 1;
                          CompetitorsPage.ties := 0;
                          CompetitorsPage.losses := 0;
                          CompetitorsPage.neither := 0 |};
                     CompetitorsPage.branded_count := 0;
                     CompetitorsPage.non_branded_count := 10;
                     CompetitorsPage.filter_applied := "all" |})
        as (_ & _ & _ & _ & H);
      exact (H top c eq_refl (or_introl eq_refl))
  end.
Defined.

(** The second bar of a leaderboard of two rows. *)
Lemma bar_fill_defined_witness :
  let entry := fun n b r =>
    {| CompetitorsPage.name := n; CompetitorsPage.is_brand := b;
       CompetitorsPage.mention_count := 0; CompetitorsPage.mention_rate := r;
       CompetitorsPage.first_third_rate := None;
       CompetitorsPage.positive_rate := None;
       CompetitorsPage.unique_queries := None |} in
  let rows := [entry "Acme" true 70%Q; entry "Other" false 30%Q] in
  (2 <= List.length rows)%nat /\
  nth_error rows 1 = Some (entry "Other" false 30%Q) /\
  In (CompetitorsPageUI.cell_gradient (entry "Other" false 30%Q) 1)
     (CompetitorsPageUI.defined_gradients rows).
Proof.
  cbv zeta. split; [cbn; lia|]. split; [reflexivity|].
  match goal with
  | |- In (CompetitorsPageUI.cell_gradient ?e ?i)
          (CompetitorsPageUI.defined_gradients ?rows) =>
      destruct (bar_fill_defined rows e i) as (_ & H & _);
      destruct (H ltac:(cbn; lia) eq_refl) as (G & _); exact G
  end.
Defined.

(** A settings page with two competitors and the add form filled in. *)
Lemma competitor_handlers_send_clean_data_witness :
  let s := {| SettingsPage.client := Some 1%Z;
              SettingsPage.competitors := [];
              SettingsPage.newCompetitor :=
                {| SettingsPage.form_name := [32; 9]%N;
                   SettingsPage.form_aliases := [];
                   SettingsPage.form_website := [] |};
              SettingsPage.addingCompetitor := false;
              SettingsPage.editingCompetitorId := None;
              SettingsPage.editingCompetitor := SettingsPage.empty_form;
              SettingsPage.deletePassword := [];
              SettingsPage.deleteConfirmText := [];
              SettingsPage.deleteLoading := false;
              SettingsPage.deleteError := "";
              SettingsPage.browser :=
                {| Api.localStorage := [("token", "abc")];
                   Api.location_href := "/dashboard/settings" |};
              SettingsPage.pushed := [];
              SettingsPage.calls := [] |} in
  blank (SettingsPage.form_name (SettingsPage.newCompetitor s)) = true /\
  SettingsPage.handleAddCompetitor (throw "unused") s = s.
Proof.
  cbv zeta. split; [reflexivity|].
  match goal with
  | |- SettingsPage.handleAddCompetitor ?a ?s = _ =>
      destruct (competitor_handlers_send_clean_data s) as (H & _);
      destruct (H a) as (_ & B); exact (B eq_refl)
  end.
Defined.

(** Adding "Globex" to a list of one competitor and removing it again. *)
Lemma add_then_delete_competitor_witness :
  let initech := {| SettingsPage.id := 4; SettingsPage.name := [73]%N;
                    SettingsPage.aliases := None;
                    SettingsPage.website := None |} in
  let globex := {| SettingsPage.id := 9; SettingsPage.name := [71]%N;
                   SettingsPage.aliases := None;
                   SettingsPage.website := None |} in
  let s := {| SettingsPage.client := Some 1%Z;
              SettingsPage.competitors := [initech];
              SettingsPage.newCompetitor :=
                {| SettingsPage.form_name := [32; 71; 32]%N;
                   SettingsPage.form_aliases := [];
                   SettingsPage.form_website := [] |};
              SettingsPage.addingCompetitor := false;
              SettingsPage.editingCompetitorId := None;
              SettingsPage.editingCompetitor := SettingsPage.empty_form;
              SettingsPage.deletePassword := [];
              SettingsPage.deleteConfirmText := [];
              SettingsPage.deleteLoading := false;
              SettingsPage.deleteError := "";
              SettingsPage.browser :=
                {| Api.localStorage := [("token", "abc")];
                   Api.location_href := "/dashboard/settings" |};
              SettingsPage.pushed := [];
              SettingsPage.calls := [] |} in
  SettingsPage.client s = Some 1%Z /\
  blank (SettingsPage.form_name (SettingsPage.newCompetitor s)) = false /\
  ~ In (SettingsPage.id globex)
       (SettingsRequests.ids (SettingsPage.competitors s)) /\
  SettingsPage.competitors
    (SettingsPage.handleDeleteCompetitor 9 true (ok tt)
       (SettingsPage.handleAddCompetitor (ok globex) s))
  = [initech].
Proof.
  cbv zeta.
  assert (F : forall x : Z, In 9%Z [4%Z] -> x = x -> False).
  { intros x [H|[]] _. discriminate H. }
  split; [reflexivity|]. split; [reflexivity|].
  split; [intros H; exact (F 0%Z H eq_refl)|].
  match goal with
  | |- SettingsPage.competitors
         (SettingsPage.handleDeleteCompetitor _ true (ok tt)
            (SettingsPage.handleAddCompetitor (ok ?added) ?s)) = _ =>
      destruct (add_then_delete_competitor s 1%Z added eq_refl eq_refl
                  (fun H => F 0%Z H eq_refl)) as (_ & R)
  end.
  exact R.
Defined.

(** Renaming the one competitor of the list. *)
Lemma update_competitor_in_place_witness :
  let initech := {| SettingsPage.id := 4; SettingsPage.name := [73]%N;
                    SettingsPage.aliases := None;
                    SettingsPage.website := None |} in
  let renamed := {| SettingsPage.id := 4; SettingsPage.name := [74]%N;
                    SettingsPage.aliases := None;
                    SettingsPage.website := None |} in
  let s := {| SettingsPage.client := Some 1%Z;
              SettingsPage.competitors := [initech];
              SettingsPage.newCompetitor := SettingsPage.empty_form;
              SettingsPage.addingCompetitor := false;
              SettingsPage.editingCompetitorId := Some 4%Z;
              SettingsPage.editingCompetitor :=
                {| SettingsPage.form_name := [74]%N;
                   SettingsPage.form_aliases := [];
                   SettingsPage.form_website := [] |};
              SettingsPage.deletePassword := [];
              SettingsPage.deleteConfirmText := [];
              SettingsPage.deleteLoading := false;
              SettingsPage.deleteError := "";
              SettingsPage.browser :=
                {| Api.localStorage := [("token", "abc")];
                   Api.location_href := "/dashboard/settings" |};
              SettingsPage.pushed := [];
              SettingsPage.calls := [] |} in
  SettingsPage.client s = Some 1%Z /\
  blank (SettingsPage.form_name (SettingsPage.editingCompetitor s)) = false /\
  SettingsRequests.ids
    (SettingsPage.competitors
       (SettingsPage.handleUpdateCompetitor 4 (ok renamed) s))
  = [4%Z].
Proof.
  cbv zeta. split; [reflexivity|]. split; [reflexivity|].
  match goal with
  | |- SettingsRequests.ids
         (SettingsPage.competitors
            (SettingsPage.handleUpdateCompetitor _ (ok ?u) ?s)) = _ =>
      destruct (update_competitor_in_place s 1%Z u eq_refl eq_refl)
        as (I & _)
  end.
  exact I.
Defined.

(** An account deletion the server accepts. *)
Lemma handleDeleteAccount_outcome_witness :
  let s := {| SettingsPage.client := Some 1%Z;
              SettingsPage.competitors := [];
              SettingsPage.newCompetitor := SettingsPage.empty_form;
              SettingsPage.addingCompetitor := false;
              SettingsPage.editingCompetitorId := None;
              SettingsPage.editingCompetitor := SettingsPage.empty_form;
              SettingsPage.deletePassword := [112; 119]%N;
              SettingsPage.deleteConfirmText := SettingsPage.DELETE;
              SettingsPage.deleteLoading := false;
              SettingsPage.deleteError := "";
              SettingsPage.browser :=
                {| Api.localStorage := [("token", "abc"); ("user", "{}")];
                   Api.location_href := "/dashboard/settings" |};
              SettingsPage.pushed := [];
              SettingsPage.calls := [] |} in
  let fetch := fun _ : Api.Request =>
    {| Api.status := 200; Api.payload := "{}" |} in
  let json := fun r : Api.Response => ok (Api.payload r) in
  SettingsPage.deleteConfirmText s = SettingsPage.DELETE /\
  SettingsPage.deletePassword s <> [] /\
  Api.stored_token
    (SettingsPage.browser
       (SettingsPage.handleDeleteAccount string json (fun _ => None)
          (fun _ _ => "{}") "/api" fetch s))
  = None.
Proof.
  cbv zeta. split; [reflexivity|]. split; [discriminate|].
  match goal with
  | |- Api.stored_token
         (SettingsPage.browser
            (SettingsPage.handleDeleteAccount ?J ?json ?detail ?str ?base
               ?fetch ?s)) = _ =>
      destruct (handleDeleteAccount_outcome J json detail str base fetch s)
        as (_ & H)
  end.
  destruct (H eq_refl ltac:(discriminate)) as (_ & _ & _ & _ & _ & T & _).
  exact (proj1 (T "{}" eq_refl eq_refl)).
Defined.

(** Two providers with costs 3 and 1. *)
Lemma cost_bars_in_range_witness :
  let openai := {| AdminCostsPage.provider := "openai";
                   AdminCostsPage.calls := 10;
                   AdminCostsPage.total_tokens := 1000;
                   AdminCostsPage.total_cost := finite 3 |} in
  let gemini := {| AdminCostsPage.provider := "gemini";
                   AdminCostsPage.calls := 5;
                   AdminCostsPage.total_tokens := 500;
                   AdminCostsPage.total_cost := finite 1 |} in
  AdminCostsPage.percentage [openai; gemini] openai = finite 75 /\
  exists q, AdminCostsPage.percentage [openai; gemini] openai = finite q /\
            (0 <= q)%Q /\ (q <= 100)%Q.
Proof.
  cbv zeta. split; [vm_compute; reflexivity|].
  destruct cost_bars_in_range as (H & _).
  apply H; [|left; reflexivity].
  repeat constructor;
    (eexists; split; [reflexivity|]; split;
     [discriminate|vm_compute; reflexivity]).
Defined.

(** A regular user opening the admin portal. *)
Lemma admin_portal_only_for_superadmin_witness :
  let u := Auth.user_body
    {| Auth.user_id := 1; Auth.email := "a@b.c"; Auth.username := "ann";
       Auth.full_name := None; Auth.client_id := 1; Auth.is_admin := true;
       Auth.is_superadmin := false;
       Auth.user_client :=
         {| Auth.uc_id := 1; Auth.uc_name := "Acme"; Auth.slug := "acme";
            Auth.uc_brand_name := "Acme"; Auth.primary_color := "#3b88c3" |}
    |} in
  let fetch := fun _ : Api.Request =>
    {| Api.status := 200; Api.payload := "user" |} in
  let json := fun _ : Api.Response => ok u in
  let w := {| Auth.browser :=
                {| Api.localStorage := [("token", "abc")];
                   Api.location_href := "/admin" |};
              Auth.pushed := []; Auth.fetched := []; Auth.user := None;
              Auth.loading := false |} in
  AdminLayout.render
    (snd (AdminLayout.loadUser "/api" fetch json w AdminLayout.initial))
  = AdminLayout.nothing /\
  Auth.pushed
    (fst (AdminLayout.loadUser "/api" fetch json w AdminLayout.initial))
  = ["/dashboard"].
Proof.
  cbv zeta.
  match goal with
  | |- AdminLayout.render
         (snd (AdminLayout.loadUser ?base ?fetch ?json ?w _)) = _ /\ _ =>
      destruct (admin_portal_only_for_superadmin base fetch json w)
        as (_ & _ & _ & _ & H & _)
  end.
  exact (H _ eq_refl eq_refl eq_refl).
Defined.

(** Seven active clients of nine. *)
Lemma active_share_in_range_witness :
  (0 < 9)%Z /\ (0 <= 7 <= 9)%Z /\
  exists z, AdminDashboard.active_share 7 9 = finite (inject_Z z) /\
            (0 <= z <= 100)%Z.
Proof.
  split; [lia|]. split; [lia|].
  destruct (active_share_in_range 7 9) as (_ & H & _).
  apply H; lia.
Defined.

(** The run list of the pages, with the limit and offset they pass. *)
Lemma numeric_query_params_round_trip_witness :
  Api.getQueryRuns 20 0 = "/queries/runs?limit=20&offset=0" /\
  option_map parseInt (query_param "limit" (Api.getQueryRuns 20 0))
    = Some (Int 20) /\
  option_map parseInt
    (query_param "days"
       (Api.getTimeSeriesData 30 (Api.branded_of_filter Api.branded)))
    = Some (Int 30).
Proof.
  split; [vm_compute; reflexivity|].
  destruct (numeric_query_params_round_trip 20 0 30 Api.branded
              ltac:(split; reflexivity) ltac:(split; reflexivity)
              ltac:(split; reflexivity))
    as (_ & L & _ & D & _).
  split; [exact L|exact D].
Defined.

(** A list with a completed and a running run: the first option is chosen
    and the branded filter clicked. *)
Lemma selector_requests_target_completed_runs_witness :
  let runs := [ {| RunSelector.id := 9; RunSelector.name := None;
                   RunSelector.status := "running";
                   RunSelector.created_at := "2025-03-02T10:00:00" |};
                {| RunSelector.id := 8; RunSelector.name := Some "Weekly";
                   RunSelector.status := "completed";
                   RunSelector.created_at := "2025-03-01T10:00:00" |} ] in
  let client := {| RunSelector.brand_name := "Acme" |} in
  let s := RunSelectorUI.run RunSelector.gaps_page
             [RunSelectorUI.choose 0;
              RunSelectorUI.click_filter Api.branded]
             (RunSelector.load RunSelector.gaps_page None
                (ok (runs, client))) in
  Forall (fun r => (- 2 ^ 53 < RunSelector.id r < 2 ^ 53)%Z) runs /\
  RunSelector.requests s =
    ["/queries/runs?limit=20&offset=0"; "/clients/current";
     "/analysis/runs/8/gaps"; "/analysis/runs/8/gaps?branded=true"] /\
  forall r, In r (RunSelector.queryRuns s) ->
            In r runs /\ RunSelector.is_completed r = true.
Proof.
  cbv zeta.
  assert (H : Forall (fun r => (- 2 ^ 53 < RunSelector.id r < 2 ^ 53)%Z)
                [ {| RunSelector.id := 9; RunSelector.name := None;
                     RunSelector.status := "running";
                     RunSelector.created_at := "2025-03-02T10:00:00" |};
                  {| RunSelector.id := 8; RunSelector.name := Some "Weekly";
                     RunSelector.status := "completed";
                     RunSelector.created_at := "2025-03-01T10:00:00" |} ]).
  { repeat constructor; vm_compute; reflexivity. }
  split; [exact H|]. split; [vm_compute; reflexivity|].
  exact (proj1 (proj2
           (selector_requests_target_completed_runs RunSelector.gaps_page
              None _ H {| RunSelector.brand_name := "Acme" |}
              [RunSelectorUI.choose 0;
               RunSelectorUI.click_filter Api.branded]))).
Defined.

End FurtherExamples.
